(** * market-pulse: order, order book, matching engine and order queue

    A shallow embedding of the core of the exchange simulator
    (Order.cpp, OrderBook.cpp, MatchingEngine.cpp, OrderQueue.cpp) and the
    properties of its specification.

    Conventions of the embedding.
    - [Quantity] is [uint32_t]: a [Z] in [0, 2^32) whose arithmetic wraps
      ([wrap32]).  [OrderId] is [uint64_t], only ever compared and copied.
    - [Price] is a [double] that the modelled code only compares ([<], [>],
      map-key equivalence) and copies; it is represented by an integer
      number of ticks, so the order on prices is the total order of the
      finite doubles.  [getSpread], the one place that subtracts prices, is
      not modelled.
    - Timestamps ([now()]) and the callbacks registered with [onTrade] are
      left out: no modelled operation reads them back.
    - Every [Order*] held by the book points to an object created by
      [OrderBook::addOrder] and registered in [m_orderMap] under its id, so a
      pointer is represented by that key and [m_orderMap] doubles as the
      heap: dereferencing is a lookup, [delete order] is the removal of the
      entry.
    - [std::map<Price, PriceLevel, Cmp>] is a finite map together with its
      iteration order (the entries sorted by [Cmp]). *)

From stdpp Require Import gmap list sorting.
From Stdlib Require Import ZArith Lia.

Local Open Scope Z_scope.

(** ** Common.h *)

Definition OrderId := Z.
Definition Price := Z.
Definition Quantity := Z.

Definition wrap32 (z : Z) : Z := z mod 2 ^ 32.
Definition wrap64 (z : Z) : Z := z mod 2 ^ 64.

Definition is_u32 (z : Z) : Prop := 0 <= z < 2 ^ 32.

Inductive Side := BUY | SELL.
Inductive OrderType := LIMIT | MARKET.
Inductive OrderStatus := NEW | OPEN | FILLED | PARTIAL | CANCELLED | REJECTED.

#[global] Instance Side_eq_dec : EqDecision Side.
Proof. solve_decision. Defined.
#[global] Instance OrderType_eq_dec : EqDecision OrderType.
Proof. solve_decision. Defined.
#[global] Instance OrderStatus_eq_dec : EqDecision OrderStatus.
Proof. solve_decision. Defined.

(** ** Order.h / Order.cpp *)

Record Order := mkOrder {
  m_id : OrderId;
  m_side : Side;
  m_type : OrderType;
  m_price : Price;
  m_quantity : Quantity;
  m_filledQty : Quantity;
  m_status : OrderStatus
}.

#[global] Instance Order_eq_dec : EqDecision Order.
Proof. solve_decision. Defined.

(** [Order::Order(id, side, type, price, quantity)] *)
Definition Order_new (id : OrderId) (side : Side) (type : OrderType)
    (price : Price) (quantity : Quantity) : Order :=
  mkOrder id side type price quantity 0 NEW.

Definition getRemainingQty (o : Order) : Quantity :=
  wrap32 (m_quantity o - m_filledQty o).

Definition isActive (o : Order) : bool :=
  match m_status o with
  | NEW | OPEN | PARTIAL => true
  | _ => false
  end.

Definition isFilled (o : Order) : bool :=
  bool_decide (m_status o = FILLED).

Definition set_status (o : Order) (s : OrderStatus) : Order :=
  mkOrder (m_id o) (m_side o) (m_type o) (m_price o) (m_quantity o)
          (m_filledQty o) s.

(** [bool Order::fill(Quantity qty)]: the returned flag and the order after
    the call. *)
Definition fill (o : Order) (qty : Quantity) : bool * Order :=
  if qty >? getRemainingQty o then (false, o)
  else
    let filled := wrap32 (m_filledQty o + qty) in
    let status :=
      if filled =? m_quantity o then FILLED
      else if filled >? 0 then PARTIAL
      else m_status o in
    (true, mkOrder (m_id o) (m_side o) (m_type o) (m_price o) (m_quantity o)
                   filled status).

(** [void Order::cancel()] *)
Definition cancel (o : Order) : Order :=
  if isActive o then set_status o CANCELLED else o.

(** [bool Order::modifyPrice(Price newPrice)] *)
Definition modifyPrice (o : Order) (newPrice : Price) : bool * Order :=
  if negb (bool_decide (m_type o = LIMIT)) || (m_filledQty o >? 0)
  then (false, o)
  else (true, mkOrder (m_id o) (m_side o) (m_type o) newPrice (m_quantity o)
                      (m_filledQty o) (m_status o)).

(** [bool Order::modifyQuantity(Quantity newQuantity)] *)
Definition modifyQuantity (o : Order) (newQuantity : Quantity) : bool * Order :=
  if newQuantity <? m_filledQty o then (false, o)
  else
    let status :=
      if m_filledQty o =? newQuantity then FILLED else m_status o in
    (true, mkOrder (m_id o) (m_side o) (m_type o) (m_price o) newQuantity
                   (m_filledQty o) status).

(** Sequences of operations on one order. *)
Inductive OrderOp :=
  | OpFill (qty : Quantity)
  | OpCancel
  | OpModifyPrice (newPrice : Price)
  | OpModifyQuantity (newQuantity : Quantity).

Definition apply_op (o : Order) (op : OrderOp) : Order :=
  match op with
  | OpFill qty => (fill o qty).2
  | OpCancel => cancel o
  | OpModifyPrice p => (modifyPrice o p).2
  | OpModifyQuantity q => (modifyQuantity o q).2
  end.

Definition run_ops (o : Order) (ops : list OrderOp) : Order :=
  foldl apply_op o ops.

(** The arguments of an operation are values of their C++ types. *)
Definition op_in_range (op : OrderOp) : Prop :=
  match op with
  | OpFill qty => is_u32 qty
  | OpModifyQuantity q => is_u32 q
  | _ => True
  end.

(** [modifyQuantity] is never applied to an order that is already FILLED. *)
Fixpoint no_requantify_filled (o : Order) (ops : list OrderOp) : bool :=
  match ops with
  | [] => true
  | op :: rest =>
      match op with
      | OpModifyQuantity _ => negb (isFilled o)
      | _ => true
      end && no_requantify_filled (apply_op o op) rest
  end.

Definition is_terminal (o : Order) : Prop :=
  m_status o = FILLED ∨ m_status o = CANCELLED.

(** The range invariant of an order. *)
Definition order_ok (o : Order) : Prop :=
  0 <= m_filledQty o <= m_quantity o ∧ m_quantity o < 2 ^ 32.

(** An order whose fill equals its quantity is FILLED. *)
Definition full_is_filled (o : Order) : Prop :=
  m_filledQty o = m_quantity o → m_status o = FILLED.

(** A FILLED order has its whole quantity filled. *)
Definition filled_is_full (o : Order) : Prop :=
  m_status o = FILLED → m_filledQty o = m_quantity o.

(** ** OrderBook.h / OrderBook.cpp *)

(** [struct PriceLevel]; [orders] is the [std::list<Order*>], oldest first. *)
Record PriceLevel := mkPriceLevel {
  price : Price;
  totalQuantity : Quantity;
  orders : list OrderId
}.

#[global] Instance PriceLevel_eq_dec : EqDecision PriceLevel.
Proof. solve_decision. Defined.

(** [void PriceLevel::addOrder(Order* order)]; [o] is [*order]. *)
Definition PriceLevel_addOrder (lvl : PriceLevel) (order : OrderId) (o : Order)
    : PriceLevel :=
  mkPriceLevel (price lvl)
               (wrap32 (totalQuantity lvl + getRemainingQty o))
               (orders lvl ++ [order]).

(** [orders.erase(std::find(...))]: the first occurrence goes. *)
Fixpoint remove_first (order : OrderId) (l : list OrderId) : list OrderId :=
  match l with
  | [] => []
  | x :: rest => if decide (x = order) then rest else x :: remove_first order rest
  end.

(** [void PriceLevel::removeOrder(Order* order)]; [o] is [*order]. *)
Definition PriceLevel_removeOrder (lvl : PriceLevel) (order : OrderId) (o : Order)
    : PriceLevel :=
  if decide (order ∈ orders lvl)
  then mkPriceLevel (price lvl)
                    (wrap32 (totalQuantity lvl - getRemainingQty o))
                    (remove_first order (orders lvl))
  else lvl.

Definition isEmpty (lvl : PriceLevel) : bool :=
  match orders lvl with [] => true | _ => false end.

Record OrderBook := mkOrderBook {
  m_bids : gmap Price PriceLevel;
  m_asks : gmap Price PriceLevel;
  m_orderMap : gmap OrderId Order
}.

Definition empty_book : OrderBook := mkOrderBook ∅ ∅ ∅.

(** [OrderBook::clear()] *)
Definition OrderBook_clear (b : OrderBook) : OrderBook := empty_book.

(** Iteration order of [m_bids] ([std::greater<Price>]: highest price first)
    and of [m_asks] ([std::less<Price>]: lowest price first). *)
Definition bid_before (x y : Price * PriceLevel) : Prop := y.1 <= x.1.
Definition ask_before (x y : Price * PriceLevel) : Prop := x.1 <= y.1.

#[global] Instance bid_before_dec x y : Decision (bid_before x y).
Proof. unfold bid_before. apply _. Defined.
#[global] Instance ask_before_dec x y : Decision (ask_before x y).
Proof. unfold ask_before. apply _. Defined.

Definition bids_in_order (m : gmap Price PriceLevel) : list (Price * PriceLevel) :=
  merge_sort bid_before (map_to_list m).

Definition asks_in_order (m : gmap Price PriceLevel) : list (Price * PriceLevel) :=
  merge_sort ask_before (map_to_list m).

(** The levels of one side of the book. *)
Definition side_levels (b : OrderBook) (side : Side) : gmap Price PriceLevel :=
  match side with BUY => m_bids b | SELL => m_asks b end.

Definition set_side_levels (b : OrderBook) (side : Side)
    (m : gmap Price PriceLevel) : OrderBook :=
  match side with
  | BUY => mkOrderBook m (m_asks b) (m_orderMap b)
  | SELL => mkOrderBook (m_bids b) m (m_orderMap b)
  end.

Definition set_orderMap (b : OrderBook) (store : gmap OrderId Order) : OrderBook :=
  mkOrderBook (m_bids b) (m_asks b) store.

(** [void OrderBook::addToBook(Order* order)]; [o] is [*order].  The two
    branches of the source differ only in the map they touch. *)
Definition addToBook (b : OrderBook) (order : OrderId) (o : Order) : OrderBook :=
  let price := m_price o in
  let levels := side_levels b (m_side o) in
  let level :=
    match levels !! price with
    | None => mkPriceLevel price 0 []
    | Some lvl => lvl
    end in
  set_side_levels b (m_side o)
    (<[price := PriceLevel_addOrder level order o]> levels).

(** [void OrderBook::removeFromBook(Order* order)]; [o] is [*order]. *)
Definition removeFromBook (b : OrderBook) (order : OrderId) (o : Order) : OrderBook :=
  let price := m_price o in
  let levels := side_levels b (m_side o) in
  match levels !! price with
  | None => b
  | Some lvl =>
      let lvl' := PriceLevel_removeOrder lvl order o in
      set_side_levels b (m_side o)
        (if isEmpty lvl' then delete price levels else <[price := lvl']> levels)
  end.

(** [bool OrderBook::addOrder(const Order& order)] *)
Definition addOrder (b : OrderBook) (order : Order) : bool * OrderBook :=
  match m_orderMap b !! m_id order with
  | Some _ => (false, b)
  | None =>
      let newOrder := m_id order in
      let b1 := set_orderMap b (<[newOrder := order]> (m_orderMap b)) in
      (true, addToBook b1 newOrder order)
  end.

(** [bool OrderBook::cancelOrder(OrderId orderId)] *)
Definition cancelOrder (b : OrderBook) (orderId : OrderId) : bool * OrderBook :=
  match m_orderMap b !! orderId with
  | None => (false, b)
  | Some o =>
      if negb (isActive o) then (false, b)
      else
        let b1 := removeFromBook b orderId o in
        (true, set_orderMap b1 (<[orderId := cancel o]> (m_orderMap b1)))
  end.

(** [bool OrderBook::modifyOrderPrice(OrderId orderId, Price newPrice)] *)
Definition modifyOrderPrice (b : OrderBook) (orderId : OrderId) (newPrice : Price)
    : bool * OrderBook :=
  match m_orderMap b !! orderId with
  | None => (false, b)
  | Some o =>
      if negb (isActive o) then (false, b)
      else
        let b1 := removeFromBook b orderId o in
        let '(ok, o') := modifyPrice o newPrice in
        let b2 := set_orderMap b1 (<[orderId := o']> (m_orderMap b1)) in
        if negb ok then (false, addToBook b2 orderId o')
        else (true, addToBook b2 orderId o')
  end.

(** [if (m.count(price)) m[price].totalQuantity += diff;] *)
Definition add_to_total (m : gmap Price PriceLevel) (p : Price) (diff : Quantity)
    : gmap Price PriceLevel :=
  match m !! p with
  | None => m
  | Some lvl =>
      <[p := mkPriceLevel (price lvl) (wrap32 (totalQuantity lvl + diff))
                          (orders lvl)]> m
  end.

(** [bool OrderBook::modifyOrderQuantity(OrderId orderId, Quantity newQuantity)] *)
Definition modifyOrderQuantity (b : OrderBook) (orderId : OrderId)
    (newQuantity : Quantity) : bool * OrderBook :=
  match m_orderMap b !! orderId with
  | None => (false, b)
  | Some o =>
      if negb (isActive o) then (false, b)
      else
        let oldRemaining := getRemainingQty o in
        let '(ok, o') := modifyQuantity o newQuantity in
        if negb ok then (false, b)
        else
          let newRemaining := getRemainingQty o' in
          let diff := wrap32 (newRemaining - oldRemaining) in
          let b1 := set_orderMap b (<[orderId := o']> (m_orderMap b)) in
          (true, set_side_levels b1 (m_side o')
                   (add_to_total (side_levels b1 (m_side o')) (m_price o') diff))
  end.

Definition getOrder (b : OrderBook) (orderId : OrderId) : option Order :=
  m_orderMap b !! orderId.

Definition getBestBid (b : OrderBook) : option Price :=
  fst <$> head (bids_in_order (m_bids b)).

Definition getBestAsk (b : OrderBook) : option Price :=
  fst <$> head (asks_in_order (m_asks b)).

Definition getQuantityAtPrice (b : OrderBook) (side : Side) (p : Price) : Quantity :=
  match side_levels b side !! p with
  | Some lvl => totalQuantity lvl
  | None => 0
  end.

(** The [while] loop of [fillQuantityAtPrice] over the level's FIFO
    [orders], its cached [total], the running [filled] and the order store.
    One unit of [fuel] is spent per iteration; [None] is a run that exceeds
    the fuel or dereferences a pointer that is not in the store.  A front
    order with nothing remaining is popped, erased from the index under
    [order->getId()] and freed; in a well-formed book that id is the key the
    pointer stands for, so erasing the entry is also the [delete]. *)
Fixpoint fillLoop (fuel : nat) (quantity : Quantity) (orders : list OrderId)
    (total filled : Quantity) (store : gmap OrderId Order)
    : option (list OrderId * Quantity * Quantity * gmap OrderId Order) :=
  match orders with
  | [] => Some (orders, total, filled, store)
  | order :: rest =>
      if filled <? quantity then
        match fuel with
        | O => None
        | S fuel' =>
            match store !! order with
            | None => None
            | Some o =>
                let orderRemaining := getRemainingQty o in
                let toFill := Z.min orderRemaining (wrap32 (quantity - filled)) in
                let o' := (fill o toFill).2 in
                let total' := wrap32 (total - toFill) in
                let filled' := wrap32 (filled + toFill) in
                if getRemainingQty o' =? 0
                then fillLoop fuel' quantity rest total' filled'
                              (delete (m_id o') (<[order := o']> store))
                else fillLoop fuel' quantity orders total' filled'
                              (<[order := o']> store)
            end
        end
      else Some (orders, total, filled, store)
  end.

(** [Quantity OrderBook::fillQuantityAtPrice(Side side, Price price,
    Quantity quantity)].  The loop runs at most once per order of the
    level, which is the fuel it is given. *)
Definition fillQuantityAtPrice (b : OrderBook) (side : Side) (p : Price)
    (quantity : Quantity) : option (Quantity * OrderBook) :=
  let levels := side_levels b side in
  match levels !! p with
  | None => Some (0, b)
  | Some level =>
      match fillLoop (length (orders level)) quantity (orders level)
                     (totalQuantity level) 0 (m_orderMap b) with
      | None => None
      | Some (orders', total', filled, store') =>
          let level' := mkPriceLevel (price level) total' orders' in
          let levels' :=
            if (total' =? 0) || isEmpty level'
            then delete p levels else <[p := level']> levels in
          Some (filled, set_orderMap (set_side_levels b side levels') store')
      end
  end.

Definition level_snapshot (e : Price * PriceLevel) : Price * Quantity :=
  (e.1, totalQuantity e.2).

(** [std::vector<std::pair<Price, Quantity>>::max_size()]: the largest [n]
    that [reserve(n)] accepts.  With the 64-bit [size_t] and [ptrdiff_t]
    the model takes throughout and the 16-byte pair of a [double] and a
    [uint32_t], libstdc++ has [PTRDIFF_MAX / sizeof(value_type)]. *)
Definition vector_max_size : Z := (2 ^ 63 - 1) `div` 16.

(** The loop of [getTopBids] / [getTopAsks] over the levels of a side in
    iteration order: it stops at [count >= n], so it keeps the first [n]
    levels, each with its cached total. *)
Definition top_levels (n : nat) (levels : list (Price * PriceLevel))
    : list (Price * Quantity) :=
  take n (level_snapshot <$> levels).

(** [getTopBids(n)] / [getTopAsks(n)].  [result.reserve(n)] runs before any
    level is read and throws [std::length_error] when [n] is above
    [max_size()]: that is [None].  The allocation itself is taken to
    succeed, as every [new] of the model is. *)
Definition getTopBids (b : OrderBook) (n : nat) : option (list (Price * Quantity)) :=
  if vector_max_size <? Z.of_nat n then None
  else Some (top_levels n (bids_in_order (m_bids b))).

Definition getTopAsks (b : OrderBook) (n : nat) : option (list (Price * Quantity)) :=
  if vector_max_size <? Z.of_nat n then None
  else Some (top_levels n (asks_in_order (m_asks b))).

Definition getBidLevelCount (b : OrderBook) : nat := size (m_bids b).
Definition getAskLevelCount (b : OrderBook) : nat := size (m_asks b).
Definition getTotalOrderCount (b : OrderBook) : nat := size (m_orderMap b).

(** ** MatchingEngine.h / MatchingEngine.cpp *)

Record Trade := mkTrade {
  buyOrderId : OrderId;
  sellOrderId : OrderId;
  Trade_price : Price;
  Trade_quantity : Quantity
}.

Record MatchingEngine := mkEngine {
  m_orderBook : OrderBook;
  m_tradeCount : Z;
  m_totalVolume : Quantity
}.

(** The variables a matching loop updates: the engine (book and
    statistics), the incoming order and the trades emitted so far. *)
Record MatchState := mkMatchState {
  ms_engine : MatchingEngine;
  ms_order : Order;
  ms_trades : list Trade
}.

(** What one pass through a loop body does to the loop: [Break] leaves it,
    [Next] goes on to the following level ([continue] or the end of the
    body). *)
Inductive Step :=
  | Break
  | Next (s : MatchState).

Definition with_book (e : MatchingEngine) (b : OrderBook) : MatchingEngine :=
  mkEngine b (m_tradeCount e) (m_totalVolume e).

(** The statements after [if (actualFilled == 0) continue;], common to both
    loops up to the side the ids of the trade are written to. *)
Definition record_fill (s : MatchState) (b : OrderBook) (trade : Trade)
    (actualFilled : Quantity) : MatchState :=
  mkMatchState
    (mkEngine b (wrap64 (m_tradeCount (ms_engine s) + 1))
              (wrap32 (m_totalVolume (ms_engine s) + actualFilled)))
    (fill (ms_order s) actualFilled).2
    (ms_trades s ++ [trade]).

(** Body of the [for] loop of [matchBuyOrder]. *)
Definition matchBuyStep (s : MatchState) (ask : Price * Quantity) : option Step :=
  let '(askPrice, askQty) := ask in
  let order := ms_order s in
  if getRemainingQty order =? 0 then Some Break
  else if bool_decide (m_type order = LIMIT) && (askPrice >? m_price order)
  then Some Break
  else
    let matchQty := Z.min (getRemainingQty order) askQty in
    match fillQuantityAtPrice (m_orderBook (ms_engine s)) SELL askPrice matchQty with
    | None => None
    | Some (actualFilled, b') =>
        if actualFilled =? 0
        then Some (Next (mkMatchState (with_book (ms_engine s) b') order
                                      (ms_trades s)))
        else
          Some (Next (record_fill s b'
                        (mkTrade (m_id order) 0 askPrice actualFilled)
                        actualFilled))
    end.

(** Body of the [for] loop of [matchSellOrder]. *)
Definition matchSellStep (s : MatchState) (bid : Price * Quantity) : option Step :=
  let '(bidPrice, bidQty) := bid in
  let order := ms_order s in
  if getRemainingQty order =? 0 then Some Break
  else if bool_decide (m_type order = LIMIT) && (bidPrice <? m_price order)
  then Some Break
  else
    let matchQty := Z.min (getRemainingQty order) bidQty in
    match fillQuantityAtPrice (m_orderBook (ms_engine s)) BUY bidPrice matchQty with
    | None => None
    | Some (actualFilled, b') =>
        if actualFilled =? 0
        then Some (Next (mkMatchState (with_book (ms_engine s) b') order
                                      (ms_trades s)))
        else
          Some (Next (record_fill s b'
                        (mkTrade 0 (m_id order) bidPrice actualFilled)
                        actualFilled))
    end.

(** [for (const auto& [price, qty] : levels) body] over the snapshot. *)
Fixpoint matchLoop (step : MatchState → Price * Quantity → option Step)
    (levels : list (Price * Quantity)) (s : MatchState) : option MatchState :=
  match levels with
  | [] => Some s
  | level :: rest =>
      match step s level with
      | None => None
      | Some Break => Some s
      | Some (Next s') => matchLoop step rest s'
      end
  end.

(** [std::vector<Trade> MatchingEngine::matchBuyOrder(Order& order)] *)
Definition matchBuyOrder (e : MatchingEngine) (order : Order) : option MatchState :=
  asks ← getTopAsks (m_orderBook e) 100;
  matchLoop matchBuyStep asks (mkMatchState e order []).

(** [std::vector<Trade> MatchingEngine::matchSellOrder(Order& order)] *)
Definition matchSellOrder (e : MatchingEngine) (order : Order) : option MatchState :=
  bids ← getTopBids (m_orderBook e) 100;
  matchLoop matchSellStep bids (mkMatchState e order []).

(** The matching phase of [processOrder]. *)
Definition matchOrder (e : MatchingEngine) (order : Order) : option MatchState :=
  match m_side order with
  | BUY => matchBuyOrder e order
  | SELL => matchSellOrder e order
  end.

(** [std::vector<Trade> MatchingEngine::processOrder(Order& order)]: the
    state holds the returned trades, the caller's order after the call and
    the engine. *)
Definition processOrder (e : MatchingEngine) (order : Order) : option MatchState :=
  match matchOrder e order with
  | None => None
  | Some s =>
      let order' := ms_order s in
      if (getRemainingQty order' >? 0) && bool_decide (m_type order' = LIMIT)
      then Some (mkMatchState
                   (with_book (ms_engine s)
                      (addOrder (m_orderBook (ms_engine s)) order').2)
                   order' (ms_trades s))
      else Some s
  end.

(** [bool MatchingEngine::cancelOrder(OrderId orderId)] *)
Definition MatchingEngine_cancelOrder (e : MatchingEngine) (orderId : OrderId)
    : bool * MatchingEngine :=
  let '(ok, b') := cancelOrder (m_orderBook e) orderId in
  (ok, with_book e b').

(** ** OrderQueue.h / OrderQueue.cpp

    Every operation runs under the queue's mutex (the flag is an atomic),
    so an operation is one atomic step on the pair of the queue and the
    flag.  A call that would wait on the condition variable with the
    predicate false is [Blocked]: it returns nothing until another call
    changes the state. *)

Record OrderQueue := mkOrderQueue {
  m_queue : list Order;
  m_shutdown : bool
}.

Inductive Blocking (A : Type) :=
  | Blocked
  | Returned (a : A).
Arguments Blocked {A}.
Arguments Returned {A} a.

Definition OrderQueue_new : OrderQueue := mkOrderQueue [] false.

Definition push (q : OrderQueue) (order : Order) : OrderQueue :=
  mkOrderQueue (m_queue q ++ [order]) (m_shutdown q).

Definition OrderQueue_empty (q : OrderQueue) : bool :=
  match m_queue q with [] => true | _ => false end.

Definition OrderQueue_size (q : OrderQueue) : nat := length (m_queue q).

(** The predicate both waits test: [!m_queue.empty() || m_shutdown.load()]. *)
Definition wake_condition (q : OrderQueue) : bool :=
  negb (OrderQueue_empty q) || m_shutdown q.

(** [m_queue.front()] followed by [m_queue.pop()], on a non-empty queue. *)
Definition take_front (q : OrderQueue) : option Order * OrderQueue :=
  match m_queue q with
  | [] => (None, q)
  | order :: rest => (Some order, mkOrderQueue rest (m_shutdown q))
  end.

(** [std::optional<Order> OrderQueue::pop()] *)
Definition pop (q : OrderQueue) : Blocking (option Order * OrderQueue) :=
  if negb (wake_condition q) then Blocked
  else if m_shutdown q && OrderQueue_empty q then Returned (None, q)
  else Returned (take_front q).

(** [std::optional<Order> OrderQueue::tryPop()] *)
Definition tryPop (q : OrderQueue) : option Order * OrderQueue :=
  if OrderQueue_empty q then (None, q) else take_front q.

(** [std::optional<Order> OrderQueue::popWithTimeout(int timeoutMs)]:
    [wait_for] returns the value of the predicate, at once when it holds
    and after the timeout otherwise. *)
Definition popWithTimeout (q : OrderQueue) (timeoutMs : Z)
    : option Order * OrderQueue :=
  let gotItem := wake_condition q in
  if negb gotItem || (m_shutdown q && OrderQueue_empty q) then (None, q)
  else take_front q.

Definition OrderQueue_clear (q : OrderQueue) : OrderQueue :=
  mkOrderQueue [] (m_shutdown q).

Definition shutdown (q : OrderQueue) : OrderQueue :=
  mkOrderQueue (m_queue q) true.

Definition isShutdown (q : OrderQueue) : bool := m_shutdown q.

(** The calls a client can make on a queue, and their effect on it. *)
Inductive QueueOp :=
  | QPush (order : Order)
  | QPop
  | QTryPop
  | QPopWithTimeout (timeoutMs : Z)
  | QClear
  | QShutdown.

Definition queue_step (q : OrderQueue) (op : QueueOp) : OrderQueue :=
  match op with
  | QPush order => push q order
  | QPop => match pop q with Blocked => q | Returned r => r.2 end
  | QTryPop => (tryPop q).2
  | QPopWithTimeout ms => (popWithTimeout q ms).2
  | QClear => OrderQueue_clear q
  | QShutdown => shutdown q
  end.

(** [n] successive calls of [pop], stopping at the first that blocks or
    returns nothing: the orders handed out, and the queue left. *)
Fixpoint drain (n : nat) (q : OrderQueue) : list Order * OrderQueue :=
  match n with
  | O => ([], q)
  | S n' =>
      match pop q with
      | Returned (Some order, q') =>
          let '(l, q'') := drain n' q' in (order :: l, q'')
      | _ => ([], q)
      end
  end.

(** ** Well-formed books

    The representation invariant the operations of [OrderBook] maintain
    ([reachable_inv] below: it holds of every book they build). *)

(** [order] points to a live order that is registered under its own id,
    is within its ranges, and belongs to the level ([side], [p]). *)
Definition member_at (store : gmap OrderId Order) (side : Side) (p : Price)
    (order : OrderId) : Prop :=
  match store !! order with
  | Some o => m_id o = order ∧ order_ok o ∧ m_side o = side ∧ m_price o = p
  | None => False
  end.

(** A level of the book is not empty (an empty level is erased at once),
    its cached total is a [uint32_t], and its FIFO holds distinct live
    orders of its side and price. *)
Definition level_ok (store : gmap OrderId Order) (side : Side) (p : Price)
    (lvl : PriceLevel) : Prop :=
  orders lvl ≠ [] ∧ is_u32 (totalQuantity lvl) ∧ NoDup (orders lvl) ∧
  Forall (member_at store side p) (orders lvl).

(** Every level of both sides is as [level_ok] says, under the key of its
    price. *)
Definition wf_book (b : OrderBook) : Prop :=
  map_Forall (level_ok (m_orderMap b) BUY) (m_bids b) ∧
  map_Forall (level_ok (m_orderMap b) SELL) (m_asks b).

#[global] Instance order_ok_dec o : Decision (order_ok o).
Proof. unfold order_ok. apply _. Defined.
#[global] Instance is_u32_dec z : Decision (is_u32 z).
Proof. unfold is_u32. apply _. Defined.
#[global] Instance member_at_dec store side p order :
  Decision (member_at store side p order).
Proof. unfold member_at. destruct (store !! order); apply _. Defined.
#[global] Instance level_ok_dec store side p lvl :
  Decision (level_ok store side p lvl).
Proof. unfold level_ok. apply _. Defined.
#[global] Instance wf_book_dec b : Decision (wf_book b).
Proof. unfold wf_book. apply _. Defined.

(** Sum of the remaining quantities of the orders of a FIFO. *)
Definition level_remaining (store : gmap OrderId Order) (l : list OrderId) : Z :=
  foldr (λ order acc,
           match store !! order with
           | Some o => getRemainingQty o + acc
           | None => acc
           end) 0 l.

(** The first order [kept] in a FIFO has been filled by [d] between the
    stores [store] and [store']: not at all, or in part. *)
Definition head_filled (store store' : gmap OrderId Order) (kept : list OrderId)
    (d : Z) : Prop :=
  ∀ order o, head kept = Some order → store !! order = Some o →
    store' !! order = Some (if d =? 0 then o else (fill o d).2) ∧
    (d = 0 ∨ 0 < d < getRemainingQty o).

(** [order] sits in the FIFO of the level ([side], [p]). *)
Definition in_level (b : OrderBook) (side : Side) (p : Price) (order : OrderId)
    : Prop :=
  match side_levels b side !! p with
  | Some lvl => order ∈ orders lvl
  | None => False
  end.

(** [order] sits once in the FIFO of the level ([side], [p]) and in no
    other level of the book. *)
Definition only_in_level (b : OrderBook) (side : Side) (p : Price)
    (order : OrderId) : Prop :=
  (∃ lvl, side_levels b side !! p = Some lvl ∧
          length (filter (λ x, x = order) (orders lvl)) = 1%nat) ∧
  ∀ side' p', in_level b side' p' order → side' = side ∧ p' = p.

(** Sides of the book an incoming order is matched against, and the
    comparison of prices from the point of view of the incoming order. *)
Definition opposite (side : Side) : Side :=
  match side with BUY => SELL | SELL => BUY end.

(** [p1] is matched before [p2] by an incoming order of side [side]. *)
Definition better_for (side : Side) (p1 p2 : Price) : Prop :=
  match side with BUY => p1 < p2 | SELL => p2 < p1 end.

(** [p] is not acceptable to an incoming order of side [side] and limit
    [limit]. *)
Definition beyond_limit (side : Side) (limit p : Price) : Prop :=
  match side with BUY => limit < p | SELL => p < limit end.

Definition matchStep (side : Side) : MatchState → Price * Quantity → option Step :=
  match side with BUY => matchBuyStep | SELL => matchSellStep end.

(** All the levels of the side an incoming order of side [side] is matched
    against, in iteration order. *)
Definition opposing_in_order (b : OrderBook) (side : Side)
    : list (Price * PriceLevel) :=
  match side with
  | BUY => asks_in_order (m_asks b)
  | SELL => bids_in_order (m_bids b)
  end.

(** The snapshot [matchBuyOrder] / [matchSellOrder] iterates over: what
    [getTopAsks(100)] / [getTopBids(100)] returns. *)
Definition snapshot_for (b : OrderBook) (side : Side) : list (Price * Quantity) :=
  top_levels 100 (opposing_in_order b side).

(** The levels of [side] after a fill of the level at [p] that keeps
    [kept] and brings the cached total to [total']: the tail of
    [fillQuantityAtPrice]. *)
Definition levels_after_fill (b : OrderBook) (side : Side) (p : Price)
    (lvl : PriceLevel) (total' : Quantity) (kept : list OrderId)
    : gmap Price PriceLevel :=
  let level' := mkPriceLevel (price lvl) total' kept in
  if (total' =? 0) || isEmpty level'
  then delete p (side_levels b side)
  else <[p := level']> (side_levels b side).

#[global] Instance beyond_limit_dec side limit p :
  Decision (beyond_limit side limit p).
Proof. unfold beyond_limit. destruct side; apply _. Defined.

(** The book a matching loop works on. *)
Definition book_of (s : MatchState) : OrderBook := m_orderBook (ms_engine s).

(** Matching fills an order and leaves the rest of it alone. *)
Definition same_identity (o o' : Order) : Prop :=
  m_id o' = m_id o ∧ m_side o' = m_side o ∧ m_type o' = m_type o ∧
  m_price o' = m_price o.

(** Every order of the id index is registered under its own id and is
    within its ranges. *)
Definition store_ok (b : OrderBook) : Prop :=
  map_Forall (λ id o, m_id o = id ∧ order_ok o) (m_orderMap b).

(** The books that the public operations build from the empty book, on
    arguments that are values of their C++ types. *)
Inductive reachable : OrderBook → Prop :=
  | reach_empty : reachable empty_book
  | reach_clear b : reachable b → reachable (OrderBook_clear b)
  | reach_addOrder b order :
      reachable b → order_ok order → reachable (addOrder b order).2
  | reach_cancelOrder b orderId :
      reachable b → reachable (cancelOrder b orderId).2
  | reach_modifyOrderPrice b orderId newPrice :
      reachable b → reachable (modifyOrderPrice b orderId newPrice).2
  | reach_modifyOrderQuantity b orderId newQuantity :
      reachable b → is_u32 newQuantity →
      reachable (modifyOrderQuantity b orderId newQuantity).2
  | reach_fillQuantityAtPrice b side p quantity filled b' :
      reachable b → is_u32 quantity →
      fillQuantityAtPrice b side p quantity = Some (filled, b') →
      reachable b'
  | reach_processOrder e order s :
      reachable (m_orderBook e) → order_ok order →
      processOrder e order = Some s →
      reachable (m_orderBook (ms_engine s)).

(** ** Example books

    Books built through [addOrder] and [fillQuantityAtPrice], on which the
    theorems below are instantiated. *)

Definition book_add (b : OrderBook) (order : Order) : OrderBook :=
  (addOrder b order).2.

Definition book_three_bids : OrderBook :=
  book_add (book_add (book_add empty_book (Order_new 1 BUY LIMIT 100 50))
                     (Order_new 2 BUY LIMIT 100 50))
           (Order_new 3 BUY LIMIT 100 50).

Definition book_two_asks : OrderBook :=
  book_add (book_add (book_add empty_book (Order_new 1 SELL LIMIT 1005 10))
                     (Order_new 2 SELL LIMIT 1000 5))
           (Order_new 3 BUY LIMIT 990 7).

(** [book_three_bids] after a fill of 20 at 100: order 1 is PARTIAL at the
    front of the level, orders 2 and 3 behind it. *)
Definition book_partial_front : OrderBook :=
  from_option snd empty_book (fillQuantityAtPrice book_three_bids BUY 100 20).

(** The cached total of a level is the sum of what remains of its orders,
    as a [uint32_t]. *)
Definition total_ok (store : gmap OrderId Order) (lvl : PriceLevel) : Prop :=
  totalQuantity lvl = wrap32 (level_remaining store (orders lvl)).

Definition totals_ok (b : OrderBook) : Prop :=
  map_Forall (λ _ lvl, total_ok (m_orderMap b) lvl) (m_bids b) ∧
  map_Forall (λ _ lvl, total_ok (m_orderMap b) lvl) (m_asks b).

#[global] Instance total_ok_dec store lvl : Decision (total_ok store lvl).
Proof. unfold total_ok. apply _. Defined.
#[global] Instance totals_ok_dec b : Decision (totals_ok b).
Proof. unfold totals_ok. apply _. Defined.

(** A book in which an active order is in no level: bids of 5 (id 1) and
    of 0 (id 2) at 100; a fill of 5 at 100 takes order 1 and, the cached
    total being 0, erases the level with order 2 still in it; then a bid of
    7 (id 3) at 100 opens the level again. *)
Definition book_stray_order : OrderBook :=
  book_add
    (from_option snd empty_book
       (fillQuantityAtPrice
          (book_add (book_add empty_book (Order_new 1 BUY LIMIT 100 5))
                    (Order_new 2 BUY LIMIT 100 0))
          BUY 100 5))
    (Order_new 3 BUY LIMIT 100 7).

(** Sum of the quantities of a list of trades. *)
Definition trades_volume (ts : list Trade) : Z :=
  foldr (λ t acc, Trade_quantity t + acc) 0 ts.

(** The ids of a trade of an incoming order: its own id on its side, 0 on
    the other. *)
Definition trade_of (side : Side) (id : OrderId) (t : Trade) : Prop :=
  match side with
  | BUY => buyOrderId t = id ∧ sellOrderId t = 0
  | SELL => buyOrderId t = 0 ∧ sellOrderId t = id
  end.

Definition is_u64 (z : Z) : Prop := 0 <= z < 2 ^ 64.

(** The FIFO of the level ([side], [p]): its orders, oldest first; none
    when the book has no level there. *)
Definition level_fifo (b : OrderBook) (side : Side) (p : Price) : list OrderId :=
  match side_levels b side !! p with
  | Some lvl => orders lvl
  | None => []
  end.

(** A FIFO without the order [id]: the other orders, in their order. *)
Definition others_in (id : OrderId) (l : list OrderId) : list OrderId :=
  filter (λ x, x ≠ id) l.

(** * Properties *)

(** ** Arithmetic of [uint32_t] *)

Lemma wrap32_id z : is_u32 z → wrap32 z = z.
Proof. unfold is_u32, wrap32. intros. apply Z.mod_small. lia. Qed.

Lemma wrap32_range z : is_u32 (wrap32 z).
Proof. unfold is_u32, wrap32. apply Z.mod_pos_bound. lia. Qed.

Lemma remaining_exact o :
  order_ok o → getRemainingQty o = m_quantity o - m_filledQty o.
Proof.
  intros [? ?]. unfold getRemainingQty. apply wrap32_id. unfold is_u32. lia.
Qed.

Lemma remaining_range o : is_u32 (getRemainingQty o).
Proof. apply wrap32_range. Qed.

(** ** Order *)

Section order_ops.
Implicit Types (o : Order) (qty : Quantity).

Lemma fill_fail_unchanged o qty : (fill o qty).1 = false → (fill o qty).2 = o.
Proof. unfold fill. destruct (qty >? getRemainingQty o); simpl; congruence. Qed.

Lemma modifyPrice_fail_unchanged o p :
  (modifyPrice o p).1 = false → (modifyPrice o p).2 = o.
Proof.
  unfold modifyPrice.
  destruct (negb (bool_decide (m_type o = LIMIT)) || (m_filledQty o >? 0));
    simpl; congruence.
Qed.

Lemma modifyQuantity_fail_unchanged o q :
  (modifyQuantity o q).1 = false → (modifyQuantity o q).2 = o.
Proof.
  unfold modifyQuantity. destruct (q <? m_filledQty o); simpl; congruence.
Qed.

Lemma terminal_not_active o : is_terminal o → isActive o = false.
Proof. unfold is_terminal, isActive. intros [-> | ->]; reflexivity. Qed.

Lemma cancel_terminal o : is_terminal o → cancel o = o.
Proof. intros H. unfold cancel. by rewrite (terminal_not_active o H). Qed.

(** What a successful [fill] does, on an order within its ranges. *)
Lemma fill_ok_spec o qty :
  order_ok o → 0 <= qty <= getRemainingQty o →
  fill o qty =
    (true, mkOrder (m_id o) (m_side o) (m_type o) (m_price o) (m_quantity o)
                   (m_filledQty o + qty)
                   (if m_filledQty o + qty =? m_quantity o then FILLED
                    else if m_filledQty o + qty >? 0 then PARTIAL
                    else m_status o)).
Proof.
  intros Hok Hq. pose proof (remaining_exact o Hok) as Hr.
  destruct Hok as [? ?]. unfold fill.
  destruct (Z.gtb_spec qty (getRemainingQty o)); [lia|].
  rewrite wrap32_id by (unfold is_u32; lia). reflexivity.
Qed.

Lemma fill_order_ok o qty : order_ok o → is_u32 qty → order_ok (fill o qty).2.
Proof.
  intros Hok Hq. unfold fill.
  destruct (Z.gtb_spec qty (getRemainingQty o)) as [|Hle]; [done|].
  rewrite (remaining_exact o Hok) in Hle. destruct Hok as [? ?].
  unfold is_u32 in Hq. unfold order_ok. simpl.
  rewrite wrap32_id by (unfold is_u32; lia). lia.
Qed.

Lemma apply_op_order_ok o op :
  order_ok o → op_in_range op → order_ok (apply_op o op).
Proof.
  intros Hok Hop. destruct op as [qty| |p|q]; simpl in *.
  - by apply fill_order_ok.
  - unfold cancel. by destruct (isActive o).
  - unfold modifyPrice.
    by destruct (negb (bool_decide (m_type o = LIMIT)) || (m_filledQty o >? 0)).
  - unfold modifyQuantity. destruct (Z.ltb_spec q (m_filledQty o)); [done|].
    destruct Hok as [? ?]. unfold is_u32 in Hop. unfold order_ok. simpl. lia.
Qed.

Lemma apply_op_full_is_filled o op :
  order_ok o → op_in_range op → full_is_filled o → full_is_filled (apply_op o op).
Proof.
  intros Hok Hop Hinv. unfold full_is_filled in *.
  destruct op as [qty| |p|q]; simpl in *.
  - unfold fill. destruct (Z.gtb_spec qty (getRemainingQty o)); [done|].
    simpl. intros Heq. by rewrite Heq, Z.eqb_refl.
  - unfold cancel, isActive.
    destruct (m_status o) eqn:Hst; simpl; try done;
      intros Heq; specialize (Hinv Heq); congruence.
  - unfold modifyPrice.
    by destruct (negb (bool_decide (m_type o = LIMIT)) || (m_filledQty o >? 0)).
  - unfold modifyQuantity. destruct (Z.ltb_spec q (m_filledQty o)); [done|].
    simpl. intros Heq. by rewrite Heq, Z.eqb_refl.
Qed.

Lemma apply_op_filled_is_full o op :
  order_ok o → op_in_range op →
  match op with OpModifyQuantity _ => negb (isFilled o) | _ => true end = true →
  filled_is_full o → filled_is_full (apply_op o op).
Proof.
  intros Hok Hop Hguard Hinv. unfold filled_is_full in *.
  destruct op as [qty| |p|q]; simpl in *.
  - unfold fill. destruct (Z.gtb_spec qty (getRemainingQty o)) as [|Hle]; [done|].
    rewrite (remaining_exact o Hok) in Hle. destruct Hok as [? ?].
    unfold is_u32 in Hop. simpl.
    rewrite wrap32_id by (unfold is_u32; lia).
    destruct (Z.eqb_spec (m_filledQty o + qty) (m_quantity o)); [done|].
    destruct (m_filledQty o + qty >? 0); [done|].
    intros Hst. specialize (Hinv Hst). lia.
  - unfold cancel, isActive. destruct (m_status o) eqn:Hst; simpl; try done;
      rewrite ?Hst; done.
  - unfold modifyPrice.
    by destruct (negb (bool_decide (m_type o = LIMIT)) || (m_filledQty o >? 0)).
  - unfold modifyQuantity. destruct (Z.ltb_spec q (m_filledQty o)); [done|].
    simpl. destruct (Z.eqb_spec (m_filledQty o) q); [done|].
    intros Hst. unfold isFilled in Hguard.
    rewrite bool_decide_eq_true_2 in Hguard by done. done.
Qed.

Lemma run_ops_invariants ops : ∀ o,
  order_ok o → Forall op_in_range ops →
  order_ok (run_ops o ops) ∧
  (full_is_filled o → full_is_filled (run_ops o ops)) ∧
  (no_requantify_filled o ops = true → filled_is_full o →
   filled_is_full (run_ops o ops)).
Proof.
  induction ops as [|op ops IH]; intros o Hok Hall; [done|].
  apply Forall_cons in Hall as [Hop Hall].
  destruct (IH (apply_op o op) (apply_op_order_ok o op Hok Hop) Hall)
    as (IH1 & IH2 & IH3).
  simpl. split_and!; [done| |].
  - intros. by apply IH2, apply_op_full_is_filled.
  - intros [Hg Hrest]%andb_true_iff Hfull.
    by apply IH3, apply_op_filled_is_full.
Qed.
End order_ops.

(** The guards of the book: an id whose order is not active is refused by
    [cancelOrder], [modifyOrderPrice] and [modifyOrderQuantity], and the
    book stays as it is. *)
Lemma book_refuses_inactive b id o :
  m_orderMap b !! id = Some o → isActive o = false →
  cancelOrder b id = (false, b) ∧
  (∀ p, modifyOrderPrice b id p = (false, b)) ∧
  (∀ q, modifyOrderQuantity b id q = (false, b)).
Proof.
  intros Hget Hact.
  unfold cancelOrder, modifyOrderPrice, modifyOrderQuantity.
  rewrite Hget, Hact. done.
Qed.

(** C3, as the code has it.  On an order that is FILLED or CANCELLED,
    [cancel] changes nothing, and each of [fill], [modifyPrice] and
    [modifyQuantity] changes nothing when it reports failure; the methods of
    [Order] do not look at the status, the book does: for the id of a
    terminal order [cancelOrder], [modifyOrderPrice] and
    [modifyOrderQuantity] return false and leave the book unchanged. *)
Theorem terminal_order_guarded (o : Order) :
  is_terminal o →
  cancel o = o ∧
  (∀ qty, (fill o qty).1 = false → (fill o qty).2 = o) ∧
  (∀ p, (modifyPrice o p).1 = false → (modifyPrice o p).2 = o) ∧
  (∀ q, (modifyQuantity o q).1 = false → (modifyQuantity o q).2 = o) ∧
  (∀ b id, m_orderMap b !! id = Some o →
     cancelOrder b id = (false, b) ∧
     (∀ p, modifyOrderPrice b id p = (false, b)) ∧
     (∀ q, modifyOrderQuantity b id q = (false, b))).
Proof.
  intros Hterm. split_and!.
  - by apply cancel_terminal.
  - intros; by apply fill_fail_unchanged.
  - intros; by apply modifyPrice_fail_unchanged.
  - intros; by apply modifyQuantity_fail_unchanged.
  - intros b id Hget. apply (book_refuses_inactive b id o Hget).
    by apply terminal_not_active.
Qed.

Lemma terminal_order_guarded_witness :
  let o := cancel (Order_new 1 BUY LIMIT 100 10) in
  is_terminal o ∧ cancel o = o ∧ (fill o 11).2 = o.
Proof.
  intros o.
  assert (Hterm : is_terminal o) by (right; reflexivity).
  destruct (terminal_order_guarded o Hterm) as (Hc & Hf & _).
  split_and!; [exact Hterm | exact Hc | apply Hf; reflexivity].
Defined.

(** C3 as stated fails: a successful [fill] revives a CANCELLED order. *)
Lemma terminal_order_fill_changes :
  let o := cancel (Order_new 1 BUY LIMIT 100 10) in
  m_status o = CANCELLED ∧
  fill o 5 = (true, mkOrder 1 BUY LIMIT 100 10 5 PARTIAL) ∧
  (fill o 5).2 ≠ o.
Proof. split_and!; [reflexivity | reflexivity | discriminate]. Qed.

(** C4, as the code has it.  Along every sequence of operations on a
    constructed order [0 <= filled <= quantity]; an order constructed with a
    positive quantity is FILLED whenever its fill equals its quantity; and
    a FILLED order has its fill equal to its quantity as long as
    [modifyQuantity] is not applied to an order that is already FILLED. *)
Theorem order_fill_invariant id side type p quantity (ops : list OrderOp) :
  is_u32 quantity → Forall op_in_range ops →
  let o0 := Order_new id side type p quantity in
  let o := run_ops o0 ops in
  0 <= m_filledQty o <= m_quantity o ∧
  (0 < quantity → m_filledQty o = m_quantity o → m_status o = FILLED) ∧
  (no_requantify_filled o0 ops = true →
   m_status o = FILLED → m_filledQty o = m_quantity o).
Proof.
  intros Hq Hops o0 o.
  assert (Hok : order_ok o0) by (unfold order_ok, is_u32 in *; simpl; lia).
  destruct (run_ops_invariants ops o0 Hok Hops) as ([? ?] & HJ & HK).
  subst o. split_and!; [lia | lia | |].
  - intros Hpos. apply HJ. unfold full_is_filled. simpl. lia.
  - intros Hg. apply HK; [done|]. unfold filled_is_full. simpl. done.
Qed.

Lemma order_fill_invariant_witness :
  let o := run_ops (Order_new 1 BUY LIMIT 100 100)
                   [OpFill 30; OpModifyQuantity 70; OpFill 40; OpCancel] in
  0 <= m_filledQty o <= m_quantity o ∧
  (m_filledQty o = m_quantity o → m_status o = FILLED) ∧
  (m_status o = FILLED → m_filledQty o = m_quantity o).
Proof.
  assert (Hq : is_u32 100) by (unfold is_u32; lia).
  assert (Hops : Forall op_in_range
                   [OpFill 30; OpModifyQuantity 70; OpFill 40; OpCancel])
    by (repeat constructor; unfold is_u32; simpl; lia).
  destruct (order_fill_invariant 1 BUY LIMIT 100 100 _ Hq Hops) as (H1 & H2 & H3).
  intros o. subst o.
  refine (conj H1 (conj (H2 _) (H3 _))); [lia | reflexivity].
Defined.

(** C4 as stated fails in both directions of the equivalence: an order
    constructed with quantity 0 is NEW with its fill equal to its quantity,
    and raising the quantity of a FILLED order leaves it FILLED. *)
Lemma filled_iff_full_fails :
  let o1 := Order_new 1 BUY LIMIT 100 0 in
  let o2 := run_ops (Order_new 1 BUY LIMIT 100 10) [OpFill 10; OpModifyQuantity 20] in
  ¬ (m_status o1 = FILLED ↔ m_filledQty o1 = m_quantity o1) ∧
  ¬ (m_status o2 = FILLED ↔ m_filledQty o2 = m_quantity o2).
Proof.
  split; intros [Hl Hr].
  - specialize (Hr eq_refl). discriminate.
  - specialize (Hl eq_refl). discriminate.
Qed.

(** ** OrderQueue *)

Section queue.
Implicit Types (q : OrderQueue) (l : list Order).

Lemma queue_step_keeps_shutdown q op :
  m_shutdown q = true → m_shutdown (queue_step q op) = true.
Proof.
  intros Hs. destruct op; simpl; try done.
  - unfold pop, wake_condition, take_front, OrderQueue_empty.
    rewrite Hs. destruct (m_queue q); simpl; done.
  - unfold tryPop, take_front, OrderQueue_empty. destruct (m_queue q); done.
  - unfold popWithTimeout, wake_condition, take_front, OrderQueue_empty.
    rewrite Hs. destruct (m_queue q); simpl; done.
Qed.

Lemma queue_steps_keep_shutdown ops : ∀ q,
  m_shutdown q = true → m_shutdown (foldl queue_step q ops) = true.
Proof.
  induction ops as [|op ops IH]; intros q Hs; [done|].
  simpl. by apply IH, queue_step_keeps_shutdown.
Qed.

Lemma pop_after_shutdown l :
  pop (mkOrderQueue l true) =
    Returned (head l, mkOrderQueue (tail l) true).
Proof. by destruct l. Qed.

Lemma popWithTimeout_after_shutdown l ms :
  popWithTimeout (mkOrderQueue l true) ms = (head l, mkOrderQueue (tail l) true).
Proof. by destruct l. Qed.

Lemma drain_after_shutdown l : ∀ n,
  (length l ≤ n)%nat →
  drain n (mkOrderQueue l true) = (l, mkOrderQueue [] true).
Proof.
  induction l as [|x l IH]; intros n Hn.
  - by destruct n.
  - destruct n as [|n]; [simpl in Hn; lia|].
    simpl in *. rewrite IH by lia. done.
Qed.
End queue.

(** C8.  [shutdown] twice leaves the queue as [shutdown] once does, and no
    later call clears the flag.  After [shutdown], [pop] does not block;
    [pop] and [popWithTimeout] return nothing exactly when the queue is
    empty, and otherwise hand out the oldest order: draining the queue
    yields the queued orders in the order they were queued. *)
Theorem shutdown_idempotent_fifo (q : OrderQueue) (ops : list QueueOp)
    (timeoutMs : Z) :
  let q1 := shutdown q in
  shutdown q1 = q1 ∧
  m_shutdown (foldl queue_step q1 ops) = true ∧
  pop q1 = Returned (head (m_queue q), mkOrderQueue (tail (m_queue q)) true) ∧
  popWithTimeout q1 timeoutMs =
    (head (m_queue q), mkOrderQueue (tail (m_queue q)) true) ∧
  (head (m_queue q) = None ↔ OrderQueue_empty q1 = true) ∧
  drain (length (m_queue q)) q1 = (m_queue q, mkOrderQueue [] true) ∧
  pop (drain (length (m_queue q)) q1).2 = Returned (None, mkOrderQueue [] true).
Proof.
  intros q1. subst q1. unfold shutdown. simpl. split_and!.
  - done.
  - by apply queue_steps_keep_shutdown.
  - apply pop_after_shutdown.
  - apply popWithTimeout_after_shutdown.
  - unfold OrderQueue_empty. simpl. by destruct (m_queue q).
  - by apply drain_after_shutdown.
  - by rewrite drain_after_shutdown.
Qed.

(** ** OrderBook: filling a price level *)

Section fill_level.
Implicit Types (store : gmap OrderId Order) (l : list OrderId).

Lemma level_remaining_nonneg store l : 0 <= level_remaining store l.
Proof.
  induction l as [|a l IH]; simpl; [lia|].
  destruct (store !! a) as [o|]; [|done].
  pose proof (remaining_range o) as Hr. unfold is_u32 in Hr. lia.
Qed.

Lemma level_remaining_frame store store' l :
  (∀ order, order ∈ l → store' !! order = store !! order) →
  level_remaining store' l = level_remaining store l.
Proof.
  induction l as [|a l IH]; intros Hsame; simpl; [done|].
  rewrite (Hsame a) by left. rewrite IH; [done|].
  intros order Hin. apply Hsame. by right.
Qed.

Lemma level_remaining_app store l1 l2 :
  level_remaining store (l1 ++ l2) =
    level_remaining store l1 + level_remaining store l2.
Proof.
  induction l1 as [|a l1 IH]; simpl; [done|].
  rewrite IH. destruct (store !! a); lia.
Qed.

Lemma wrap32_minus_l a b : wrap32 (wrap32 a - b) = wrap32 (a - b).
Proof. unfold wrap32. apply Zminus_mod_idemp_l. Qed.

Lemma member_at_lookup store side p order :
  member_at store side p order →
  ∃ o, store !! order = Some o ∧ m_id o = order ∧ order_ok o ∧
       m_side o = side ∧ m_price o = p.
Proof.
  unfold member_at. destruct (store !! order) as [o|]; [|done]. eauto.
Qed.

Lemma member_at_frame store store' side p order :
  store' !! order = store !! order →
  member_at store side p order → member_at store' side p order.
Proof. unfold member_at. by intros ->. Qed.

Lemma Forall_member_at_frame store store' side p l :
  (∀ order, order ∈ l → store' !! order = store !! order) →
  Forall (member_at store side p) l → Forall (member_at store' side p) l.
Proof.
  rewrite !Forall_forall. intros Hsame Hall order Hin.
  eapply member_at_frame; [by apply Hsame | by apply Hall].
Qed.

Lemma fillLoop_spec side p qty : ∀ l fuel total filled store,
  NoDup l → Forall (member_at store side p) l →
  is_u32 qty → is_u32 total → 0 <= filled <= qty → (length l ≤ fuel)%nat →
  let filled' := Z.min qty (filled + level_remaining store l) in
  ∃ consumed kept store',
    fillLoop fuel qty l total filled store =
      Some (kept, wrap32 (total - (filled' - filled)), filled', store') ∧
    l = consumed ++ kept ∧
    (∀ order, order ∈ consumed → store' !! order = None) ∧
    (∀ order, order ∉ l → store' !! order = store !! order) ∧
    (∀ order, order ∈ tail kept → store' !! order = store !! order) ∧
    filled + level_remaining store consumed <= filled' ∧
    head_filled store store' kept
      (filled' - filled - level_remaining store consumed).
Proof.
  induction l as [|a l IH]; intros fuel total filled store Hnd Hall Hq Ht Hf Hfuel.
  { exists [], [], store. simpl.
    replace (Z.min qty (filled + 0)) with filled by lia.
    rewrite Z.sub_diag, Z.sub_0_r, wrap32_id by done.
    split_and!.
    - by destruct fuel.
    - done.
    - intros ? ?%elem_of_nil; done.
    - done.
    - done.
    - lia.
    - intros ?? [=]. }
  apply NoDup_cons in Hnd as [Hna Hnd].
  apply Forall_cons in Hall as [Ha Hall].
  destruct (member_at_lookup _ _ _ _ Ha) as (o & Hget & Hid & Hok & _ & _).
  pose proof (level_remaining_nonneg store l) as Hnn.
  pose proof (remaining_exact o Hok) as Hrem.
  pose proof (remaining_range o) as Hrr.
  unfold is_u32 in Hq, Hrr.
  simpl level_remaining. rewrite Hget.
  destruct (Z.ltb_spec filled qty) as [Hlt|Hge].
  2:{ (* the requested quantity is already filled *)
    exists [], (a :: l), store. simpl.
    replace (Z.min qty (filled + (getRemainingQty o + level_remaining store l)))
      with filled by lia.
    rewrite Z.sub_diag, Z.sub_0_r, wrap32_id by done.
    split_and!.
    - destruct fuel; simpl; destruct (Z.ltb_spec filled qty); done || lia.
    - done.
    - intros ? ?%elem_of_nil; done.
    - done.
    - done.
    - lia.
    - intros order o1 [= <-] Ho1. rewrite Z.sub_diag. simpl. split; [done|by left]. }
  destruct fuel as [|fuel]; [simpl in Hfuel; lia|].
  simpl in Hfuel.
  cbn [fillLoop]. destruct (Z.ltb_spec filled qty) as [_|?]; [|lia].
  rewrite Hget. rewrite (wrap32_id (qty - filled)) by (unfold is_u32; lia).
  set (toFill := Z.min (getRemainingQty o) (qty - filled)).
  assert (HtoFill : 0 <= toFill <= getRemainingQty o) by (subst toFill; lia).
  rewrite (fill_ok_spec o toFill Hok HtoFill). cbn [snd].
  set (o' := mkOrder _ _ _ _ _ _ _).
  assert (Hok' : order_ok o').
  { destruct Hok as [? ?]. unfold order_ok. subst o'. simpl. lia. }
  rewrite (remaining_exact o' Hok'). subst o'. cbn [m_quantity m_filledQty m_id].
  set (o' := mkOrder _ _ _ _ _ _ _) in *.
  rewrite (wrap32_id (filled + toFill)) by (unfold is_u32; lia).
  destruct (Z.eqb_spec (m_quantity o - (m_filledQty o + toFill)) 0) as [Hz|Hnz].
  - (* the front order is consumed *)
    assert (HtF : toFill = getRemainingQty o) by lia.
    rewrite Hid, delete_insert_eq.
    assert (Hframe : ∀ order, order ∈ l → delete a store !! order = store !! order).
    { intros order Hin. apply lookup_delete_ne. intros ->. done. }
    destruct (IH fuel (wrap32 (total - toFill)) (filled + toFill) (delete a store))
      as (consumed & kept & store' & Hrun & Hsplit & Hgone & Hout & Htail & Hsum & Hhd).
    { done. }
    { by apply (Forall_member_at_frame store). }
    { done. }
    { apply wrap32_range. }
    { lia. }
    { lia. }
    rewrite (level_remaining_frame store (delete a store) l Hframe) in Hrun, Hsum, Hhd.
    assert (Hsub : ∀ order, order ∈ consumed → order ∈ l).
    { intros order Hin. rewrite Hsplit. apply elem_of_app. by left. }
    assert (Hsubk : ∀ order, order ∈ kept → order ∈ l).
    { intros order Hin. rewrite Hsplit. apply elem_of_app. by right. }
    rewrite (level_remaining_frame store (delete a store) consumed) in Hsum, Hhd
      by (intros; apply Hframe; auto).
    exists (a :: consumed), kept, store'.
    simpl level_remaining. rewrite Hget.
    rewrite wrap32_minus_l in Hrun.
    split_and!.
    + rewrite Hrun. repeat (f_equal; try lia).
    + by rewrite Hsplit.
    + intros order [->|Hin]%elem_of_cons; [|by apply Hgone].
      rewrite Hout by done. apply lookup_delete_eq.
    + intros order [Hne Hnin]%not_elem_of_cons.
      rewrite Hout by done. by apply lookup_delete_ne.
    + intros order Hin. rewrite Htail by done. apply Hframe, Hsubk.
      destruct kept; [by apply elem_of_nil in Hin|]. by right.
    + lia.
    + intros order o1 Hhead Ho1.
      assert (Hin : order ∈ l).
      { apply Hsubk. destruct kept; [done|]. injection Hhead as ->. by left. }
      rewrite <- Hframe in Ho1 by done.
      destruct (Hhd order o1 Hhead Ho1) as [Hst Hd].
      match type of Hst with context [Z.eqb ?d 0] =>
        match goal with |- context [Z.eqb ?d' 0] =>
          replace d' with d by lia end end.
      done.
  - (* the front order is filled in part and stays *)
    assert (HtF : toFill = qty - filled) by lia.
    exists [], (a :: l), (<[a := o']> store).
    simpl level_remaining.
    replace (Z.min qty (filled + (getRemainingQty o + level_remaining store l)))
      with qty by lia.
    split_and!.
    + replace (filled + toFill) with qty by lia.
      destruct fuel; simpl; destruct (Z.ltb_spec qty qty); try lia;
        repeat (f_equal; try lia).
    + done.
    + intros ? ?%elem_of_nil; done.
    + intros order [Hne Hnin]%not_elem_of_cons. by apply lookup_insert_ne.
    + simpl. intros order Hin. apply lookup_insert_ne. intros ->. done.
    + lia.
    + intros order o1 [= <-] Ho1. rewrite Hget in Ho1. injection Ho1 as <-.
      rewrite Z.sub_0_r. destruct (Z.eqb_spec (qty - filled) 0); [lia|].
      rewrite lookup_insert_eq. split; [|right; lia].
      rewrite <- HtF. by rewrite (fill_ok_spec o toFill Hok HtoFill).
Qed.
End fill_level.

Section book_access.
Implicit Types (b : OrderBook) (side : Side) (m : gmap Price PriceLevel).

Lemma side_levels_set_same b side m :
  side_levels (set_side_levels b side m) side = m.
Proof. by destruct side. Qed.

Lemma side_levels_set_other b side side' m :
  side' ≠ side → side_levels (set_side_levels b side m) side' = side_levels b side'.
Proof. by destruct side, side'. Qed.

Lemma side_levels_set_orderMap b store side :
  side_levels (set_orderMap b store) side = side_levels b side.
Proof. by destruct side. Qed.

Lemma orderMap_set_side_levels b side m :
  m_orderMap (set_side_levels b side m) = m_orderMap b.
Proof. by destruct side. Qed.

Lemma set_side_levels_id b side : set_side_levels b side (side_levels b side) = b.
Proof. by destruct b, side. Qed.

Lemma wf_book_side b :
  wf_book b ↔ ∀ side, map_Forall (level_ok (m_orderMap b) side) (side_levels b side).
Proof.
  unfold wf_book. split.
  - intros [? ?] []; done.
  - intros H. split; [apply (H BUY) | apply (H SELL)].
Qed.

Lemma wf_book_level b side p lvl :
  wf_book b → side_levels b side !! p = Some lvl →
  level_ok (m_orderMap b) side p lvl.
Proof. intros Hwf Hl. by apply (proj1 (wf_book_side b) Hwf side p lvl). Qed.

(** In a well-formed book an order sits in one level at most. *)
Lemma wf_book_in_level_unique b side p side' p' order :
  wf_book b → in_level b side p order → in_level b side' p' order →
  side' = side ∧ p' = p.
Proof.
  intros Hwf. unfold in_level.
  destruct (side_levels b side !! p) as [lvl|] eqn:Hl; [|done].
  destruct (side_levels b side' !! p') as [lvl'|] eqn:Hl'; [|done].
  intros Hin Hin'.
  destruct (wf_book_level b side p lvl Hwf Hl) as (_ & _ & _ & Hall).
  destruct (wf_book_level b side' p' lvl' Hwf Hl') as (_ & _ & _ & Hall').
  rewrite Forall_forall in Hall, Hall'.
  destruct (member_at_lookup _ _ _ _ (Hall order Hin)) as (o & Ho & _ & _ & <- & <-).
  destruct (member_at_lookup _ _ _ _ (Hall' order Hin')) as (o' & Ho' & _ & _ & <- & <-).
  rewrite Ho in Ho'. by injection Ho' as <-.
Qed.
End book_access.

Section fill_at_price.
Implicit Types (b : OrderBook) (side : Side) (p : Price) (qty : Quantity).

Lemma fillQuantityAtPrice_no_level b side p qty :
  side_levels b side !! p = None → fillQuantityAtPrice b side p qty = Some (0, b).
Proof. intros H. unfold fillQuantityAtPrice. by rewrite H. Qed.

Lemma fillQuantityAtPrice_spec b side p qty lvl :
  wf_book b → is_u32 qty → side_levels b side !! p = Some lvl →
  let store := m_orderMap b in
  let filled := Z.min qty (level_remaining store (orders lvl)) in
  let total' := wrap32 (totalQuantity lvl - filled) in
  ∃ consumed kept store',
    fillQuantityAtPrice b side p qty =
      Some (filled,
            set_orderMap
              (set_side_levels b side (levels_after_fill b side p lvl total' kept))
              store') ∧
    orders lvl = consumed ++ kept ∧
    (∀ order, order ∈ consumed → store' !! order = None) ∧
    (∀ order, order ∉ orders lvl → store' !! order = store !! order) ∧
    (∀ order, order ∈ tail kept → store' !! order = store !! order) ∧
    level_remaining store consumed <= filled ∧
    head_filled store store' kept (filled - level_remaining store consumed).
Proof.
  intros Hwf Hq Hl store filled total'.
  destruct (wf_book_level b side p lvl Hwf Hl) as (_ & Ht & Hnd & Hall).
  assert (Hf : 0 <= 0 <= qty) by (unfold is_u32 in Hq; lia).
  destruct (fillLoop_spec side p qty (orders lvl) (length (orders lvl))
              (totalQuantity lvl) 0 store Hnd Hall Hq Ht Hf (le_n _))
    as (consumed & kept & store' & Hrun & Hsplit & Hgone & Hout & Htail & Hsum & Hhd).
  rewrite Z.add_0_l, Z.sub_0_r in Hrun. rewrite Z.add_0_l in Hsum.
  rewrite Z.add_0_l, Z.sub_0_r in Hhd.
  exists consumed, kept, store'. split_and!; try done.
  unfold fillQuantityAtPrice. rewrite Hl. fold store. rewrite Hrun. done.
Qed.

Lemma fill_keeps_identity (o : Order) q :
  m_id (fill o q).2 = m_id o ∧ m_side (fill o q).2 = m_side o ∧
  m_type (fill o q).2 = m_type o ∧ m_price (fill o q).2 = m_price o ∧
  m_quantity (fill o q).2 = m_quantity o.
Proof. unfold fill. by destruct (q >? getRemainingQty o). Qed.

Lemma level_ok_frame (store store' : gmap OrderId Order) side p (x : PriceLevel) :
  (∀ order, order ∈ orders x → store' !! order = store !! order) →
  level_ok store side p x → level_ok store' side p x.
Proof.
  intros Hsame (? & ? & ? & Hall). split_and!; try done.
  by apply (Forall_member_at_frame store).
Qed.

Lemma other_level_disjoint b side p lvl side' p' x order :
  wf_book b → side_levels b side !! p = Some lvl →
  side_levels b side' !! p' = Some x → (side' ≠ side ∨ p' ≠ p) →
  order ∈ orders x → order ∉ orders lvl.
Proof.
  intros Hwf Hl Hx Hne Hin Hin'.
  destruct (wf_book_in_level_unique b side p side' p' order Hwf) as [-> ->].
  - unfold in_level. by rewrite Hl.
  - unfold in_level. by rewrite Hx.
  - by destruct Hne.
Qed.

Lemma fillQuantityAtPrice_wf b side p qty f b' :
  wf_book b → is_u32 qty →
  fillQuantityAtPrice b side p qty = Some (f, b') → wf_book b'.
Proof.
  intros Hwf Hq Hrun.
  destruct (side_levels b side !! p) as [lvl|] eqn:Hl.
  2:{ rewrite fillQuantityAtPrice_no_level in Hrun by done. congruence. }
  destruct (fillQuantityAtPrice_spec b side p qty lvl Hwf Hq Hl)
    as (consumed & kept & store' & Heq & Hsplit & Hgone & Hout & Htail & Hsum & Hhd).
  rewrite Heq in Hrun. injection Hrun as _ <-.
  destruct (wf_book_level b side p lvl Hwf Hl) as (_ & _ & Hnd & Hall).
  assert (Hothers : ∀ side' p' x, side_levels b side' !! p' = Some x →
            (side' ≠ side ∨ p' ≠ p) → level_ok store' side' p' x).
  { intros side' p' x Hx Hne.
    apply (level_ok_frame (m_orderMap b)); [|by apply (wf_book_level b)].
    intros order Hin. apply Hout.
    by apply (other_level_disjoint b side p lvl side' p' x). }
  apply wf_book_side. intros side'. simpl.
  rewrite side_levels_set_orderMap.
  destruct (decide (side' = side)) as [->|Hne].
  2:{ rewrite side_levels_set_other by done.
      intros p' x Hx. apply Hothers; [done|by left]. }
  rewrite side_levels_set_same. unfold levels_after_fill.
  set (total' := wrap32 _).
  assert (Hdel : map_Forall (level_ok store' side) (delete p (side_levels b side))).
  { intros p' x [Hp Hx]%lookup_delete_Some. apply Hothers; [done|by right]. }
  destruct ((total' =? 0) || isEmpty (mkPriceLevel (price lvl) total' kept)) eqn:Hcond;
    [done|].
  rewrite <- insert_delete_eq. apply map_Forall_insert_2; [|done].
  apply orb_false_iff in Hcond as [_ Hne].
  rewrite Hsplit in Hnd. apply NoDup_app in Hnd as (_ & _ & Hndk).
  split_and!; simpl.
  - unfold isEmpty in Hne. simpl in Hne. by destruct kept.
  - apply wrap32_range.
  - done.
  - assert (Hallk : Forall (member_at (m_orderMap b) side p) kept).
    { rewrite Hsplit in Hall. by apply Forall_app in Hall as [_ ?]. }
    destruct kept as [|h t]; [done|].
    apply Forall_cons in Hallk as [Hh Ht]. apply Forall_cons. split.
    + destruct (member_at_lookup _ _ _ _ Hh) as (o & Ho & Hid & Hok & Hs & Hp).
      destruct (Hhd h o eq_refl Ho) as [Hst Hd].
      unfold member_at. rewrite Hst.
      destruct (Z.eqb_spec (Z.min qty (level_remaining (m_orderMap b) (orders lvl))
                            - level_remaining (m_orderMap b) consumed) 0); [done|].
      destruct (fill_keeps_identity o
                  (Z.min qty (level_remaining (m_orderMap b) (orders lvl))
                   - level_remaining (m_orderMap b) consumed))
        as (-> & -> & _ & -> & _).
      split_and!; try done. apply fill_order_ok; [done|].
      pose proof (remaining_range o) as Hr. unfold is_u32 in *. lia.
    + apply (Forall_member_at_frame (m_orderMap b)); [|done].
      intros order Hin. by apply Htail.
Qed.

Lemma levels_after_fill_lookup b side p lvl total' kept p' :
  levels_after_fill b side p lvl total' kept !! p' =
    if decide (p' = p)
    then (if (total' =? 0) || isEmpty (mkPriceLevel (price lvl) total' kept)
          then None else Some (mkPriceLevel (price lvl) total' kept))
    else side_levels b side !! p'.
Proof.
  unfold levels_after_fill.
  destruct ((total' =? 0) || isEmpty (mkPriceLevel (price lvl) total' kept));
    destruct (decide (p' = p)) as [->|Hne].
  - apply lookup_delete_eq.
  - by apply lookup_delete_ne.
  - apply lookup_insert_eq.
  - by apply lookup_insert_ne.
Qed.
End fill_at_price.

(** C1.  [fillQuantityAtPrice] on a level of a well-formed book returns
    the minimum of the requested quantity and the sum of the remaining
    quantities of the level's orders (0 when there is no level at the
    price).  The level's FIFO splits into the orders [consumed], oldest
    first, and the orders [kept]: the consumed orders are filled whole and
    are gone from the id index and from every level; of the kept orders only
    the first has been filled, by what the consumed ones left of the
    quantity, and every later one is untouched. *)
Theorem fillQuantityAtPrice_fifo (b : OrderBook) (side : Side) (p : Price)
    (qty : Quantity) :
  wf_book b → is_u32 qty →
  match side_levels b side !! p with
  | None => fillQuantityAtPrice b side p qty = Some (0, b)
  | Some lvl =>
      let store := m_orderMap b in
      let filled := Z.min qty (level_remaining store (orders lvl)) in
      ∃ consumed kept b',
        fillQuantityAtPrice b side p qty = Some (filled, b') ∧
        orders lvl = consumed ++ kept ∧
        level_remaining store consumed <= filled ∧
        (∀ order, order ∈ consumed →
           m_orderMap b' !! order = None ∧
           ∀ side' p', ¬ in_level b' side' p' order) ∧
        head_filled store (m_orderMap b') kept
          (filled - level_remaining store consumed) ∧
        (∀ order, order ∈ tail kept → m_orderMap b' !! order = store !! order) ∧
        (∀ lvl', side_levels b' side !! p = Some lvl' → orders lvl' = kept) ∧
        (totalQuantity lvl = level_remaining store (orders lvl) →
         filled = Z.min qty (getQuantityAtPrice b side p))
  end.
Proof.
  intros Hwf Hq.
  destruct (side_levels b side !! p) as [lvl|] eqn:Hl;
    [|by apply fillQuantityAtPrice_no_level].
  intros store filled.
  destruct (fillQuantityAtPrice_spec b side p qty lvl Hwf Hq Hl)
    as (consumed & kept & store' & Heq & Hsplit & Hgone & Hout & Htail & Hsum & Hhd).
  destruct (wf_book_level b side p lvl Hwf Hl) as (_ & _ & Hnd & _).
  eexists consumed, kept, _. split; [exact Heq|].
  simpl. split_and!; try done.
  - intros order Hin. split; [by apply Hgone|].
    intros side' p'. unfold in_level.
    rewrite side_levels_set_orderMap.
    destruct (decide (side' = side)) as [->|Hne].
    + rewrite side_levels_set_same, levels_after_fill_lookup.
      destruct (decide (p' = p)) as [->|Hnp].
      * destruct (_ || _); [by intros []|]. simpl. intros Hk.
        rewrite Hsplit in Hnd. apply NoDup_app in Hnd as (_ & Hdisj & _).
        by apply (Hdisj order).
      * destruct (side_levels b side !! p') as [x|] eqn:Hx; [|by intros []].
        intros Hin'.
        apply (other_level_disjoint b side p lvl side p' x order Hwf Hl Hx);
          [by right | done |].
        rewrite Hsplit. apply elem_of_app. by left.
    + rewrite side_levels_set_other by done.
      destruct (side_levels b side' !! p') as [x|] eqn:Hx; [|by intros []].
      intros Hin'.
      apply (other_level_disjoint b side p lvl side' p' x order Hwf Hl Hx);
        [by left | done |].
      rewrite Hsplit. apply elem_of_app. by left.
  - intros lvl'. rewrite side_levels_set_orderMap, side_levels_set_same.
    rewrite levels_after_fill_lookup, decide_True by done.
    destruct (_ || _); [done|]. by intros [= <-].
  - intros Ht. unfold getQuantityAtPrice. rewrite Hl. subst filled store.
    by rewrite Ht.
Qed.

Lemma fillQuantityAtPrice_fifo_witness :
  ∃ b', fillQuantityAtPrice book_three_bids BUY 100 75 = Some (75, b') ∧
        m_orderMap b' !! 1 = None ∧
        (∀ lvl', m_bids b' !! 100 = Some lvl' → orders lvl' = [2; 3]).
Proof.
  assert (Hwf : wf_book book_three_bids)
    by (apply (bool_decide_unpack _); vm_compute; exact I).
  assert (Hq : is_u32 75) by (unfold is_u32; lia).
  pose proof (fillQuantityAtPrice_fifo book_three_bids BUY 100 75 Hwf Hq) as H.
  assert (Hl : @lookup Price _ _ _ 100 (side_levels book_three_bids BUY) =
               Some (mkPriceLevel 100 150 [1; 2; 3])) by (vm_compute; reflexivity).
  rewrite Hl in H.
  destruct H as (consumed & kept & b' & Heq & Hsplit & Hsum & Hgone & Hhd & Htl & Hlvl & _).
  exists b'. split; [exact Heq|].
  assert (Hrun : fillQuantityAtPrice book_three_bids BUY 100 75 =
                 Some (75, b')) by exact Heq.
  vm_compute in Hrun. injection Hrun as <-.
  split; vm_compute; [reflexivity|]. by intros ? [= <-].
Defined.

(** ** OrderBook: adding to and removing from a level *)

Section levels.
Implicit Types (b : OrderBook) (side : Side) (p : Price) (o : Order)
  (order : OrderId) (l : list OrderId).

Lemma wrap32_plus_l a c : wrap32 (wrap32 a + c) = wrap32 (a + c).
Proof. unfold wrap32. apply Zplus_mod_idemp_l. Qed.

Lemma wrap32_plus_r a c : wrap32 (a + wrap32 c) = wrap32 (a + c).
Proof. unfold wrap32. apply Zplus_mod_idemp_r. Qed.

Lemma remove_first_not_in order l : order ∉ l → remove_first order l = l.
Proof.
  induction l as [|x l IH]; [done|]. intros [Hne Hnin]%not_elem_of_cons.
  simpl. rewrite decide_False by done. by rewrite IH.
Qed.

Lemma remove_first_app order l1 l2 :
  order ∉ l1 → remove_first order (l1 ++ order :: l2) = l1 ++ l2.
Proof.
  induction l1 as [|x l1 IH]; simpl.
  - intros _. by rewrite decide_True.
  - intros [Hne Hnin]%not_elem_of_cons.
    rewrite decide_False by done. by rewrite IH.
Qed.

Lemma remove_first_NoDup order l : NoDup l → order ∉ remove_first order l.
Proof.
  induction l as [|x l IH]; simpl; intros Hnd.
  - apply not_elem_of_nil.
  - apply NoDup_cons in Hnd as [Hx Hnd]. destruct (decide (x = order)) as [->|Hne].
    + done.
    + apply not_elem_of_cons. split; [done|by apply IH].
Qed.

Lemma filter_eq_absent order l : order ∉ l → filter (λ x, x = order) l = [].
Proof.
  induction l as [|x l IH]; [done|]. intros [Hne Hnin]%not_elem_of_cons.
  rewrite filter_cons_False by done. by apply IH.
Qed.

Lemma filter_eq_once order l :
  order ∉ l → length (filter (λ x, x = order) (l ++ [order])) = 1%nat.
Proof.
  intros Hnin. rewrite filter_app, filter_eq_absent by done.
  by rewrite filter_cons_True.
Qed.

(** The level an order is appended to by [addToBook]. *)
Lemma addToBook_level b order o :
  side_levels (addToBook b order o) (m_side o) !! m_price o =
    Some (PriceLevel_addOrder
            (default (mkPriceLevel (m_price o) 0 [])
                     (side_levels b (m_side o) !! m_price o))
            order o).
Proof.
  unfold addToBook. rewrite side_levels_set_same, lookup_insert_eq.
  by destruct (side_levels b (m_side o) !! m_price o).
Qed.

Lemma addToBook_other_level b order o side p :
  side ≠ m_side o ∨ p ≠ m_price o →
  side_levels (addToBook b order o) side !! p = side_levels b side !! p.
Proof.
  intros Hne. unfold addToBook.
  destruct (decide (side = m_side o)) as [->|Hs].
  - rewrite side_levels_set_same, lookup_insert_ne; [done|]. by destruct Hne.
  - by rewrite side_levels_set_other.
Qed.

Lemma addToBook_orderMap b order o :
  m_orderMap (addToBook b order o) = m_orderMap b.
Proof. unfold addToBook. apply orderMap_set_side_levels. Qed.

Lemma removeFromBook_orderMap b order o :
  m_orderMap (removeFromBook b order o) = m_orderMap b.
Proof.
  unfold removeFromBook. destruct (side_levels b (m_side o) !! m_price o); [|done].
  apply orderMap_set_side_levels.
Qed.

Lemma removeFromBook_other_level b order o side p :
  side ≠ m_side o ∨ p ≠ m_price o →
  side_levels (removeFromBook b order o) side !! p = side_levels b side !! p.
Proof.
  intros Hne. unfold removeFromBook.
  destruct (side_levels b (m_side o) !! m_price o) as [lvl|]; [|done].
  destruct (decide (side = m_side o)) as [->|Hs].
  - rewrite side_levels_set_same.
    assert (p ≠ m_price o) by (by destruct Hne).
    destruct (isEmpty _); [by rewrite lookup_delete_ne|by rewrite lookup_insert_ne].
  - by rewrite side_levels_set_other.
Qed.

(** The level an order is taken from by [removeFromBook]. *)
Lemma removeFromBook_level b order o lvl :
  side_levels b (m_side o) !! m_price o = Some lvl →
  side_levels (removeFromBook b order o) (m_side o) !! m_price o =
    let lvl' := PriceLevel_removeOrder lvl order o in
    if isEmpty lvl' then None else Some lvl'.
Proof.
  intros Hl. unfold removeFromBook. rewrite Hl, side_levels_set_same. simpl.
  destruct (isEmpty _); [apply lookup_delete_eq | apply lookup_insert_eq].
Qed.

Lemma PriceLevel_removeOrder_orders lvl order o :
  orders (PriceLevel_removeOrder lvl order o) = remove_first order (orders lvl).
Proof.
  unfold PriceLevel_removeOrder. destruct (decide (order ∈ orders lvl)); [done|].
  by rewrite remove_first_not_in.
Qed.

(** In a well-formed book, the level of an order is the one its side and
    price name. *)
Lemma wf_book_in_level b side p order o :
  wf_book b → m_orderMap b !! order = Some o → in_level b side p order →
  side = m_side o ∧ p = m_price o.
Proof.
  intros Hwf Ho. unfold in_level.
  destruct (side_levels b side !! p) as [lvl|] eqn:Hl; [|done]. intros Hin.
  destruct (wf_book_level b side p lvl Hwf Hl) as (_ & _ & _ & Hall).
  rewrite Forall_forall in Hall.
  destruct (member_at_lookup _ _ _ _ (Hall order Hin)) as (o' & Ho' & _ & _ & <- & <-).
  rewrite Ho in Ho'. by injection Ho' as <-.
Qed.

(** After [removeFromBook] the order is in no level. *)
Lemma removeFromBook_absent b order o side p :
  wf_book b → m_orderMap b !! order = Some o →
  ¬ in_level (removeFromBook b order o) side p order.
Proof.
  intros Hwf Ho Hin.
  destruct (decide (side = m_side o ∧ p = m_price o)) as [[-> ->]|Hne].
  - unfold in_level in Hin.
    destruct (side_levels b (m_side o) !! m_price o) as [lvl|] eqn:Hl.
    + rewrite (removeFromBook_level b order o lvl Hl) in Hin. simpl in Hin.
      destruct (isEmpty _); [done|].
      rewrite PriceLevel_removeOrder_orders in Hin.
      destruct (wf_book_level b _ _ lvl Hwf Hl) as (_ & _ & Hnd & _).
      by apply (remove_first_NoDup order (orders lvl)).
    + unfold removeFromBook in Hin. by rewrite Hl, Hl in Hin.
  - assert (Hne' : side ≠ m_side o ∨ p ≠ m_price o).
    { destruct (decide (side = m_side o)); [right|left]; naive_solver. }
    unfold in_level in Hin. rewrite removeFromBook_other_level in Hin by done.
    apply Hne. apply (wf_book_in_level b side p order o Hwf Ho).
    by unfold in_level.
Qed.
End levels.

(** ** OrderBook: add, cancel, modify *)

Section add_cancel.
Implicit Types (b : OrderBook) (o order : Order).

(** A fresh id is in no level of a well-formed book. *)
Lemma wf_book_fresh_absent b id side p lvl :
  wf_book b → m_orderMap b !! id = None →
  side_levels b side !! p = Some lvl → id ∉ orders lvl.
Proof.
  intros Hwf Hnone Hl Hin.
  destruct (wf_book_level b side p lvl Hwf Hl) as (_ & _ & _ & Hall).
  rewrite Forall_forall in Hall.
  destruct (member_at_lookup _ _ _ _ (Hall id Hin)) as (o & Ho & _).
  congruence.
Qed.

(** Removing the order [addToBook] has just appended restores the
    levels. *)
Lemma remove_after_add b id o :
  (∀ lvl, side_levels b (m_side o) !! m_price o = Some lvl →
          (id ∉ orders lvl) ∧ (orders lvl ≠ []) ∧ is_u32 (totalQuantity lvl)) →
  side_levels (removeFromBook (addToBook b id o) id o) (m_side o) =
    side_levels b (m_side o).
Proof.
  intros Hlvl. unfold removeFromBook.
  rewrite addToBook_level. rewrite side_levels_set_same.
  unfold addToBook. rewrite side_levels_set_same.
  unfold PriceLevel_removeOrder, PriceLevel_addOrder. simpl.
  rewrite decide_True by (apply elem_of_app; right; by left).
  destruct (side_levels b (m_side o) !! m_price o) as [lvl|] eqn:Hl; simpl.
  - destruct (Hlvl lvl eq_refl) as (Hfresh & Hne & Ht).
    rewrite remove_first_app by done. rewrite app_nil_r.
    unfold isEmpty. simpl. destruct (orders lvl) eqn:Hord; [done|].
    rewrite insert_insert_eq. apply insert_id. rewrite Hl. f_equal.
    destruct lvl as [pl tl ol]. simpl in *. subst ol. f_equal.
    rewrite wrap32_minus_l. replace (tl + _ - _) with tl by lia.
    by rewrite wrap32_id.
  - rewrite decide_True by done. unfold isEmpty. simpl.
    by apply delete_insert_id.
Qed.

Lemma remove_after_add_other b id o side :
  side ≠ m_side o →
  side_levels (removeFromBook (addToBook b id o) id o) side = side_levels b side.
Proof.
  intros Hne. unfold removeFromBook.
  destruct (side_levels (addToBook b id o) (m_side o) !! m_price o);
    rewrite ?side_levels_set_other by done;
    unfold addToBook; by rewrite side_levels_set_other.
Qed.
End add_cancel.

(** C5, as the code has it.  An active order with a fresh id that is added
    to a well-formed book and cancelled at once leaves both sides of the
    book, and so both level counts, as they were; the cancelled order stays
    in the id index, so the total order count is one more than before. *)
Theorem add_then_cancel (b : OrderBook) (order : Order) :
  wf_book b → m_orderMap b !! m_id order = None → isActive order = true →
  let b1 := (addOrder b order).2 in
  let b2 := (cancelOrder b1 (m_id order)).2 in
  (addOrder b order).1 = true ∧ (cancelOrder b1 (m_id order)).1 = true ∧
  m_bids b2 = m_bids b ∧ m_asks b2 = m_asks b ∧
  getBidLevelCount b2 = getBidLevelCount b ∧
  getAskLevelCount b2 = getAskLevelCount b ∧
  m_orderMap b2 !! m_id order = Some (cancel order) ∧
  getTotalOrderCount b2 = S (getTotalOrderCount b).
Proof.
  intros Hwf Hfresh Hact b1 b2.
  assert (Hb1 : addOrder b order =
                (true, addToBook (set_orderMap b (<[m_id order := order]> (m_orderMap b)))
                                 (m_id order) order)).
  { unfold addOrder. by rewrite Hfresh. }
  set (b0 := set_orderMap b (<[m_id order := order]> (m_orderMap b))) in *.
  assert (Hmap1 : m_orderMap b1 = <[m_id order := order]> (m_orderMap b)).
  { subst b1. rewrite Hb1. simpl. by rewrite addToBook_orderMap. }
  assert (Hb2 : cancelOrder b1 (m_id order) =
                (true, set_orderMap (removeFromBook b1 (m_id order) order)
                         (<[m_id order := cancel order]>
                            (m_orderMap (removeFromBook b1 (m_id order) order))))).
  { unfold cancelOrder. rewrite Hmap1, lookup_insert_eq, Hact. done. }
  assert (Hsides : ∀ side, side_levels b2 side = side_levels b side).
  { intros side. subst b2. rewrite Hb2. simpl. rewrite side_levels_set_orderMap.
    subst b1 b0. rewrite Hb1. simpl.
    destruct (decide (side = m_side order)) as [->|Hne].
    - rewrite remove_after_add; [by rewrite side_levels_set_orderMap|].
      intros lvl. rewrite side_levels_set_orderMap. intros Hl.
      destruct (wf_book_level b _ _ lvl Hwf Hl) as (? & ? & _ & _).
      split_and!; try done. by apply (wf_book_fresh_absent b _ _ _ _ Hwf Hfresh Hl).
    - rewrite remove_after_add_other by done. by rewrite side_levels_set_orderMap. }
  assert (Hmap2 : m_orderMap b2 = <[m_id order := cancel order]> (m_orderMap b)).
  { subst b2. rewrite Hb2. simpl. rewrite removeFromBook_orderMap, Hmap1.
    apply insert_insert_eq. }
  rewrite Hb1, Hb2. simpl. unfold getBidLevelCount, getAskLevelCount, getTotalOrderCount.
  pose proof (Hsides BUY) as Hbids. pose proof (Hsides SELL) as Hasks.
  simpl in Hbids, Hasks. rewrite Hbids, Hasks, Hmap2.
  split_and!; try done.
  - apply lookup_insert_eq.
  - by apply map_size_insert_None.
Qed.

Lemma add_then_cancel_witness :
  let b1 := (addOrder book_two_asks (Order_new 4 SELL LIMIT 1005 3)).2 in
  let b2 := (cancelOrder b1 4).2 in
  getBidLevelCount b2 = 1%nat ∧ getAskLevelCount b2 = 2%nat ∧
  getTotalOrderCount b2 = 4%nat.
Proof.
  assert (Hwf : wf_book book_two_asks)
    by (apply (bool_decide_unpack _); vm_compute; exact I).
  destruct (add_then_cancel book_two_asks (Order_new 4 SELL LIMIT 1005 3) Hwf
              eq_refl eq_refl) as (_ & _ & _ & _ & Hb & Ha & _ & Hn).
  intros b1 b2. subst b1 b2. simpl m_id in *.
  rewrite Hb, Ha, Hn. vm_compute. done.
Defined.

(** C5 as stated fails on the total order count: the cancelled order is
    kept in the id index. *)
Lemma add_then_cancel_keeps_record :
  let order := Order_new 1 BUY LIMIT 100 10 in
  let b1 := (addOrder empty_book order).2 in
  let b2 := (cancelOrder b1 1).2 in
  m_orderMap empty_book !! 1 = None ∧
  (cancelOrder b1 1).1 = true ∧
  getTotalOrderCount empty_book = 0%nat ∧ getTotalOrderCount b2 = 1%nat ∧
  getTotalOrderCount b2 ≠ getTotalOrderCount empty_book.
Proof. vm_compute. split_and!; done. Qed.

Section modify_price.
Implicit Types (b : OrderBook) (o : Order) (id : OrderId).

Lemma modifyPrice_spec o newPrice :
  let '(ok, o') := modifyPrice o newPrice in
  m_id o' = m_id o ∧ m_side o' = m_side o ∧
  m_price o' = (if ok then newPrice else m_price o) ∧
  (ok = false → o' = o) ∧
  (ok = true ↔ m_type o = LIMIT ∧ m_filledQty o <= 0).
Proof.
  unfold modifyPrice. destruct (decide (m_type o = LIMIT)) as [Ht|Ht].
  - rewrite (bool_decide_eq_true_2 _ Ht). simpl.
    destruct (Z.gtb_spec (m_filledQty o) 0); simpl; split_and!; try done;
      split; try done; intros [_ ?]; lia.
  - rewrite (bool_decide_eq_false_2 _ Ht). simpl. split_and!; try done.
    split; [done|]. by intros [? _].
Qed.

(** What [modifyOrderPrice] does to an active order: out of its level,
    then appended to the level of the price it has after
    [Order::modifyPrice]. *)
Lemma modifyOrderPrice_active b id o newPrice :
  m_orderMap b !! id = Some o → isActive o = true →
  let b1 := removeFromBook b id o in
  let o' := (modifyPrice o newPrice).2 in
  modifyOrderPrice b id newPrice =
    ((modifyPrice o newPrice).1,
     addToBook (set_orderMap b1 (<[id := o']> (m_orderMap b1))) id o').
Proof.
  intros Ho Hact. unfold modifyOrderPrice. rewrite Ho, Hact. simpl.
  by destruct (modifyPrice o newPrice) as [[] o'].
Qed.

Lemma readd_only_in_level b id o o' :
  m_side o' = m_side o →
  (∀ side p, ¬ in_level b side p id) →
  only_in_level (addToBook (set_orderMap b (<[id := o']> (m_orderMap b))) id o')
                (m_side o) (m_price o') id.
Proof.
  intros Hside Habs.
  set (b2 := set_orderMap b _).
  assert (Hb2 : ∀ side p, side_levels b2 side !! p = side_levels b side !! p).
  { intros. subst b2. by rewrite side_levels_set_orderMap. }
  split.
  - rewrite <- Hside. rewrite addToBook_level. eexists. split; [done|].
    simpl. apply filter_eq_once. rewrite Hb2.
    destruct (side_levels b (m_side o') !! m_price o') as [lvl|] eqn:Hl; simpl.
    + intros Hin. apply (Habs (m_side o') (m_price o')). unfold in_level.
      by rewrite Hl.
    + apply not_elem_of_nil.
  - intros side' p' Hin.
    destruct (decide (side' = m_side o' ∧ p' = m_price o')) as [[-> ->]|Hne];
      [by rewrite Hside|].
    exfalso. apply (Habs side' p'). unfold in_level in *.
    rewrite addToBook_other_level, Hb2 in Hin; [done|].
    destruct (decide (side' = m_side o')); [right|left]; naive_solver.
Qed.
End modify_price.

(** C7.  In a well-formed book, [modifyOrderPrice] on the id of an active
    order returns what [Order::modifyPrice] returns on it and leaves the
    order in the id index and in exactly one level, once: the level of the
    new price when it returns true, the level of the price the order had
    when it returns false.  On an unknown id and on the id of an order that
    is not active it returns false and leaves the book as it is. *)
Theorem modifyOrderPrice_never_lost (b : OrderBook) (id : OrderId)
    (newPrice : Price) :
  wf_book b →
  match m_orderMap b !! id with
  | None => modifyOrderPrice b id newPrice = (false, b)
  | Some o =>
      if isActive o then
        let '(ok, b') := modifyOrderPrice b id newPrice in
        ok = (modifyPrice o newPrice).1 ∧
        m_orderMap b' !! id = Some (modifyPrice o newPrice).2 ∧
        only_in_level b' (m_side o) (if ok then newPrice else m_price o) id
      else modifyOrderPrice b id newPrice = (false, b)
  end.
Proof.
  intros Hwf. destruct (m_orderMap b !! id) as [o|] eqn:Ho.
  2:{ unfold modifyOrderPrice. by rewrite Ho. }
  destruct (isActive o) eqn:Hact.
  2:{ unfold modifyOrderPrice. by rewrite Ho, Hact. }
  rewrite (modifyOrderPrice_active b id o newPrice Ho Hact).
  pose proof (modifyPrice_spec o newPrice) as Hspec.
  destruct (modifyPrice o newPrice) as [ok o'] eqn:Hmp. simpl.
  destruct Hspec as (_ & Hside & Hprice & _ & _).
  split_and!; [done| |].
  - rewrite addToBook_orderMap. simpl. apply lookup_insert_eq.
  - rewrite <- Hprice. apply readd_only_in_level; [done|].
    intros side p. by apply removeFromBook_absent.
Qed.

Lemma modifyOrderPrice_never_lost_witness :
  (modifyOrderPrice book_two_asks 2 1005).1 = true ∧
  only_in_level (modifyOrderPrice book_two_asks 2 1005).2 SELL 1005 2.
Proof.
  assert (Hwf : wf_book book_two_asks)
    by (apply (bool_decide_unpack _); vm_compute; exact I).
  pose proof (modifyOrderPrice_never_lost book_two_asks 2 1005 Hwf) as H.
  assert (Ho : @lookup OrderId _ _ _ 2 (m_orderMap book_two_asks) =
               Some (Order_new 2 SELL LIMIT 1000 5)) by (vm_compute; reflexivity).
  rewrite Ho in H. simpl isActive in H. cbv iota in H.
  destruct (modifyOrderPrice book_two_asks 2 1005) as [ok b'].
  destruct H as (Hok & _ & Hin). simpl in *. subst ok. split; [done|exact Hin].
Defined.

(** C10.  In a well-formed book, let [A] be an active order with a
    positive fill at the front of its level and [rest] the (non-empty)
    orders behind it.  [modifyOrderPrice] on [A] fails, and the level is
    left with [A] behind all of [rest]: the failed call reinserts [A] at the
    back of the FIFO of its unchanged price.  The cached total and the id
    index are as before. *)
Theorem failed_modifyOrderPrice_requeues (b : OrderBook) (A : OrderId)
    (oA : Order) (newPrice : Price) (lvl : PriceLevel) (rest : list OrderId) :
  wf_book b →
  m_orderMap b !! A = Some oA → isActive oA = true → 0 < m_filledQty oA →
  side_levels b (m_side oA) !! m_price oA = Some lvl →
  orders lvl = A :: rest → rest ≠ [] →
  ∃ b',
    modifyOrderPrice b A newPrice = (false, b') ∧
    side_levels b' (m_side oA) !! m_price oA =
      Some (mkPriceLevel (price lvl) (totalQuantity lvl) (rest ++ [A])) ∧
    m_orderMap b' = m_orderMap b.
Proof.
  intros Hwf Ho Hact Hfilled Hl Hord Hrest.
  rewrite (modifyOrderPrice_active b A oA newPrice Ho Hact).
  assert (Hmp : modifyPrice oA newPrice = (false, oA)).
  { unfold modifyPrice. destruct (Z.gtb_spec (m_filledQty oA) 0); [|lia].
    by rewrite orb_true_r. }
  rewrite Hmp. simpl. eexists. split; [done|].
  destruct (wf_book_level b _ _ lvl Hwf Hl) as (_ & Ht & _ & _).
  split.
  - rewrite addToBook_level, side_levels_set_orderMap.
    rewrite (removeFromBook_level b A oA lvl Hl). simpl.
    unfold PriceLevel_removeOrder. rewrite Hord.
    rewrite decide_True by (by left). simpl. rewrite decide_True by done.
    unfold isEmpty. simpl. destruct rest as [|B rest']; [done|]. simpl.
    unfold PriceLevel_addOrder. simpl. do 2 f_equal.
    rewrite wrap32_plus_l. replace (_ - _ + _) with (totalQuantity lvl) by lia.
    by apply wrap32_id.
  - rewrite addToBook_orderMap. simpl. rewrite removeFromBook_orderMap.
    by apply insert_id.
Qed.


Lemma failed_modifyOrderPrice_requeues_witness :
  ∃ b', modifyOrderPrice book_partial_front 1 105 = (false, b') ∧
        m_bids b' !! 100 = Some (mkPriceLevel 100 130 [2; 3; 1]).
Proof.
  assert (Hwf : wf_book book_partial_front)
    by (apply (bool_decide_unpack _); vm_compute; exact I).
  destruct (failed_modifyOrderPrice_requeues book_partial_front 1
              (mkOrder 1 BUY LIMIT 100 50 20 PARTIAL) 105
              (mkPriceLevel 100 130 [1; 2; 3]) [2; 3] Hwf)
    as (b' & Hrun & Hlvl & _); try (vm_compute; done).
  exists b'. split; [exact Hrun | exact Hlvl].
Defined.

Section modify_quantity.
Implicit Types (b : OrderBook) (o : Order) (id : OrderId).

Lemma modifyQuantity_to_filled o :
  modifyQuantity o (m_filledQty o) =
    (true, mkOrder (m_id o) (m_side o) (m_type o) (m_price o) (m_filledQty o)
                   (m_filledQty o) FILLED).
Proof. unfold modifyQuantity. by rewrite Z.ltb_irrefl, Z.eqb_refl. Qed.

(** A fill of the whole remaining quantity of the front order of a level
    removes that order from the id index and from the level. *)
Lemma fill_front_to_zero b id o lvl rest :
  wf_book b → m_orderMap b !! id = Some o →
  side_levels b (m_side o) !! m_price o = Some lvl →
  orders lvl = id :: rest → 0 < getRemainingQty o →
  ∃ b'', fillQuantityAtPrice b (m_side o) (m_price o) (getRemainingQty o) =
           Some (getRemainingQty o, b'') ∧
         m_orderMap b'' !! id = None ∧
         ¬ in_level b'' (m_side o) (m_price o) id.
Proof.
  intros Hwf Ho Hl Hord Hpos.
  destruct (fillQuantityAtPrice_spec b (m_side o) (m_price o) (getRemainingQty o)
              lvl Hwf (remaining_range o) Hl)
    as (consumed & kept & store' & Heq & Hsplit & Hgone & _ & _ & Hsum & Hhd).
  destruct (wf_book_level b _ _ lvl Hwf Hl) as (_ & _ & Hnd & _).
  assert (Hmin : Z.min (getRemainingQty o)
                   (level_remaining (m_orderMap b) (orders lvl)) = getRemainingQty o).
  { rewrite Hord. simpl. rewrite Ho.
    pose proof (level_remaining_nonneg (m_orderMap b) rest). lia. }
  rewrite Hmin in *.
  destruct consumed as [|c consumed].
  { simpl in Hsplit. rewrite <- Hsplit, Hord in Hhd.
    destruct (Hhd id o eq_refl Ho) as [_ Hd]. simpl in Hd. lia. }
  rewrite Hord in Hsplit. simpl in Hsplit. injection Hsplit as <- Hsplit.
  eexists. split; [exact Heq|]. simpl. split.
  - apply Hgone. by left.
  - unfold in_level. rewrite side_levels_set_orderMap, side_levels_set_same.
    rewrite levels_after_fill_lookup, decide_True by done.
    destruct (_ || _); [by intros []|]. simpl. intros Hin.
    rewrite Hord, Hsplit in Hnd. apply NoDup_cons in Hnd as [Hnin _].
    apply Hnin. apply elem_of_app. by right.
Qed.
End modify_quantity.

(** C9.  In a well-formed book, [modifyOrderQuantity] of an active resting
    order to the quantity it has already filled returns true and marks the
    order FILLED with nothing remaining; the cached total of its level
    drops by the order's old remaining quantity (modulo 2^32), and the order
    stays in the FIFO of its level and in the id index, whose size does not
    change.  A fill that brings the front order of a level to zero, on the
    contrary, removes it from the index and from the level. *)
Theorem modifyOrderQuantity_to_filled_stays (b : OrderBook) (id : OrderId)
    (o : Order) (lvl : PriceLevel) :
  wf_book b →
  m_orderMap b !! id = Some o → isActive o = true →
  side_levels b (m_side o) !! m_price o = Some lvl → id ∈ orders lvl →
  let o' := mkOrder (m_id o) (m_side o) (m_type o) (m_price o) (m_filledQty o)
                    (m_filledQty o) FILLED in
  let total' := wrap32 (totalQuantity lvl - getRemainingQty o) in
  ∃ b',
    modifyOrderQuantity b id (m_filledQty o) = (true, b') ∧
    m_orderMap b' !! id = Some o' ∧ getRemainingQty o' = 0 ∧
    side_levels b' (m_side o) !! m_price o =
      Some (mkPriceLevel (price lvl) total' (orders lvl)) ∧
    (getRemainingQty o <= totalQuantity lvl →
     total' = totalQuantity lvl - getRemainingQty o) ∧
    in_level b' (m_side o) (m_price o) id ∧
    getTotalOrderCount b' = getTotalOrderCount b ∧
    (∀ rest, orders lvl = id :: rest → 0 < getRemainingQty o →
       ∃ b'', fillQuantityAtPrice b (m_side o) (m_price o) (getRemainingQty o) =
                Some (getRemainingQty o, b'') ∧
              m_orderMap b'' !! id = None ∧
              ¬ in_level b'' (m_side o) (m_price o) id).
Proof.
  intros Hwf Ho Hact Hl Hin o' total'.
  destruct (wf_book_level b _ _ lvl Hwf Hl) as (_ & Ht & _ & _).
  assert (Hrem' : getRemainingQty o' = 0).
  { unfold getRemainingQty. simpl. by rewrite Z.sub_diag. }
  assert (Hlvl' : add_to_total (side_levels b (m_side o)) (m_price o)
                    (wrap32 (getRemainingQty o' - getRemainingQty o)) !! m_price o =
                  Some (mkPriceLevel (price lvl) total' (orders lvl))).
  { unfold add_to_total. rewrite Hl, lookup_insert_eq. do 2 f_equal.
    rewrite Hrem', wrap32_plus_r. subst total'. f_equal; lia. }
  eexists. split.
  { unfold modifyOrderQuantity. rewrite Ho, Hact, modifyQuantity_to_filled. simpl.
    fold o'. done. }
  rewrite orderMap_set_side_levels, side_levels_set_same, side_levels_set_orderMap.
  simpl. split_and!.
  - apply lookup_insert_eq.
  - done.
  - done.
  - intros Hle. subst total'. apply wrap32_id.
    pose proof (remaining_range o) as Hr. unfold is_u32 in *. lia.
  - unfold in_level.
    rewrite side_levels_set_same, Hlvl'. done.
  - unfold getTotalOrderCount. rewrite orderMap_set_side_levels. simpl.
    by apply map_size_insert_Some.
  - intros rest Hord Hpos. by apply (fill_front_to_zero b id o lvl rest).
Qed.

Lemma modifyOrderQuantity_to_filled_stays_witness :
  ∃ b', modifyOrderQuantity book_partial_front 1 20 = (true, b') ∧
        m_bids b' !! 100 = Some (mkPriceLevel 100 100 [1; 2; 3]) ∧
        getTotalOrderCount b' = 3%nat.
Proof.
  assert (Hwf : wf_book book_partial_front)
    by (apply (bool_decide_unpack _); vm_compute; exact I).
  destruct (modifyOrderQuantity_to_filled_stays book_partial_front 1
              (mkOrder 1 BUY LIMIT 100 50 20 PARTIAL)
              (mkPriceLevel 100 130 [1; 2; 3]) Hwf)
    as (b' & Hrun & _ & _ & Hlvl & _ & _ & Hcount & _);
    try (vm_compute; done); [by left|].
  exists b'. split_and!; [exact Hrun | exact Hlvl | by rewrite Hcount].
Defined.

(** ** Iteration order of the two sides *)

Section iteration_order.
Implicit Types (m : gmap Price PriceLevel) (l : list (Price * PriceLevel)).

#[local] Instance ask_before_total : Total ask_before.
Proof. intros x y. unfold ask_before. lia. Qed.
#[local] Instance ask_before_trans : Transitive ask_before.
Proof. intros x y z. unfold ask_before. lia. Qed.
#[local] Instance bid_before_total : Total bid_before.
Proof. intros x y. unfold bid_before. lia. Qed.
#[local] Instance bid_before_trans : Transitive bid_before.
Proof. intros x y z. unfold bid_before. lia. Qed.

(** A list of distinct keys sorted by [<=] is sorted by [<]. *)
Lemma sorted_keys_strict (R : relation (Price * PriceLevel)) (S : relation Z) l :
  (∀ x y, R x y → x.1 ≠ y.1 → S x.1 y.1) →
  NoDup l.*1 → StronglySorted R l → StronglySorted S l.*1.
Proof.
  intros HRS. induction l as [|x l IH]; simpl; intros Hnd Hs.
  - constructor.
  - apply NoDup_cons in Hnd as [Hx Hnd].
    apply StronglySorted_inv in Hs as [Hs Hall].
    constructor; [by apply IH|].
    rewrite Forall_fmap. rewrite Forall_forall in Hall |- *.
    intros y Hy. simpl. apply HRS; [by apply Hall|].
    intros Heq. apply Hx. rewrite Heq. apply list_elem_of_fmap. by exists y.
Qed.

Lemma asks_in_order_perm m : asks_in_order m ≡ₚ map_to_list m.
Proof. apply merge_sort_Permutation. Qed.

Lemma bids_in_order_perm m : bids_in_order m ≡ₚ map_to_list m.
Proof. apply merge_sort_Permutation. Qed.

Lemma asks_in_order_sorted m : StronglySorted Z.lt (asks_in_order m).*1.
Proof.
  apply (sorted_keys_strict ask_before); [unfold ask_before; lia| |].
  - rewrite asks_in_order_perm. apply NoDup_fst_map_to_list.
  - apply (StronglySorted_merge_sort ask_before).
Qed.

Lemma bids_in_order_sorted m :
  StronglySorted (λ p1 p2, p2 < p1) (bids_in_order m).*1.
Proof.
  apply (sorted_keys_strict bid_before); [unfold bid_before; lia| |].
  - rewrite bids_in_order_perm. apply NoDup_fst_map_to_list.
  - apply (StronglySorted_merge_sort bid_before).
Qed.

Lemma StronglySorted_sublist {A} (R : relation A) (l1 l2 : list A) :
  l1 `sublist_of` l2 → StronglySorted R l2 → StronglySorted R l1.
Proof.
  induction 1 as [|x l1 l2 Hsub IH|x l1 l2 Hsub IH]; intros Hs.
  - constructor.
  - apply StronglySorted_inv in Hs as [Hs Hall]. constructor; [by apply IH|].
    rewrite Forall_forall in Hall |- *. intros y Hy. apply Hall.
    by apply (elem_of_sublist l1).
  - apply StronglySorted_inv in Hs as [Hs _]. by apply IH.
Qed.

Lemma elem_of_keys_perm l m p :
  l ≡ₚ map_to_list m → p ∈ l.*1 ↔ is_Some (m !! p).
Proof.
  intros Hp. rewrite Hp, list_elem_of_fmap. split.
  - intros ([p' x] & -> & Hin). apply elem_of_map_to_list in Hin. by exists x.
  - intros [x Hx]. exists (p, x). split; [done|by apply elem_of_map_to_list].
Qed.

Lemma elem_of_perm_level l m p x :
  l ≡ₚ map_to_list m → (p, x) ∈ l ↔ m !! p = Some x.
Proof. intros Hp. rewrite Hp. apply elem_of_map_to_list. Qed.
End iteration_order.

(** ** MatchingEngine *)


Section matching.
Implicit Types (b : OrderBook) (side : Side) (s : MatchState)
  (levels : list (Price * Quantity)).

Lemma fillQuantityAtPrice_total b side p qty :
  wf_book b → is_u32 qty →
  ∃ f b', fillQuantityAtPrice b side p qty = Some (f, b') ∧ wf_book b' ∧
    (∀ side' p', side' ≠ side ∨ p' ≠ p →
       side_levels b' side' !! p' = side_levels b side' !! p') ∧
    (∀ id, m_orderMap b !! id = None → m_orderMap b' !! id = None).
Proof.
  intros Hwf Hq.
  destruct (side_levels b side !! p) as [lvl|] eqn:Hl.
  2:{ exists 0, b. by rewrite fillQuantityAtPrice_no_level. }
  destruct (fillQuantityAtPrice_spec b side p qty lvl Hwf Hq Hl)
    as (consumed & kept & store' & Heq & Hsplit & Hgone & Hout & _).
  eexists _, _. split; [exact Heq|]. split_and!.
  - by eapply fillQuantityAtPrice_wf.
  - intros side' p' Hne. rewrite side_levels_set_orderMap.
    destruct (decide (side' = side)) as [->|Hs].
    + rewrite side_levels_set_same, levels_after_fill_lookup.
      rewrite decide_False; [done|]. by destruct Hne.
    + by rewrite side_levels_set_other.
  - intros id Hnone. simpl. rewrite Hout; [done|].
    by apply (wf_book_fresh_absent b id side p lvl).
Qed.

Lemma matchStep_break side s level :
  matchStep side s level = Some Break ↔
  getRemainingQty (ms_order s) = 0 ∨
  (m_type (ms_order s) = LIMIT ∧
   beyond_limit side (m_price (ms_order s)) level.1).
Proof.
  destruct level as [p q].
  destruct side; simpl; unfold matchBuyStep, matchSellStep;
    (destruct (Z.eqb_spec (getRemainingQty (ms_order s)) 0) as [Hz|Hz];
       [by split; [left|] |]);
    (destruct (decide (m_type (ms_order s) = LIMIT)) as [Ht|Ht];
       [rewrite (bool_decide_eq_true_2 _ Ht) | rewrite (bool_decide_eq_false_2 _ Ht)]);
    simpl.
  - destruct (Z.gtb_spec p (m_price (ms_order s))).
    + split; [|done]. intros _. right. split; [done|lia].
    + destruct (fillQuantityAtPrice _ _ _ _) as [[f b']|];
        [destruct (f =? 0)|]; (split; [done|intros [?|[_ ?]]; [done|lia]]).
  - destruct (fillQuantityAtPrice _ _ _ _) as [[f b']|];
      [destruct (f =? 0)|]; (split; [done|intros [?|[? _]]; done]).
  - destruct (Z.ltb_spec p (m_price (ms_order s))).
    + split; [|done]. intros _. right. split; [done|lia].
    + destruct (fillQuantityAtPrice _ _ _ _) as [[f b']|];
        [destruct (f =? 0)|]; (split; [done|intros [?|[_ ?]]; [done|lia]]).
  - destruct (fillQuantityAtPrice _ _ _ _) as [[f b']|];
      [destruct (f =? 0)|]; (split; [done|intros [?|[? _]]; done]).
Qed.

(** A pass that does not leave the loop fills the level at the opposite
    side and goes on. *)
Lemma matchStep_unfold side s (p : Price) (q : Quantity) :
  matchStep side s (p, q) = Some Break ∨
  ((m_type (ms_order s) = LIMIT → ¬ beyond_limit side (m_price (ms_order s)) p) ∧
   matchStep side s (p, q) =
     match fillQuantityAtPrice (book_of s) (opposite side) p
             (Z.min (getRemainingQty (ms_order s)) q) with
     | None => None
     | Some (f, b') =>
         if f =? 0
         then Some (Next (mkMatchState (with_book (ms_engine s) b') (ms_order s)
                                       (ms_trades s)))
         else Some (Next (record_fill s b'
                            (match side with
                             | BUY => mkTrade (m_id (ms_order s)) 0 p f
                             | SELL => mkTrade 0 (m_id (ms_order s)) p f
                             end) f))
     end).
Proof.
  destruct (decide (getRemainingQty (ms_order s) = 0 ∨
                    (m_type (ms_order s) = LIMIT ∧
                     beyond_limit side (m_price (ms_order s)) p))) as [Hb|Hb].
  { left. by apply (matchStep_break side s (p, q)). }
  right. split; [naive_solver|].
  assert (Hz : getRemainingQty (ms_order s) ≠ 0) by naive_solver.
  unfold book_of.
  destruct side; simpl; unfold matchBuyStep, matchSellStep;
    (destruct (Z.eqb_spec (getRemainingQty (ms_order s)) 0); [done|]);
    (destruct (decide (m_type (ms_order s) = LIMIT)) as [Ht|Ht];
       [rewrite (bool_decide_eq_true_2 _ Ht) | rewrite (bool_decide_eq_false_2 _ Ht)]);
    simpl; try done.
  - destruct (Z.gtb_spec p (m_price (ms_order s))); [|done].
    exfalso. apply Hb. right. split; [done|simpl; lia].
  - destruct (Z.ltb_spec p (m_price (ms_order s))); [|done].
    exfalso. apply Hb. right. split; [done|simpl; lia].
Qed.

Lemma matchStep_next side s (p : Price) (q : Quantity) :
  wf_book (book_of s) → is_u32 q →
  matchStep side s (p, q) = Some Break ∨
  ∃ s', matchStep side s (p, q) = Some (Next s') ∧ wf_book (book_of s') ∧
    (m_type (ms_order s) = LIMIT → ¬ beyond_limit side (m_price (ms_order s)) p) ∧
    same_identity (ms_order s) (ms_order s') ∧
    (ms_trades s' = ms_trades s ∨
     ∃ t, ms_trades s' = ms_trades s ++ [t] ∧ Trade_price t = p) ∧
    (∀ side' p', side' ≠ opposite side ∨ p' ≠ p →
       side_levels (book_of s') side' !! p' = side_levels (book_of s) side' !! p') ∧
    (∀ id, m_orderMap (book_of s) !! id = None →
           m_orderMap (book_of s') !! id = None).
Proof.
  intros Hwf Hq.
  destruct (matchStep_unfold side s p q) as [Hb|[Hlim Hstep]]; [by left|right].
  assert (Hm : is_u32 (Z.min (getRemainingQty (ms_order s)) q)).
  { pose proof (remaining_range (ms_order s)). unfold is_u32 in *. lia. }
  destruct (fillQuantityAtPrice_total (book_of s) (opposite side) p _ Hwf Hm)
    as (f & b' & Hfill & Hwf' & Hframe & Hnone).
  rewrite Hfill in Hstep.
  destruct (f =? 0); eexists; (split; [exact Hstep|]); split_and!; try done.
  - left. done.
  - unfold record_fill. simpl.
    destruct (fill_keeps_identity (ms_order s) f) as (? & ? & ? & ? & _).
    done.
  - right. eexists. split; [done|]. by destruct side.
Qed.

Lemma same_identity_trans (o1 o2 o3 : Order) :
  same_identity o1 o2 → same_identity o2 o3 → same_identity o1 o3.
Proof. unfold same_identity. intros (?&?&?&?) (?&?&?&?). split_and!; congruence. Qed.

Lemma matchLoop_spec side levels : ∀ s,
  wf_book (book_of s) → Forall (λ lv, is_u32 lv.2) levels →
  ∃ s' new,
    matchLoop (matchStep side) levels s = Some s' ∧ wf_book (book_of s') ∧
    same_identity (ms_order s) (ms_order s') ∧
    ms_trades s' = ms_trades s ++ new ∧
    (Trade_price <$> new) `sublist_of` levels.*1 ∧
    (m_type (ms_order s) = LIMIT →
     Forall (λ t, ¬ beyond_limit side (m_price (ms_order s)) (Trade_price t)) new) ∧
    (∀ side' p',
       side' ≠ opposite side ∨
       (m_type (ms_order s) = LIMIT ∧
        beyond_limit side (m_price (ms_order s)) p') ∨
       p' ∉ levels.*1 →
       side_levels (book_of s') side' !! p' = side_levels (book_of s) side' !! p') ∧
    (∀ id, m_orderMap (book_of s) !! id = None →
           m_orderMap (book_of s') !! id = None).
Proof.
  induction levels as [|[p q] levels IH]; intros s Hwf Hall.
  { exists s, []. simpl. rewrite app_nil_r.
    split_and!; try done; by constructor. }
  apply Forall_cons in Hall as [Hq Hall]. simpl in Hq.
  destruct (matchStep_next side s p q Hwf Hq)
    as [Hb|(s1 & Hstep & Hwf1 & Hlim & Hid1 & Htr & Hfr1 & Hnone1)].
  { exists s, []. cbn [matchLoop]. rewrite Hb, app_nil_r.
    split_and!; try done; apply sublist_nil_l. }
  destruct (IH s1 Hwf1 Hall)
    as (s' & new & Hrun & Hwf' & Hid' & Htr' & Hsub & Hlim' & Hfr' & Hnone').
  destruct Hid1 as (Hi1 & Hi2 & Hi3 & Hi4).
  rewrite Hi3, Hi4 in Hlim', Hfr'.
  assert (Hident : same_identity (ms_order s) (ms_order s')).
  { by apply (same_identity_trans _ (ms_order s1)). }
  assert (Hframe : ∀ side' p',
       side' ≠ opposite side ∨
       (m_type (ms_order s) = LIMIT ∧
        beyond_limit side (m_price (ms_order s)) p') ∨
       p' ∉ ((p, q) :: levels).*1 →
       side_levels (book_of s') side' !! p' = side_levels (book_of s) side' !! p').
  { intros side' p' Hc. rewrite Hfr'.
    - apply Hfr1. destruct Hc as [?|[[Ht Hbey]|Hnin]]; [by left|right|right].
      + intros ->. by apply Hlim.
      + intros ->. apply Hnin. simpl. by left.
    - destruct Hc as [?|[?|Hnin]]; [by left|by right; left|right; right].
      intros Hin. apply Hnin. simpl. by right. }
  assert (Hnone : ∀ id, m_orderMap (book_of s) !! id = None →
                        m_orderMap (book_of s') !! id = None) by auto.
  destruct Htr as [Hsame|(t & Hadd & Hprice)].
  - exists s', new. cbn [matchLoop]. rewrite Hstep.
    split_and!; try done.
    + by rewrite Htr', Hsame.
    + rewrite fmap_cons. by apply sublist_cons.
  - exists s', (t :: new). cbn [matchLoop]. rewrite Hstep.
    split_and!; try done.
    + rewrite Htr', Hadd. by rewrite <- app_assoc.
    + rewrite !fmap_cons. simpl. rewrite <- Hprice. by apply sublist_skip.
    + intros Ht. constructor; [rewrite Hprice; by apply Hlim | by apply Hlim'].
Qed.

(** The snapshot a matching loop iterates over holds quantities of
    [uint32_t]. *)
Lemma snapshot_for_range b side :
  wf_book b → Forall (λ lv, is_u32 lv.2) (snapshot_for b side).
Proof.
  intros Hwf.
  assert (H : ∀ (l : list (Price * PriceLevel)) (m : gmap Price PriceLevel)
                (sd : Side), l ≡ₚ map_to_list m →
            map_Forall (level_ok (m_orderMap b) sd) m →
            Forall (λ lv, is_u32 lv.2) (take 100 (level_snapshot <$> l))).
  { intros l m sd Hp Hm. apply Forall_take, Forall_fmap, Forall_forall.
    intros [p lvl] Hin. simpl.
    apply (elem_of_perm_level l m p lvl Hp) in Hin.
    by destruct (Hm p lvl Hin) as (_ & ? & _). }
  destruct Hwf as [Hb Ha].
  destruct side; unfold snapshot_for, top_levels; simpl.
  - apply (H _ (m_asks b) SELL); [apply asks_in_order_perm|done].
  - apply (H _ (m_bids b) BUY); [apply bids_in_order_perm|done].
Qed.

Lemma opposing_in_order_sorted b side :
  StronglySorted (better_for side) (opposing_in_order b side).*1.
Proof.
  destruct side; simpl; [apply asks_in_order_sorted|apply bids_in_order_sorted].
Qed.

Lemma opposing_in_order_levels b side p lvl :
  (p, lvl) ∈ opposing_in_order b side ↔
  side_levels b (opposite side) !! p = Some lvl.
Proof.
  destruct side; simpl;
    [apply elem_of_perm_level, asks_in_order_perm
    |apply elem_of_perm_level, bids_in_order_perm].
Qed.

Lemma snapshot_for_levels b side :
  snapshot_for b side = take 100 (level_snapshot <$> opposing_in_order b side).
Proof. by destruct side. Qed.

(** The engine asks for 100 levels, which [reserve] accepts. *)
Lemma snapshot_for_getTop b :
  getTopAsks b 100 = Some (snapshot_for b BUY) ∧
  getTopBids b 100 = Some (snapshot_for b SELL).
Proof. split; reflexivity. Qed.

Lemma matchOrder_loop e order :
  matchOrder e order =
    matchLoop (matchStep (m_side order)) (snapshot_for (m_orderBook e) (m_side order))
              (mkMatchState e order []).
Proof. unfold matchOrder. by destruct (m_side order). Qed.
End matching.



(** Price priority for a MARKET order: asks of 5 at 1000 and 10 at 1005;
    a market buy of 12 takes the whole of the level at 1000, then 7 at
    1005. *)
Example market_buy_walks_the_book :
  ms_trades <$> matchOrder (mkEngine book_two_asks 0 0) (Order_new 9 BUY MARKET 0 12)
  = Some [mkTrade 9 0 1000 5; mkTrade 9 0 1005 7].
Proof. vm_compute. reflexivity. Qed.

(** Three bids of 50 at 100 (ids 1, 2, 3) and a market sell of 75: one trade
    of 75 at 100; order 1 is gone, order 2 keeps 25, order 3 is untouched. *)
Example market_sell_fifo :
  let r := processOrder (mkEngine book_three_bids 0 0) (Order_new 9 SELL MARKET 0 75) in
  ms_trades <$> r = Some [mkTrade 0 9 100 75] ∧
  (λ s, m_orderMap (book_of s) !! 1) <$> r = Some None ∧
  (λ s, getRemainingQty <$> m_orderMap (book_of s) !! 2) <$> r = Some (Some 25) ∧
  (λ s, m_orderMap (book_of s) !! 3) <$> r = Some (Some (Order_new 3 BUY LIMIT 100 50)).
Proof. vm_compute. split_and!; reflexivity. Qed.

Section matching_adds_nothing.
Implicit Types (b : OrderBook) (side : Side) (s : MatchState).

(** A fill adds no order to any level. *)
Lemma fillQuantityAtPrice_in_level b side (p : Price) qty f b' :
  wf_book b → is_u32 qty →
  fillQuantityAtPrice b side p qty = Some (f, b') →
  ∀ side' (p' : Price) id, in_level b' side' p' id → in_level b side' p' id.
Proof.
  intros Hwf Hq Hrun side' p' id.
  destruct (fillQuantityAtPrice_total b side p qty Hwf Hq)
    as (f0 & b0 & Hrun0 & _ & Hframe & _).
  rewrite Hrun in Hrun0. injection Hrun0 as <- <-.
  destruct (decide (side' = side ∧ p' = p)) as [[-> ->]|Hne].
  2:{ unfold in_level. rewrite Hframe; [done|].
      destruct (decide (side' = side)); [right|left]; naive_solver. }
  unfold in_level.
  destruct (side_levels b side !! p) as [lvl|] eqn:Hl.
  2:{ rewrite fillQuantityAtPrice_no_level in Hrun by done.
      injection Hrun as _ <-. by rewrite Hl. }
  destruct (fillQuantityAtPrice_spec b side p qty lvl Hwf Hq Hl)
    as (consumed & kept & store' & Heq & Hsplit & _).
  rewrite Heq in Hrun. injection Hrun as _ <-.
  rewrite side_levels_set_orderMap, side_levels_set_same, levels_after_fill_lookup.
  rewrite decide_True by done.
  destruct (_ || _); [done|]. simpl. intros Hin.
  rewrite Hsplit. apply elem_of_app. by right.
Qed.

(** Matching adds no order to any level. *)
Lemma matchLoop_in_level side (levels : list (Price * Quantity)) :
  ∀ (s s' : MatchState),
  wf_book (book_of s) → Forall (λ lv, is_u32 lv.2) levels →
  matchLoop (matchStep side) levels s = Some s' →
  ∀ side' (p' : Price) id,
    in_level (book_of s') side' p' id → in_level (book_of s) side' p' id.
Proof.
  induction levels as [|[p q] levels IH]; intros s s' Hwf Hall Hrun side' p' id Hin.
  { simpl in Hrun. by injection Hrun as <-. }
  apply Forall_cons in Hall as [Hq Hall]. simpl in Hq. cbn [matchLoop] in Hrun.
  destruct (matchStep_unfold side s p q) as [Hb|[_ Heq]].
  { rewrite Hb in Hrun. by injection Hrun as <-. }
  rewrite Heq in Hrun.
  assert (Hm : is_u32 (Z.min (getRemainingQty (ms_order s)) q)).
  { pose proof (remaining_range (ms_order s)). unfold is_u32 in *. lia. }
  destruct (fillQuantityAtPrice _ _ _ _) as [[f b']|] eqn:Hfill; [|done].
  pose proof (fillQuantityAtPrice_wf _ _ _ _ _ _ Hwf Hm Hfill) as Hwf'.
  apply (fillQuantityAtPrice_in_level _ _ _ _ _ _ Hwf Hm Hfill).
  destruct (f =? 0); (refine (IH _ s' _ Hall Hrun _ _ _ Hin); exact Hwf').
Qed.
End matching_adds_nothing.

(** C6, as the code has it.  [processOrder] on a well-formed book always
    returns, with the trades and the order of the matching phase, and
    matching adds no order to the book: no id enters the id index and no
    level gains an order.  A LIMIT order with a positive remaining quantity
    after matching whose id is not in the id index at that point, as is
    every id that was not in the index before the call, is put in the id
    index and at the back of the level of its price on its side.  A LIMIT
    order with nothing remaining and a MARKET order, whatever remains of it
    and whatever its id, leave the book as matching left it; a MARKET order
    of an id that was not in the index is in no level nor in the index. *)
Theorem processOrder_rests_limit_only (e : MatchingEngine) (order : Order) :
  wf_book (m_orderBook e) →
  ∃ m s,
    matchOrder e order = Some m ∧ processOrder e order = Some s ∧
    ms_order s = ms_order m ∧ ms_trades s = ms_trades m ∧
    (∀ id, m_orderMap (m_orderBook e) !! id = None →
           m_orderMap (book_of m) !! id = None) ∧
    (∀ side (p : Price) id,
       in_level (book_of m) side p id → in_level (m_orderBook e) side p id) ∧
    (m_type order = LIMIT → 0 < getRemainingQty (ms_order m) →
     m_orderMap (book_of m) !! m_id order = None →
     m_orderMap (book_of s) !! m_id order = Some (ms_order m) ∧
     ∃ lvl, side_levels (book_of s) (m_side order) !! m_price order = Some lvl ∧
            last (orders lvl) = Some (m_id order)) ∧
    (m_type order = LIMIT → getRemainingQty (ms_order m) = 0 →
     book_of s = book_of m) ∧
    (m_type order = MARKET →
     book_of s = book_of m ∧
     (m_orderMap (m_orderBook e) !! m_id order = None →
      m_orderMap (book_of s) !! m_id order = None ∧
      ∀ side p, ¬ in_level (book_of s) side p (m_id order))).
Proof.
  intros Hwf.
  destruct (matchLoop_spec (m_side order)
              (snapshot_for (m_orderBook e) (m_side order))
              (mkMatchState e order []) Hwf
              (snapshot_for_range (m_orderBook e) (m_side order) Hwf))
    as (m & new & Hrun & Hwfm & (Hid & Hside & Htype & Hprice) & _ & _ & _ & _ & Hnone).
  simpl in Hid, Hside, Htype, Hprice, Hnone.
  pose proof (matchLoop_in_level (m_side order) _ (mkMatchState e order []) m
                Hwf (snapshot_for_range (m_orderBook e) (m_side order) Hwf) Hrun)
    as Hlevels.
  rewrite <- matchOrder_loop in Hrun.
  pose proof (remaining_range (ms_order m)) as Hr. unfold is_u32 in Hr.
  exists m. unfold processOrder. rewrite Hrun.
  destruct (decide (m_type order = LIMIT)) as [Ht|Ht].
  - rewrite bool_decide_eq_true_2 by congruence.
    destruct (Z.gtb_spec (getRemainingQty (ms_order m)) 0) as [Hpos|Hzero]; simpl.
    + eexists. split_and!; try done; [|lia|congruence].
      intros _ _ Hfree. rewrite <- Hid, <- Hside, <- Hprice. rewrite <- Hid in Hfree.
      unfold book_of in *. simpl. unfold addOrder. rewrite Hfree. simpl.
      rewrite addToBook_orderMap. simpl.
      split; [apply lookup_insert_eq|].
      rewrite addToBook_level.
      eexists. split; [done|]. simpl. apply last_snoc.
    + exists m. split_and!; try done; [lia|congruence].
  - rewrite bool_decide_eq_false_2 by congruence. rewrite andb_false_r.
    exists m. split_and!; try done.
    intros _. split; [done|]. intros Hfresh. specialize (Hnone _ Hfresh).
    split; [done|].
    intros side p. unfold in_level.
    destruct (side_levels (book_of m) side !! p) as [lvl|] eqn:Hl; [|by intros []].
    by apply (wf_book_fresh_absent (book_of m) _ side p lvl).
Qed.

(** An order whose id is that of a resting ask it consumes: the ask, of 5
    at 1000, is filled whole and leaves the index, so the remainder of the
    limit buy of 10 at 1000 rests under the same id. *)
Lemma processOrder_rests_limit_only_witness :
  let b := book_add empty_book (Order_new 3 SELL LIMIT 1000 5) in
  ∃ s, processOrder (mkEngine b 0 0) (Order_new 3 BUY LIMIT 1000 10) = Some s ∧
       ms_trades s = [mkTrade 3 0 1000 5] ∧
       m_orderMap (book_of s) !! 3 = Some (mkOrder 3 BUY LIMIT 1000 10 5 PARTIAL) ∧
       ∃ lvl, m_bids (book_of s) !! 1000 = Some lvl ∧ last (orders lvl) = Some 3.
Proof.
  intros b.
  assert (Hwf : wf_book (m_orderBook (mkEngine b 0 0)))
    by (apply (bool_decide_unpack _); vm_compute; exact I).
  destruct (processOrder_rests_limit_only (mkEngine b 0 0)
              (Order_new 3 BUY LIMIT 1000 10) Hwf)
    as (m & s & Hm & Hs & _ & Htr & _ & _ & Hlimit & _ & _).
  vm_compute in Hm. injection Hm as <-.
  destruct (Hlimit eq_refl) as [Hstore Hlvl];
    [vm_compute; reflexivity | vm_compute; reflexivity |].
  exists s. split_and!; [exact Hs | exact Htr | exact Hstore | exact Hlvl].
Defined.

(** C6 as stated fails for an order whose id is already in the id index:
    [addOrder] refuses it and [processOrder] ignores the refusal, so the
    LIMIT order, with all of its quantity remaining, is not in the book. *)
Lemma processOrder_drops_duplicate_id :
  let order := Order_new 3 BUY LIMIT 995 4 in
  let r := processOrder (mkEngine book_two_asks 0 0) order in
  ms_order <$> r = Some order ∧
  m_type order = LIMIT ∧ getRemainingQty order = 4 ∧
  book_of <$> r = Some book_two_asks ∧
  m_bids book_two_asks !! 995 = None ∧
  m_orderMap book_two_asks !! 3 = Some (Order_new 3 BUY LIMIT 990 7).
Proof. vm_compute. split_and!; reflexivity. Qed.

(** ** The invariant holds of every book the operations build *)


Section invariant.
Implicit Types (b : OrderBook) (o : Order) (id : OrderId) (l : list OrderId).

Lemma wf_book_empty : wf_book empty_book.
Proof. split; apply map_Forall_empty. Qed.

Lemma store_ok_empty : store_ok empty_book.
Proof. apply map_Forall_empty. Qed.

Lemma remove_first_sublist id l : remove_first id l `sublist_of` l.
Proof.
  induction l as [|x l IH]; simpl; [constructor|].
  destruct (decide (x = id)); [by apply sublist_cons | by apply sublist_skip].
Qed.

(** Changing the record of an order that is in no level. *)
Lemma set_orderMap_wf b id o' :
  wf_book b → (∀ side p, ¬ in_level b side p id) →
  wf_book (set_orderMap b (<[id := o']> (m_orderMap b))).
Proof.
  intros Hwf Habs. apply wf_book_side. intros side p lvl.
  rewrite side_levels_set_orderMap. intros Hl. simpl.
  apply (level_ok_frame (m_orderMap b)); [|by apply (wf_book_level b)].
  intros order Hin. apply lookup_insert_ne. intros <-.
  apply (Habs side p). unfold in_level. by rewrite Hl.
Qed.

Lemma removeFromBook_wf b id o : wf_book b → wf_book (removeFromBook b id o).
Proof.
  intros Hwf. unfold removeFromBook.
  destruct (side_levels b (m_side o) !! m_price o) as [lvl|] eqn:Hl; [|done].
  apply wf_book_side. intros side.
  rewrite orderMap_set_side_levels.
  destruct (decide (side = m_side o)) as [->|Hne].
  2:{ rewrite side_levels_set_other by done. by apply wf_book_side. }
  rewrite side_levels_set_same.
  pose proof (proj1 (wf_book_side b) Hwf (m_side o)) as Hside.
  destruct (isEmpty _) eqn:Hemp; [by apply map_Forall_delete|].
  apply map_Forall_insert_2; [|done].
  destruct (Hside _ _ Hl) as (Hne & Ht & Hnd & Hall).
  pose proof (remove_first_sublist id (orders lvl)) as Hsub.
  unfold isEmpty in Hemp.
  rewrite PriceLevel_removeOrder_orders in Hemp.
  split_and!.
  - rewrite PriceLevel_removeOrder_orders. by destruct (remove_first id (orders lvl)).
  - unfold PriceLevel_removeOrder. destruct (decide (id ∈ orders lvl)); [|done].
    apply wrap32_range.
  - rewrite PriceLevel_removeOrder_orders. by apply (sublist_NoDup _ (orders lvl)).
  - rewrite PriceLevel_removeOrder_orders. rewrite Forall_forall in Hall |- *.
    intros order Hin. apply Hall. by apply (elem_of_sublist _ _ _ Hin).
Qed.

Lemma addToBook_wf b id o :
  wf_book b → m_orderMap b !! id = Some o → m_id o = id → order_ok o →
  (∀ side p, ¬ in_level b side p id) →
  wf_book (addToBook b id o).
Proof.
  intros Hwf Ho Hid Hok Habs. unfold addToBook.
  apply wf_book_side. intros side. rewrite orderMap_set_side_levels.
  destruct (decide (side = m_side o)) as [->|Hne].
  2:{ rewrite side_levels_set_other by done. by apply wf_book_side. }
  rewrite side_levels_set_same.
  pose proof (proj1 (wf_book_side b) Hwf (m_side o)) as Hside.
  apply map_Forall_insert_2; [|done].
  assert (Hmem : member_at (m_orderMap b) (m_side o) (m_price o) id).
  { unfold member_at. by rewrite Ho. }
  unfold PriceLevel_addOrder, level_ok. simpl.
  destruct (side_levels b (m_side o) !! m_price o) as [lvl|] eqn:Hl; simpl.
  - destruct (Hside _ _ Hl) as (_ & _ & Hnd & Hall).
    assert (Hnin : id ∉ orders lvl).
    { intros Hin. apply (Habs (m_side o) (m_price o)). unfold in_level.
      by rewrite Hl. }
    split_and!.
    + by destruct (orders lvl).
    + apply wrap32_range.
    + apply NoDup_app. split_and!; [done| |apply NoDup_singleton].
      intros x Hx ->%list_elem_of_singleton. done.
    + apply Forall_app. split; [done|]. by apply Forall_singleton.
  - split_and!; [done | apply wrap32_range | apply NoDup_singleton |].
    by apply Forall_singleton.
Qed.

Lemma addOrder_wf b order : wf_book b → order_ok order → wf_book (addOrder b order).2.
Proof.
  intros Hwf Hok. unfold addOrder.
  destruct (m_orderMap b !! m_id order) eqn:Hfresh; [done|]. simpl.
  assert (Habs : ∀ side p, ¬ in_level b side p (m_id order)).
  { intros side p. unfold in_level.
    destruct (side_levels b side !! p) as [lvl|] eqn:Hl; [|by intros []].
    by apply (wf_book_fresh_absent b _ side p lvl). }
  apply addToBook_wf.
  - by apply set_orderMap_wf.
  - simpl. apply lookup_insert_eq.
  - done.
  - done.
  - intros side p. unfold in_level. rewrite side_levels_set_orderMap.
    apply Habs.
Qed.

Lemma cancelOrder_wf b id : wf_book b → wf_book (cancelOrder b id).2.
Proof.
  intros Hwf. unfold cancelOrder.
  destruct (m_orderMap b !! id) as [o|] eqn:Ho; [|done].
  destruct (isActive o); [|done]. simpl.
  apply set_orderMap_wf; [by apply removeFromBook_wf|].
  intros side p. by apply removeFromBook_absent.
Qed.

Lemma store_ok_insert b b' id o :
  m_orderMap b' = <[id := o]> (m_orderMap b) →
  store_ok b → m_id o = id → order_ok o → store_ok b'.
Proof.
  unfold store_ok. intros -> Hs Hid Hok. by apply map_Forall_insert_2.
Qed.

Lemma store_ok_same b b' : m_orderMap b' = m_orderMap b → store_ok b → store_ok b'.
Proof. unfold store_ok. by intros ->. Qed.

Lemma cancel_keeps o :
  m_id (cancel o) = m_id o ∧ m_side (cancel o) = m_side o ∧
  m_price (cancel o) = m_price o ∧ (order_ok o → order_ok (cancel o)).
Proof. unfold cancel. by destruct (isActive o). Qed.

Lemma modifyPrice_order_ok o newPrice :
  order_ok o → order_ok (modifyPrice o newPrice).2.
Proof.
  unfold modifyPrice.
  by destruct (negb (bool_decide (m_type o = LIMIT)) || (m_filledQty o >? 0)).
Qed.

Lemma modifyQuantity_keeps o q :
  is_u32 q → order_ok o →
  let o' := (modifyQuantity o q).2 in
  m_id o' = m_id o ∧ m_side o' = m_side o ∧ m_price o' = m_price o ∧ order_ok o'.
Proof.
  intros Hq Hok. unfold modifyQuantity.
  destruct (Z.ltb_spec q (m_filledQty o)); simpl; [done|].
  split_and!; try done. destruct Hok as [? ?]. unfold is_u32 in Hq.
  unfold order_ok. simpl. lia.
Qed.

Lemma addOrder_store_ok b order :
  store_ok b → order_ok order → store_ok (addOrder b order).2.
Proof.
  intros Hs Hok. unfold addOrder.
  destruct (m_orderMap b !! m_id order); [done|]. simpl.
  eapply store_ok_insert; [|exact Hs|done|done].
  by rewrite addToBook_orderMap.
Qed.

Lemma cancelOrder_store_ok b id : store_ok b → store_ok (cancelOrder b id).2.
Proof.
  intros Hs. unfold cancelOrder.
  destruct (m_orderMap b !! id) as [o|] eqn:Ho; [|done].
  destruct (isActive o); [|done]. simpl.
  destruct (Hs id o Ho) as [Hid Hok].
  destruct (cancel_keeps o) as (Hid' & _ & _ & Hok').
  eapply store_ok_insert; [|exact Hs| |by apply Hok'].
  - simpl. by rewrite removeFromBook_orderMap.
  - congruence.
Qed.

Lemma modifyOrderPrice_inv b id newPrice :
  wf_book b → store_ok b →
  wf_book (modifyOrderPrice b id newPrice).2 ∧
  store_ok (modifyOrderPrice b id newPrice).2.
Proof.
  intros Hwf Hs.
  destruct (m_orderMap b !! id) as [o|] eqn:Ho.
  2:{ unfold modifyOrderPrice. by rewrite Ho. }
  destruct (isActive o) eqn:Hact.
  2:{ unfold modifyOrderPrice. by rewrite Ho, Hact. }
  rewrite (modifyOrderPrice_active b id o newPrice Ho Hact). simpl.
  destruct (Hs id o Ho) as [Hid Hok].
  pose proof (modifyPrice_spec o newPrice) as Hspec.
  pose proof (modifyPrice_order_ok o newPrice Hok) as Hok'.
  destruct (modifyPrice o newPrice) as [ok o']. simpl in *.
  destruct Hspec as (Hid' & _).
  assert (Habs : ∀ side p, ¬ in_level (removeFromBook b id o) side p id).
  { intros side p. by apply removeFromBook_absent. }
  split.
  - apply addToBook_wf.
    + apply set_orderMap_wf; [by apply removeFromBook_wf|done].
    + simpl. apply lookup_insert_eq.
    + congruence.
    + done.
    + intros side p. unfold in_level. rewrite side_levels_set_orderMap.
      apply Habs.
  - eapply store_ok_insert; [|exact Hs| |exact Hok'].
    + rewrite addToBook_orderMap. simpl. by rewrite removeFromBook_orderMap.
    + congruence.
Qed.

Lemma modifyOrderQuantity_inv b id q :
  wf_book b → store_ok b → is_u32 q →
  wf_book (modifyOrderQuantity b id q).2 ∧
  store_ok (modifyOrderQuantity b id q).2.
Proof.
  intros Hwf Hs Hq. unfold modifyOrderQuantity.
  destruct (m_orderMap b !! id) as [o|] eqn:Ho; [|done].
  destruct (isActive o); [|done].
  destruct (Hs id o Ho) as [Hid Hok].
  pose proof (modifyQuantity_keeps o q Hq Hok) as Hkeep.
  destruct (modifyQuantity o q) as [ok o']. simpl in Hkeep.
  destruct Hkeep as (Hid' & Hside' & Hprice' & Hok').
  destruct ok; [|done]. simpl.
  split.
  2:{ eapply store_ok_insert; [|exact Hs| |exact Hok'].
      - by rewrite orderMap_set_side_levels.
      - congruence. }
  assert (Hmem : ∀ side p x,
            member_at (m_orderMap b) side p x →
            member_at (<[id := o']> (m_orderMap b)) side p x).
  { intros side p x. unfold member_at.
    destruct (decide (x = id)) as [->|Hne].
    - rewrite Ho, lookup_insert_eq. intros (_ & _ & <- & <-).
      split_and!; congruence.
    - by rewrite lookup_insert_ne. }
  assert (Hlvl : ∀ side p lvl, side_levels b side !! p = Some lvl →
            level_ok (<[id := o']> (m_orderMap b)) side p lvl).
  { intros side p lvl Hl.
    destruct (wf_book_level b side p lvl Hwf Hl) as (? & ? & ? & Hall).
    split_and!; try done. eapply Forall_impl; [exact Hall|]. apply Hmem. }
  apply wf_book_side. intros side. rewrite orderMap_set_side_levels. simpl.
  destruct (decide (side = m_side o')) as [->|Hne].
  2:{ rewrite side_levels_set_other, side_levels_set_orderMap by done.
      intros p lvl. apply Hlvl. }
  rewrite side_levels_set_same, side_levels_set_orderMap.
  unfold add_to_total.
  destruct (side_levels b (m_side o') !! m_price o') as [lvl|] eqn:Hl.
  2:{ intros p lvl. apply Hlvl. }
  apply map_Forall_insert_2; [|intros p x; apply Hlvl].
  destruct (Hlvl _ _ _ Hl) as (? & ? & ? & ?).
  split_and!; try done. apply wrap32_range.
Qed.

Lemma fillQuantityAtPrice_range b side p qty f b' :
  wf_book b → is_u32 qty →
  fillQuantityAtPrice b side p qty = Some (f, b') → is_u32 f.
Proof.
  intros Hwf Hq Hrun.
  destruct (side_levels b side !! p) as [lvl|] eqn:Hl.
  2:{ rewrite fillQuantityAtPrice_no_level in Hrun by done.
      injection Hrun as <- _. unfold is_u32. lia. }
  destruct (fillQuantityAtPrice_spec b side p qty lvl Hwf Hq Hl)
    as (consumed & kept & store' & Heq & _).
  rewrite Heq in Hrun. injection Hrun as <- _.
  pose proof (level_remaining_nonneg (m_orderMap b) (orders lvl)).
  unfold is_u32 in *. lia.
Qed.

Lemma fillQuantityAtPrice_store_ok b side p qty f b' :
  wf_book b → store_ok b → is_u32 qty →
  fillQuantityAtPrice b side p qty = Some (f, b') → store_ok b'.
Proof.
  intros Hwf Hs Hq Hrun.
  destruct (side_levels b side !! p) as [lvl|] eqn:Hl.
  2:{ rewrite fillQuantityAtPrice_no_level in Hrun by done.
      by injection Hrun as _ <-. }
  destruct (fillQuantityAtPrice_spec b side p qty lvl Hwf Hq Hl)
    as (consumed & kept & store' & Heq & Hsplit & Hgone & Hout & Htail & Hsum & Hhd).
  rewrite Heq in Hrun. injection Hrun as _ <-.
  intros id o' Ho'. simpl in Ho'.
  destruct (decide (id ∈ orders lvl)) as [Hin|Hnin].
  2:{ rewrite Hout in Ho' by done. by apply Hs. }
  rewrite Hsplit in Hin. apply elem_of_app in Hin as [Hin|Hin].
  { rewrite Hgone in Ho' by done. done. }
  destruct kept as [|h t]; [by apply elem_of_nil in Hin|].
  apply elem_of_cons in Hin as [->|Hin].
  2:{ rewrite Htail in Ho' by done. by apply Hs. }
  destruct (wf_book_level b side p lvl Hwf Hl) as (_ & _ & _ & Hall).
  rewrite Hsplit in Hall. apply Forall_app in Hall as [_ Hall].
  apply Forall_cons in Hall as [Hh _].
  destruct (member_at_lookup _ _ _ _ Hh) as (o & Ho & Hid & Hok & _).
  destruct (Hhd h o eq_refl Ho) as [Hst Hd]. rewrite Hst in Ho'.
  injection Ho' as <-.
  destruct (Z.eqb_spec (Z.min qty (level_remaining (m_orderMap b) (orders lvl))
                        - level_remaining (m_orderMap b) consumed) 0); [done|].
  destruct (fill_keeps_identity o
              (Z.min qty (level_remaining (m_orderMap b) (orders lvl))
               - level_remaining (m_orderMap b) consumed)) as (-> & _).
  split; [done|]. apply fill_order_ok; [done|].
  pose proof (remaining_range o) as Hr. unfold is_u32 in *. lia.
Qed.

Lemma matchStep_inv side (s s' : MatchState) (p : Price) (q : Quantity) :
  wf_book (book_of s) → store_ok (book_of s) → order_ok (ms_order s) → is_u32 q →
  matchStep side s (p, q) = Some (Next s') →
  wf_book (book_of s') ∧ store_ok (book_of s') ∧ order_ok (ms_order s').
Proof.
  intros Hwf Hs Hok Hq Hstep.
  destruct (matchStep_unfold side s p q) as [Hb|[_ Heq]]; [congruence|].
  rewrite Heq in Hstep.
  assert (Hm : is_u32 (Z.min (getRemainingQty (ms_order s)) q)).
  { pose proof (remaining_range (ms_order s)). unfold is_u32 in *. lia. }
  destruct (fillQuantityAtPrice _ _ _ _) as [[f b']|] eqn:Hfill; [|done].
  pose proof (fillQuantityAtPrice_wf _ _ _ _ _ _ Hwf Hm Hfill) as Hwf'.
  pose proof (fillQuantityAtPrice_store_ok _ _ _ _ _ _ Hwf Hs Hm Hfill) as Hs'.
  pose proof (fillQuantityAtPrice_range _ _ _ _ _ _ Hwf Hm Hfill) as Hf.
  destruct (f =? 0); injection Hstep as <-; simpl; split_and!; try done.
  by apply fill_order_ok.
Qed.

Lemma matchLoop_inv side levels : ∀ s s',
  wf_book (book_of s) → store_ok (book_of s) → order_ok (ms_order s) →
  Forall (λ lv, is_u32 lv.2) levels →
  matchLoop (matchStep side) levels s = Some s' →
  wf_book (book_of s') ∧ store_ok (book_of s') ∧ order_ok (ms_order s').
Proof.
  induction levels as [|[p q] levels IH]; intros s s' Hwf Hs Hok Hall Hrun.
  { simpl in Hrun. by injection Hrun as <-. }
  apply Forall_cons in Hall as [Hq Hall]. cbn [matchLoop] in Hrun.
  destruct (matchStep side s (p, q)) as [[|s1]|] eqn:Hstep; [| |done].
  - by injection Hrun as <-.
  - destruct (matchStep_inv side s s1 p q Hwf Hs Hok Hq Hstep) as (? & ? & ?).
    by apply (IH s1 s').
Qed.

Lemma processOrder_inv e order s :
  wf_book (m_orderBook e) → store_ok (m_orderBook e) → order_ok order →
  processOrder e order = Some s →
  wf_book (book_of s) ∧ store_ok (book_of s).
Proof.
  intros Hwf Hs Hok. unfold processOrder.
  destruct (matchOrder e order) as [m|] eqn:Hm; [|done].
  rewrite matchOrder_loop in Hm.
  destruct (matchLoop_inv (m_side order) _ (mkMatchState e order []) m
              Hwf Hs Hok (snapshot_for_range _ _ Hwf) Hm) as (Hwfm & Hsm & Hokm).
  destruct (_ && _); intros [= <-]; [|done].
  unfold book_of. simpl. split; [by apply addOrder_wf|by apply addOrder_store_ok].
Qed.

(** Every book the operations build is well formed. *)
Lemma reachable_inv b : reachable b → wf_book b ∧ store_ok b.
Proof.
  induction 1 as [|b _ _|b order _ [IHw IHs] Hok|b id _ [IHw IHs]
                  |b id newPrice _ [IHw IHs]|b id q _ [IHw IHs] Hq
                  |b side p q f b' _ [IHw IHs] Hq Hrun
                  |e order s _ [IHw IHs] Hok Hrun].
  - split; [apply wf_book_empty|apply store_ok_empty].
  - split; [apply wf_book_empty|apply store_ok_empty].
  - split; [by apply addOrder_wf|by apply addOrder_store_ok].
  - split; [by apply cancelOrder_wf|by apply cancelOrder_store_ok].
  - by apply modifyOrderPrice_inv.
  - by apply modifyOrderQuantity_inv.
  - split; [by eapply fillQuantityAtPrice_wf|by eapply fillQuantityAtPrice_store_ok].
  - by apply (processOrder_inv e order s).
Qed.
End invariant.

(** ** A session

    Empty book; a limit buy of 100 at 100 (id 1) rests; a limit sell of 60
    at 100 (id 2) trades 60 at 100 against it and does not rest; the buy
    keeps 40; cancelling it empties both sides, while its record stays in
    the id index. *)
Example session_buy_sell_cancel :
  let e0 := mkEngine empty_book 0 0 in
  let r1 := processOrder e0 (Order_new 1 BUY LIMIT 100 100) in
  let e1 := from_option ms_engine e0 r1 in
  let r2 := processOrder e1 (Order_new 2 SELL LIMIT 100 60) in
  let e2 := from_option ms_engine e0 r2 in
  let b3 := (cancelOrder (m_orderBook e2) 1).2 in
  getBestBid (m_orderBook e1) = Some 100 ∧
  getTotalOrderCount (m_orderBook e1) = 1%nat ∧
  ms_trades <$> r2 = Some [mkTrade 0 2 100 60] ∧
  getRemainingQty <$> getOrder (m_orderBook e2) 1 = Some 40 ∧
  getBestAsk (m_orderBook e2) = None ∧
  (cancelOrder (m_orderBook e2) 1).1 = true ∧
  getBestBid b3 = None ∧ getBidLevelCount b3 = 0%nat ∧
  getTotalOrderCount b3 = 1%nat.
Proof. vm_compute. split_and!; reflexivity. Qed.

(** * Further properties of the code *)

(** ** Order *)

(** [Order::fill] succeeds exactly when the quantity is within what
    remains of the order.  It then adds the quantity to the fill and takes
    it from what remains, touches nothing else but the status, and leaves
    the order FILLED exactly when nothing remains; an over-fill returns
    false and changes nothing. *)
Theorem fill_exact (o : Order) (qty : Quantity) :
  order_ok o → is_u32 qty →
  let o' := (fill o qty).2 in
  ((fill o qty).1 = true ↔ qty <= getRemainingQty o) ∧
  ((fill o qty).1 = false → o' = o) ∧
  ((fill o qty).1 = true →
   m_filledQty o' = m_filledQty o + qty ∧
   getRemainingQty o' = getRemainingQty o - qty ∧
   m_quantity o' = m_quantity o ∧
   (getRemainingQty o' = 0 → m_status o' = FILLED) ∧
   (0 < m_filledQty o' < m_quantity o' → m_status o' = PARTIAL) ∧
   (m_filledQty o' = 0 → 0 < m_quantity o' → m_status o' = m_status o)).
Proof.
  intros Hok Hq o'. subst o'.
  pose proof (remaining_exact o Hok) as Hr.
  unfold is_u32 in Hq.
  destruct (Z.le_gt_cases qty (getRemainingQty o)) as [Hle|Hgt].
  - rewrite (fill_ok_spec o qty Hok) by lia. simpl.
    set (o' := mkOrder _ _ _ _ _ _ _).
    assert (Hok' : order_ok o').
    { destruct Hok as [? ?]. unfold order_ok. subst o'. simpl. lia. }
    rewrite (remaining_exact o' Hok'). subst o'. simpl.
    split_and!; try done; intros _; split_and!; try lia.
    + intros Hz.
      destruct (Z.eqb_spec (m_filledQty o + qty) (m_quantity o)); [done|lia].
    + intros [Hpos Hlt].
      destruct (Z.eqb_spec (m_filledQty o + qty) (m_quantity o)); [lia|].
      destruct (Z.gtb_spec (m_filledQty o + qty) 0); [done|lia].
    + intros Hz Hpos.
      destruct (Z.eqb_spec (m_filledQty o + qty) (m_quantity o)); [lia|].
      destruct (Z.gtb_spec (m_filledQty o + qty) 0); [lia|done].
  - unfold fill. destruct (Z.gtb_spec qty (getRemainingQty o)); [|lia]. simpl.
    split_and!; try done. split; [done|lia].
Qed.

Lemma fill_exact_witness :
  fill (Order_new 1 BUY LIMIT 100 100) 30 =
    (true, mkOrder 1 BUY LIMIT 100 100 30 PARTIAL) ∧
  getRemainingQty (fill (Order_new 1 BUY LIMIT 100 100) 30).2 = 70.
Proof.
  assert (Hok : order_ok (Order_new 1 BUY LIMIT 100 100))
    by (unfold order_ok; simpl; lia).
  assert (Hq : is_u32 30) by (unfold is_u32; lia).
  destruct (fill_exact (Order_new 1 BUY LIMIT 100 100) 30 Hok Hq)
    as (_ & _ & Hs).
  destruct (Hs eq_refl) as (_ & Hrem & _).
  split; [reflexivity | exact Hrem].
Defined.

(** Fills accumulate: two fills in a row that both fit are one fill of
    the sum. *)
Theorem fill_accumulates (o : Order) (q1 q2 : Quantity) :
  order_ok o → 0 <= q1 → 0 <= q2 → q1 + q2 <= getRemainingQty o →
  fill o q1 = (true, (fill o q1).2) ∧
  fill (fill o q1).2 q2 = fill o (q1 + q2).
Proof.
  intros Hok H1 H2 Hsum.
  pose proof (remaining_exact o Hok) as Hr.
  rewrite (fill_ok_spec o q1 Hok) by lia.
  rewrite (fill_ok_spec o (q1 + q2) Hok) by lia. simpl.
  set (o1 := mkOrder _ _ _ _ _ (m_filledQty o + q1) _).
  assert (Hok1 : order_ok o1).
  { destruct Hok as [? ?]. unfold order_ok. subst o1. simpl. lia. }
  split; [done|].
  rewrite (fill_ok_spec o1 q2 Hok1)
    by (rewrite (remaining_exact o1 Hok1); subst o1; simpl; lia).
  subst o1. simpl. rewrite Z.add_assoc. do 2 f_equal.
  destruct (Z.eqb_spec (m_filledQty o + q1 + q2) (m_quantity o)); [done|].
  destruct (Z.gtb_spec (m_filledQty o + q1 + q2) 0); [done|].
  destruct (Z.eqb_spec (m_filledQty o + q1) (m_quantity o)); [lia|].
  destruct (Z.gtb_spec (m_filledQty o + q1) 0); [|done].
  destruct Hok as [? ?]. lia.
Qed.

Lemma fill_accumulates_witness :
  fill (fill (Order_new 1 BUY LIMIT 100 100) 30).2 70 =
  (true, mkOrder 1 BUY LIMIT 100 100 100 FILLED).
Proof.
  assert (Hok : order_ok (Order_new 1 BUY LIMIT 100 100))
    by (unfold order_ok; simpl; lia).
  destruct (fill_accumulates (Order_new 1 BUY LIMIT 100 100) 30 70 Hok)
    as [_ H]; [lia | lia | vm_compute; discriminate |].
  rewrite H. reflexivity.
Defined.

(** ** OrderBook: market data *)

Section market_data.
Implicit Types (b : OrderBook) (m : gmap Price PriceLevel)
  (l : list (Price * PriceLevel)).

(** The head of a strictly sorted enumeration of the keys of a map is the
    extreme key. *)
Lemma head_of_sorted_keys (R : relation Price) l m :
  l ≡ₚ map_to_list m → StronglySorted R l.*1 →
  (fst <$> head l = None ↔ m = ∅) ∧
  (∀ p : Price, fst <$> head l = Some p →
        is_Some (m !! p) ∧ ∀ p' : Price, is_Some (m !! p') → p' = p ∨ R p p').
Proof.
  intros Hp Hs. split.
  - destruct l as [|x l]; simpl.
    + split; [intros _|done]. apply map_to_list_empty_iff.
      by apply Permutation_nil_l in Hp.
    + split; [done|]. intros ->. rewrite map_to_list_empty in Hp.
      by apply Permutation_nil_r in Hp.
  - intros p Hhead. destruct l as [|[p0 x] l]; [done|].
    simpl in Hhead. injection Hhead as ->. split.
    + apply (elem_of_keys_perm _ m p Hp). simpl. by left.
    + intros p' Hin. apply (elem_of_keys_perm _ m p' Hp) in Hin.
      simpl in Hin, Hs. apply StronglySorted_inv in Hs as [_ Hall].
      apply elem_of_cons in Hin as [->|Hin]; [by left|right].
      rewrite Forall_forall in Hall. by apply Hall.
Qed.

(** The first [n] entries of a strictly sorted enumeration of a map. *)
Lemma top_of_sorted_levels (R : relation Price) l m n :
  l ≡ₚ map_to_list m → StronglySorted R l.*1 →
  let top := take n (level_snapshot <$> l) in
  length top = min n (size m) ∧
  StronglySorted R top.*1 ∧
  (∀ (p : Price) q, (p, q) ∈ top →
     ∃ lvl, m !! p = Some lvl ∧ totalQuantity lvl = q) ∧
  (∀ p p' : Price, p ∈ top.*1 → is_Some (m !! p') → p' ∉ top.*1 → R p p').
Proof.
  intros Hp Hs top.
  assert (Hkeys : top.*1 = take n l.*1).
  { subst top. rewrite fmap_take, <- list_fmap_compose. done. }
  split_and!.
  - subst top. rewrite length_take, length_fmap, Hp, length_map_to_list. done.
  - rewrite Hkeys. apply (StronglySorted_sublist _ _ l.*1); [apply sublist_take|done].
  - intros p q Hin. subst top.
    apply (elem_of_sublist _ (level_snapshot <$> l)) in Hin; [|apply sublist_take].
    apply list_elem_of_fmap in Hin as ([p0 lvl] & [= -> ->] & Hin).
    exists lvl. split; [|done]. by apply (elem_of_perm_level l m).
  - intros p p' Hin Hsome Hnin. rewrite Hkeys in Hin, Hnin.
    apply (elem_of_keys_perm l m p' Hp) in Hsome.
    rewrite <- (take_drop n l.*1) in Hsome, Hs.
    apply elem_of_app in Hsome as [?|Hdrop]; [done|].
    by apply (StronglySorted_app_1_elem_of _ _ _ p p' Hs).
Qed.
End market_data.

(** [getBestBid] is the highest price that has a bid level and
    [getBestAsk] the lowest price that has an ask level; each is none
    exactly when its side has no level. *)
Theorem best_prices_are_extreme (b : OrderBook) :
  (getBestBid b = None ↔ m_bids b = ∅) ∧
  (getBestAsk b = None ↔ m_asks b = ∅) ∧
  (∀ p : Price, getBestBid b = Some p →
     is_Some (m_bids b !! p) ∧
     ∀ p' : Price, is_Some (m_bids b !! p') → p' <= p) ∧
  (∀ p : Price, getBestAsk b = Some p →
     is_Some (m_asks b !! p) ∧
     ∀ p' : Price, is_Some (m_asks b !! p') → p <= p').
Proof.
  destruct (head_of_sorted_keys _ _ (m_bids b) (bids_in_order_perm (m_bids b))
              (bids_in_order_sorted (m_bids b))) as [Hb1 Hb2].
  destruct (head_of_sorted_keys _ _ (m_asks b) (asks_in_order_perm (m_asks b))
              (asks_in_order_sorted (m_asks b))) as [Ha1 Ha2].
  unfold getBestBid, getBestAsk. split_and!; try done.
  - intros p Hp. destruct (Hb2 p Hp) as [? Hmax]. split; [done|].
    intros p' Hp'. destruct (Hmax p' Hp'); lia.
  - intros p Hp. destruct (Ha2 p Hp) as [? Hmin]. split; [done|].
    intros p' Hp'. destruct (Hmin p' Hp'); lia.
Qed.

(** [getTopBids(n)] and [getTopAsks(n)] throw, from [reserve(n)], when [n]
    is above the [max_size()] of the vector, and return otherwise.
    [getTopBids(n)] then returns [min(n, number of bid levels)] entries in
    strictly descending price order; each entry is a level of the book with
    its cached total, which is what [getQuantityAtPrice] returns for it;
    every bid level left out has a lower price than every entry; for a
    positive [n] the first entry, if any, is the best bid.  [getTopAsks(n)]
    is the same in ascending order. *)
Theorem top_levels_best_first (b : OrderBook) (n : nat) :
  (vector_max_size < Z.of_nat n →
   getTopBids b n = None ∧ getTopAsks b n = None) ∧
  (Z.of_nat n <= vector_max_size →
   ∃ bids asks,
     getTopBids b n = Some bids ∧ getTopAsks b n = Some asks ∧
     length bids = min n (getBidLevelCount b) ∧
     length asks = min n (getAskLevelCount b) ∧
     StronglySorted (λ p1 p2, p2 < p1) bids.*1 ∧
     StronglySorted Z.lt asks.*1 ∧
     (∀ (p : Price) q, (p, q) ∈ bids →
        is_Some (m_bids b !! p) ∧ getQuantityAtPrice b BUY p = q) ∧
     (∀ (p : Price) q, (p, q) ∈ asks →
        is_Some (m_asks b !! p) ∧ getQuantityAtPrice b SELL p = q) ∧
     (∀ p p' : Price, p ∈ bids.*1 → is_Some (m_bids b !! p') →
        p' ∉ bids.*1 → p' < p) ∧
     (∀ p p' : Price, p ∈ asks.*1 → is_Some (m_asks b !! p') →
        p' ∉ asks.*1 → p < p') ∧
     ((0 < n)%nat → head bids.*1 = getBestBid b ∧ head asks.*1 = getBestAsk b)).
Proof.
  unfold getTopBids, getTopAsks. split.
  { intros Hbig. destruct (Z.ltb_spec vector_max_size (Z.of_nat n)); [done|lia]. }
  intros Hfits.
  destruct (Z.ltb_spec vector_max_size (Z.of_nat n)) as [?|_]; [lia|].
  destruct (top_of_sorted_levels _ _ (m_bids b) n (bids_in_order_perm (m_bids b))
              (bids_in_order_sorted (m_bids b))) as (Hb1 & Hb2 & Hb3 & Hb4).
  destruct (top_of_sorted_levels _ _ (m_asks b) n (asks_in_order_perm (m_asks b))
              (asks_in_order_sorted (m_asks b))) as (Ha1 & Ha2 & Ha3 & Ha4).
  eexists _, _. split; [done|]. split; [done|].
  unfold top_levels, getBidLevelCount, getAskLevelCount.
  split_and!; try done.
  - intros p q Hin. destruct (Hb3 p q Hin) as (lvl & Hl & Hq).
    unfold getQuantityAtPrice, side_levels. rewrite Hl. by split.
  - intros p q Hin. destruct (Ha3 p q Hin) as (lvl & Hl & Hq).
    unfold getQuantityAtPrice, side_levels. rewrite Hl. by split.
  - intros Hn. destruct n as [|n]; [lia|]. unfold getBestBid, getBestAsk.
    by destruct (bids_in_order (m_bids b)), (asks_in_order (m_asks b)).
Qed.

(** At the 100 levels the matching engine asks for, on a book of two ask
    levels and one bid level. *)
Lemma top_levels_best_first_witness :
  getTopAsks book_two_asks 100 = Some [(1000, 5); (1005, 10)] ∧
  getTopBids book_two_asks 100 = Some [(990, 7)] ∧
  ∃ bids asks,
    getTopBids book_two_asks 100 = Some bids ∧
    getTopAsks book_two_asks 100 = Some asks ∧
    length bids = min 100 (getBidLevelCount book_two_asks) ∧
    length asks = min 100 (getAskLevelCount book_two_asks).
Proof.
  split; [vm_compute; reflexivity|]. split; [vm_compute; reflexivity|].
  destruct (top_levels_best_first book_two_asks 100) as [_ H].
  destruct H as (bids & asks & Hb & Ha & Hlb & Hla & _).
  { vm_compute. discriminate. }
  by exists bids, asks.
Defined.

(** ** OrderBook: what add and cancel do *)

(** [addOrder] refuses an id that is in the id index and leaves the book
    as it is.  With a fresh id it returns true: [getOrder] finds the order
    and finds what it found before for every other id, the index has one
    entry more, the order is the last of the level of its side and price,
    whose cached total has grown by what remains of the order (modulo
    2^32), and every other level is as it was. *)
Theorem addOrder_effect (b : OrderBook) (order : Order) :
  (is_Some (m_orderMap b !! m_id order) → addOrder b order = (false, b)) ∧
  (m_orderMap b !! m_id order = None →
   let b' := (addOrder b order).2 in
   (addOrder b order).1 = true ∧
   getOrder b' (m_id order) = Some order ∧
   (∀ id, id ≠ m_id order → getOrder b' id = getOrder b id) ∧
   getTotalOrderCount b' = S (getTotalOrderCount b) ∧
   (∃ lvl, side_levels b' (m_side order) !! m_price order = Some lvl ∧
           last (orders lvl) = Some (m_id order)) ∧
   getQuantityAtPrice b' (m_side order) (m_price order) =
     wrap32 (getQuantityAtPrice b (m_side order) (m_price order)
             + getRemainingQty order) ∧
   (∀ side (p : Price), side ≠ m_side order ∨ p ≠ m_price order →
      side_levels b' side !! p = side_levels b side !! p)).
Proof.
  split.
  - intros [o Ho]. unfold addOrder. by rewrite Ho.
  - intros Hfresh b'. subst b'. unfold addOrder. rewrite Hfresh. simpl.
    set (b0 := set_orderMap b _).
    assert (Hb0 : ∀ side, side_levels b0 side = side_levels b side).
    { intros. apply side_levels_set_orderMap. }
    unfold getOrder, getTotalOrderCount, getQuantityAtPrice.
    rewrite addToBook_orderMap, addToBook_level, Hb0. simpl.
    split_and!.
    + done.
    + apply lookup_insert_eq.
    + intros id Hne. by apply lookup_insert_ne.
    + by apply map_size_insert_None.
    + eexists. split; [done|]. simpl. apply last_snoc.
    + by destruct (side_levels b (m_side order) !! m_price order).
    + intros side p Hne. by rewrite addToBook_other_level, Hb0.
Qed.

(** [cancelOrder] returns true exactly for the id of an active order, and
    otherwise leaves the book as it is.  When it returns true in a
    well-formed book, the order is kept in the id index with status
    CANCELLED and is in no level any more, the index keeps its size, a second
    [cancelOrder] of the id is refused, and so is every later [addOrder] of
    an order with that id. *)
Theorem cancelOrder_effect (b : OrderBook) (id : OrderId) :
  wf_book b →
  let b' := (cancelOrder b id).2 in
  ((cancelOrder b id).1 = true ↔
   ∃ o, m_orderMap b !! id = Some o ∧ isActive o = true) ∧
  ((cancelOrder b id).1 = false → b' = b) ∧
  ((cancelOrder b id).1 = true →
   (∃ o, m_orderMap b !! id = Some o ∧
         getOrder b' id = Some (set_status o CANCELLED)) ∧
   (∀ side p, ¬ in_level b' side p id) ∧
   getTotalOrderCount b' = getTotalOrderCount b ∧
   cancelOrder b' id = (false, b') ∧
   (∀ order, m_id order = id → addOrder b' order = (false, b'))).
Proof.
  intros Hwf b'. subst b'. unfold cancelOrder.
  destruct (m_orderMap b !! id) as [o|] eqn:Ho.
  2:{ simpl. split_and!; try done. split; [done|]. by intros (? & ? & _). }
  destruct (isActive o) eqn:Hact; simpl.
  2:{ split_and!; try done. split; [done|]. intros (o' & [= <-] & ?). congruence. }
  split_and!; [split; eauto|done|]. intros _.
  set (b1 := removeFromBook b id o).
  assert (Hcancel : cancel o = set_status o CANCELLED).
  { unfold cancel. by rewrite Hact. }
  assert (Hmap : m_orderMap b1 = m_orderMap b) by apply removeFromBook_orderMap.
  split_and!.
  - exists o. split; [done|]. unfold getOrder. simpl.
    by rewrite lookup_insert_eq, Hcancel.
  - intros side p. unfold in_level. rewrite side_levels_set_orderMap.
    by apply removeFromBook_absent.
  - unfold getTotalOrderCount. simpl. rewrite Hmap.
    by apply map_size_insert_Some.
  - simpl. rewrite lookup_insert_eq, Hcancel. done.
  - intros order <-. unfold addOrder. simpl. by rewrite lookup_insert_eq.
Qed.

Lemma cancelOrder_effect_witness :
  (cancelOrder book_two_asks 2).1 = true ∧
  getOrder (cancelOrder book_two_asks 2).2 2 =
    Some (mkOrder 2 SELL LIMIT 1000 5 0 CANCELLED) ∧
  getBestAsk (cancelOrder book_two_asks 2).2 = Some 1005.
Proof.
  assert (Hwf : wf_book book_two_asks)
    by (apply (bool_decide_unpack _); vm_compute; exact I).
  destruct (cancelOrder_effect book_two_asks 2 Hwf) as (Hiff & _ & Hok).
  assert (Htrue : (cancelOrder book_two_asks 2).1 = true).
  { apply Hiff. exists (Order_new 2 SELL LIMIT 1000 5). split; reflexivity. }
  destruct (Hok Htrue) as ((o & Ho & Hget) & _).
  vm_compute in Ho. injection Ho as <-.
  split_and!; [exact Htrue | exact Hget | vm_compute; reflexivity].
Defined.

(** ** OrderBook: the cached total of a level *)


Section cached_totals.
Implicit Types (b : OrderBook) (o : Order) (id : OrderId) (l : list OrderId)
  (store : gmap OrderId Order).

Lemma totals_ok_side b :
  totals_ok b ↔
  ∀ side (p : Price) lvl, side_levels b side !! p = Some lvl →
                          total_ok (m_orderMap b) lvl.
Proof.
  unfold totals_ok. split.
  - intros [Hb Ha] [] p lvl Hl; [by apply (Hb p)|by apply (Ha p)].
  - intros H. split; intros p lvl Hl; [by apply (H BUY p)|by apply (H SELL p)].
Qed.

Lemma wrap32_idem z : wrap32 (wrap32 z) = wrap32 z.
Proof. unfold wrap32. apply Zmod_mod. Qed.

Lemma level_remaining_snoc store l id :
  level_remaining store (l ++ [id]) =
    level_remaining store l + from_option getRemainingQty 0 (store !! id).
Proof.
  rewrite level_remaining_app. simpl. destruct (store !! id); simpl; lia.
Qed.

Lemma level_remaining_remove_first store l id o :
  store !! id = Some o → id ∈ l →
  level_remaining store (remove_first id l) =
    level_remaining store l - getRemainingQty o.
Proof.
  intros Ho. induction l as [|x l IH]; [by intros ?%elem_of_nil|].
  intros Hin. simpl. destruct (decide (x = id)) as [->|Hne].
  - rewrite Ho. lia.
  - apply elem_of_cons in Hin as [->|Hin]; [done|].
    simpl. rewrite IH by done. destruct (store !! x); lia.
Qed.

(** Replacing the record of an order that is once in the FIFO. *)
Lemma level_remaining_update store l id o o' :
  store !! id = Some o → NoDup l → id ∈ l →
  level_remaining (<[id := o']> store) l =
    level_remaining store l - getRemainingQty o + getRemainingQty o'.
Proof.
  intros Ho. induction l as [|x l IH]; [by intros _ ?%elem_of_nil|].
  intros [Hx Hnd]%NoDup_cons Hin. simpl.
  destruct (decide (x = id)) as [->|Hne].
  - rewrite lookup_insert_eq, Ho.
    rewrite (level_remaining_frame store (<[id:=o']> store)); [lia|].
    intros y Hy. apply lookup_insert_ne. intros <-. done.
  - apply elem_of_cons in Hin as [->|Hin]; [done|].
    rewrite lookup_insert_ne by done. rewrite IH by done.
    destruct (store !! x); lia.
Qed.

Lemma total_ok_frame store store' lvl :
  (∀ id, id ∈ orders lvl → store' !! id = store !! id) →
  total_ok store lvl → total_ok store' lvl.
Proof.
  unfold total_ok. intros Hsame ->.
  by rewrite (level_remaining_frame store store').
Qed.

(** Changing the record of an order that is in no level. *)
Lemma set_orderMap_totals b id o' :
  totals_ok b → (∀ side p, ¬ in_level b side p id) →
  totals_ok (set_orderMap b (<[id := o']> (m_orderMap b))).
Proof.
  intros Ht Habs. apply totals_ok_side. intros side p lvl.
  rewrite side_levels_set_orderMap. intros Hl. simpl.
  apply (total_ok_frame (m_orderMap b)); [|by apply (proj1 (totals_ok_side b) Ht side p)].
  intros x Hin. apply lookup_insert_ne. intros <-.
  apply (Habs side p). unfold in_level. by rewrite Hl.
Qed.

Lemma removeFromBook_totals b id o :
  totals_ok b → m_orderMap b !! id = Some o →
  totals_ok (removeFromBook b id o).
Proof.
  intros Ht Ho. pose proof (proj1 (totals_ok_side b) Ht) as Hlv.
  apply totals_ok_side. intros side p lvl'.
  rewrite removeFromBook_orderMap.
  destruct (decide (side = m_side o ∧ p = m_price o)) as [[-> ->]|Hne].
  2:{ rewrite removeFromBook_other_level; [apply Hlv|].
      destruct (decide (side = m_side o)); [right|left]; naive_solver. }
  destruct (side_levels b (m_side o) !! m_price o) as [lvl|] eqn:Hl.
  2:{ unfold removeFromBook. rewrite Hl, Hl. done. }
  rewrite (removeFromBook_level b id o lvl Hl). simpl.
  destruct (isEmpty _); [done|]. intros [= <-].
  specialize (Hlv _ _ _ Hl). unfold total_ok in *.
  unfold PriceLevel_removeOrder. destruct (decide (id ∈ orders lvl)); [|done].
  simpl. rewrite (level_remaining_remove_first _ _ _ o) by done.
  rewrite Hlv. apply wrap32_minus_l.
Qed.

Lemma addToBook_totals b id o :
  totals_ok b → m_orderMap b !! id = Some o → totals_ok (addToBook b id o).
Proof.
  intros Ht Ho. pose proof (proj1 (totals_ok_side b) Ht) as Hlv.
  apply totals_ok_side. intros side p lvl'.
  rewrite addToBook_orderMap.
  destruct (decide (side = m_side o ∧ p = m_price o)) as [[-> ->]|Hne].
  2:{ rewrite addToBook_other_level; [apply Hlv|].
      destruct (decide (side = m_side o)); [right|left]; naive_solver. }
  rewrite addToBook_level. intros [= <-].
  unfold total_ok, PriceLevel_addOrder. simpl.
  rewrite level_remaining_snoc, Ho. simpl.
  destruct (side_levels b (m_side o) !! m_price o) as [lvl|] eqn:Hl; simpl.
  - rewrite (Hlv _ _ _ Hl). apply wrap32_plus_l.
  - done.
Qed.

Lemma fill_remaining o d :
  order_ok o → 0 <= d <= getRemainingQty o →
  getRemainingQty (fill o d).2 = getRemainingQty o - d.
Proof.
  intros Hok Hd. pose proof (remaining_exact o Hok) as Hr.
  rewrite (fill_ok_spec o d Hok Hd). simpl.
  set (o' := mkOrder _ _ _ _ _ _ _).
  assert (Hok' : order_ok o').
  { destruct Hok as [? ?]. unfold order_ok. subst o'. simpl. lia. }
  rewrite (remaining_exact o' Hok'). subst o'. simpl. lia.
Qed.

Lemma addOrder_totals b order :
  wf_book b → totals_ok b → totals_ok (addOrder b order).2.
Proof.
  intros Hwf Ht. unfold addOrder.
  destruct (m_orderMap b !! m_id order) eqn:Hfresh; [done|]. simpl.
  apply addToBook_totals; [|simpl; apply lookup_insert_eq].
  apply set_orderMap_totals; [done|].
  intros side p. unfold in_level.
  destruct (side_levels b side !! p) as [lvl|] eqn:Hl; [|by intros []].
  by apply (wf_book_fresh_absent b _ side p lvl).
Qed.

Lemma cancelOrder_totals b id :
  wf_book b → totals_ok b → totals_ok (cancelOrder b id).2.
Proof.
  intros Hwf Ht. unfold cancelOrder.
  destruct (m_orderMap b !! id) as [o|] eqn:Ho; [|done].
  destruct (isActive o); [|done]. simpl.
  apply set_orderMap_totals; [by apply removeFromBook_totals|].
  intros side p. by apply removeFromBook_absent.
Qed.

Lemma modifyOrderPrice_totals b id newPrice :
  wf_book b → totals_ok b → totals_ok (modifyOrderPrice b id newPrice).2.
Proof.
  intros Hwf Ht.
  destruct (m_orderMap b !! id) as [o|] eqn:Ho.
  2:{ unfold modifyOrderPrice. by rewrite Ho. }
  destruct (isActive o) eqn:Hact.
  2:{ unfold modifyOrderPrice. by rewrite Ho, Hact. }
  rewrite (modifyOrderPrice_active b id o newPrice Ho Hact). simpl.
  apply addToBook_totals; [|simpl; apply lookup_insert_eq].
  apply set_orderMap_totals; [by apply removeFromBook_totals|].
  intros side p. by apply removeFromBook_absent.
Qed.

Lemma modifyOrderQuantity_totals b id q :
  wf_book b → totals_ok b →
  (∀ o, m_orderMap b !! id = Some o → isActive o = true →
        in_level b (m_side o) (m_price o) id) →
  totals_ok (modifyOrderQuantity b id q).2.
Proof.
  intros Hwf Ht Hres. unfold modifyOrderQuantity.
  destruct (m_orderMap b !! id) as [o|] eqn:Ho; [|done].
  destruct (isActive o) eqn:Hact; [|done].
  specialize (Hres o eq_refl Hact).
  unfold modifyQuantity. destruct (q <? m_filledQty o); [done|]. simpl.
  set (o' := mkOrder _ _ _ _ _ _ _).
  pose proof (proj1 (totals_ok_side b) Ht) as Hlv.
  unfold in_level in Hres.
  destruct (side_levels b (m_side o) !! m_price o) as [lvl|] eqn:Hl; [|done].
  destruct (wf_book_level b _ _ lvl Hwf Hl) as (_ & _ & Hnd & _).
  apply totals_ok_side. intros side p x.
  rewrite orderMap_set_side_levels. simpl.
  destruct (decide (side = m_side o ∧ p = m_price o)) as [[-> ->]|Hne].
  - rewrite side_levels_set_same, side_levels_set_orderMap.
    unfold add_to_total. rewrite Hl, lookup_insert_eq. intros [= <-].
    unfold total_ok. simpl.
    rewrite (level_remaining_update _ _ _ o) by done.
    rewrite (Hlv _ _ _ Hl). rewrite wrap32_plus_r, wrap32_plus_l. f_equal. lia.
  - assert (Hsame : side_levels
                      (set_side_levels
                         (set_orderMap b (<[id := o']> (m_orderMap b))) (m_side o)
                         (add_to_total
                            (side_levels
                               (set_orderMap b (<[id := o']> (m_orderMap b)))
                               (m_side o))
                            (m_price o)
                            (wrap32 (getRemainingQty o' - getRemainingQty o))))
                      side !! p = side_levels b side !! p).
    { destruct (decide (side = m_side o)) as [->|Hs].
      - rewrite side_levels_set_same, side_levels_set_orderMap.
        unfold add_to_total. rewrite Hl. apply lookup_insert_ne. naive_solver.
      - by rewrite side_levels_set_other, side_levels_set_orderMap. }
    rewrite Hsame. intros Hx.
    apply (total_ok_frame (m_orderMap b)); [|by apply (Hlv side p)].
    intros y Hy. apply lookup_insert_ne. intros <-.
    apply Hne. apply (wf_book_in_level b side p id o Hwf Ho).
    unfold in_level. by rewrite Hx.
Qed.

Lemma fillQuantityAtPrice_totals b side p qty f b' :
  wf_book b → totals_ok b → is_u32 qty →
  fillQuantityAtPrice b side p qty = Some (f, b') →
  totals_ok b' ∧
  getQuantityAtPrice b' side p = wrap32 (getQuantityAtPrice b side p - f).
Proof.
  intros Hwf Ht Hq Hrun. pose proof (proj1 (totals_ok_side b) Ht) as Hlv.
  unfold getQuantityAtPrice.
  destruct (side_levels b side !! p) as [lvl|] eqn:Hl.
  2:{ rewrite fillQuantityAtPrice_no_level in Hrun by done.
      injection Hrun as <- <-. by rewrite Hl. }
  destruct (fillQuantityAtPrice_spec b side p qty lvl Hwf Hq Hl)
    as (consumed & kept & store' & Heq & Hsplit & Hgone & Hout & Htail & Hsum & Hhd).
  rewrite Heq in Hrun. injection Hrun as <- <-.
  set (filled := Z.min qty (level_remaining (m_orderMap b) (orders lvl))) in *.
  set (d := filled - level_remaining (m_orderMap b) consumed) in *.
  destruct (wf_book_level b side p lvl Hwf Hl) as (_ & _ & Hnd & Hall).
  pose proof (Hlv _ _ _ Hl) as Htot. unfold total_ok in Htot.
  assert (HLR : level_remaining (m_orderMap b) (orders lvl) =
                level_remaining (m_orderMap b) consumed +
                level_remaining (m_orderMap b) kept).
  { by rewrite Hsplit, level_remaining_app. }
  assert (Hkept : level_remaining store' kept =
                  level_remaining (m_orderMap b) kept - d).
  { destruct kept as [|h t].
    - simpl in *. subst d filled. lia.
    - rewrite Hsplit in Hall. apply Forall_app in Hall as [_ Hall].
      apply Forall_cons in Hall as [Hh _].
      destruct (member_at_lookup _ _ _ _ Hh) as (o & Ho & _ & Hok & _).
      destruct (Hhd h o eq_refl Ho) as [Hst Hd]. simpl.
      rewrite Hst, Ho.
      rewrite (level_remaining_frame (m_orderMap b) store' t) by (by apply Htail).
      destruct (Z.eqb_spec d 0) as [->|Hnz]; [lia|].
      rewrite fill_remaining by (done || lia). lia. }
  assert (Htotal' : wrap32 (totalQuantity lvl - filled) =
                    wrap32 (level_remaining store' kept)).
  { rewrite Htot, wrap32_minus_l, Hkept. f_equal. subst d. lia. }
  split.
  - apply totals_ok_side. intros side' p' x. simpl.
    rewrite side_levels_set_orderMap.
    destruct (decide (side' = side ∧ p' = p)) as [[-> ->]|Hne].
    + rewrite side_levels_set_same, levels_after_fill_lookup, decide_True by done.
      destruct (_ || _); [done|]. intros [= <-]. exact Htotal'.
    + assert (Hne' : side' ≠ side ∨ p' ≠ p).
      { destruct (decide (side' = side)); [right|left]; naive_solver. }
      assert (Hsame : side_levels
                        (set_side_levels b side
                           (levels_after_fill b side p lvl
                              (wrap32 (totalQuantity lvl - filled)) kept))
                        side' !! p' = side_levels b side' !! p').
      { destruct (decide (side' = side)) as [->|Hs].
        - rewrite side_levels_set_same, levels_after_fill_lookup.
          rewrite decide_False; [done|]. by destruct Hne'.
        - by rewrite side_levels_set_other. }
      rewrite Hsame. intros Hx.
      apply (total_ok_frame (m_orderMap b)); [|by apply (Hlv side' p')].
      intros y Hy. apply Hout.
      by apply (other_level_disjoint b side p lvl side' p' x).
  - simpl. rewrite side_levels_set_orderMap, side_levels_set_same.
    rewrite levels_after_fill_lookup, decide_True by done.
    destruct ((wrap32 (totalQuantity lvl - filled) =? 0)
              || isEmpty (mkPriceLevel (price lvl)
                            (wrap32 (totalQuantity lvl - filled)) kept)) eqn:Hc;
      [|done].
    apply orb_true_iff in Hc as [Hz|He].
    + symmetry. by apply Z.eqb_eq.
    + unfold isEmpty in He. simpl in He. destruct kept; [|done].
      by rewrite Htotal'.
Qed.

Lemma matchLoop_totals side (levels : list (Price * Quantity)) :
  ∀ (s s' : MatchState),
  wf_book (book_of s) → totals_ok (book_of s) →
  Forall (λ lv, is_u32 lv.2) levels →
  matchLoop (matchStep side) levels s = Some s' →
  wf_book (book_of s') ∧ totals_ok (book_of s').
Proof.
  induction levels as [|[p q] levels IH]; intros s s' Hwf Ht Hall Hrun.
  { simpl in Hrun. by injection Hrun as <-. }
  apply Forall_cons in Hall as [Hq Hall]. simpl in Hq. cbn [matchLoop] in Hrun.
  destruct (matchStep_unfold side s p q) as [Hb|[_ Heq]].
  { rewrite Hb in Hrun. by injection Hrun as <-. }
  rewrite Heq in Hrun.
  assert (Hm : is_u32 (Z.min (getRemainingQty (ms_order s)) q)).
  { pose proof (remaining_range (ms_order s)). unfold is_u32 in *. lia. }
  destruct (fillQuantityAtPrice _ _ _ _) as [[f b']|] eqn:Hfill; [|done].
  pose proof (fillQuantityAtPrice_wf _ _ _ _ _ _ Hwf Hm Hfill) as Hwf'.
  destruct (fillQuantityAtPrice_totals _ _ _ _ _ _ Hwf Ht Hm Hfill) as [Ht' _].
  destruct (f =? 0); by apply (IH _ s') in Hrun.
Qed.

Lemma processOrder_totals e order s :
  wf_book (m_orderBook e) → totals_ok (m_orderBook e) →
  processOrder e order = Some s → totals_ok (book_of s).
Proof.
  intros Hwf Ht. unfold processOrder.
  destruct (matchOrder e order) as [m|] eqn:Hm; [|done].
  rewrite matchOrder_loop in Hm.
  destruct (matchLoop_totals (m_side order) _ (mkMatchState e order []) m
              Hwf Ht (snapshot_for_range _ _ Hwf) Hm) as [Hwfm Htm].
  destruct (_ && _); intros [= <-]; [|done].
  unfold book_of. simpl. by apply addOrder_totals.
Qed.
End cached_totals.

(** On a well-formed book whose cached totals are right, every operation
    leaves them right: [addOrder], [cancelOrder], [modifyOrderPrice],
    [fillQuantityAtPrice] and [processOrder] always, and
    [modifyOrderQuantity] when the order it is given is in the level of its
    side and price.  [fillQuantityAtPrice] lowers what
    [getQuantityAtPrice] returns for the level by what it returns (modulo
    2^32). *)
Theorem cached_totals_preserved (b : OrderBook) :
  wf_book b → totals_ok b →
  (∀ order, totals_ok (addOrder b order).2) ∧
  (∀ id, totals_ok (cancelOrder b id).2) ∧
  (∀ id newPrice, totals_ok (modifyOrderPrice b id newPrice).2) ∧
  (∀ id q,
     (∀ o, m_orderMap b !! id = Some o → isActive o = true →
           in_level b (m_side o) (m_price o) id) →
     totals_ok (modifyOrderQuantity b id q).2) ∧
  (∀ side p qty f b',
     is_u32 qty → fillQuantityAtPrice b side p qty = Some (f, b') →
     totals_ok b' ∧
     getQuantityAtPrice b' side p = wrap32 (getQuantityAtPrice b side p - f)) ∧
  (∀ e order s,
     m_orderBook e = b → processOrder e order = Some s → totals_ok (book_of s)).
Proof.
  intros Hwf Ht. split_and!.
  - intros. by apply addOrder_totals.
  - intros. by apply cancelOrder_totals.
  - intros. by apply modifyOrderPrice_totals.
  - intros. by apply modifyOrderQuantity_totals.
  - intros side p qty f b' Hq Hrun.
    by apply (fillQuantityAtPrice_totals b side p qty f b').
  - intros e order s <- Hrun. by apply (processOrder_totals e order s).
Qed.

Lemma cached_totals_preserved_witness :
  totals_ok (modifyOrderQuantity book_partial_front 1 40).2 ∧
  getQuantityAtPrice (modifyOrderQuantity book_partial_front 1 40).2 BUY 100 = 120.
Proof.
  assert (Hwf : wf_book book_partial_front)
    by (apply (bool_decide_unpack _); vm_compute; exact I).
  assert (Ht : totals_ok book_partial_front)
    by (apply (bool_decide_unpack _); vm_compute; exact I).
  destruct (cached_totals_preserved book_partial_front Hwf Ht)
    as (_ & _ & _ & Hq & _).
  split; [|vm_compute; reflexivity].
  apply Hq. intros o Ho _. vm_compute in Ho. injection Ho as <-.
  unfold in_level. vm_compute. by left.
Defined.

(** [modifyOrderQuantity] does not look for the order in the level: when
    the order is not in the FIFO of the level of its side and price, that
    level's cached total still moves by the change of the order's remaining
    quantity, while the level's orders, and so the sum of what remains of
    them, stay as they were. *)
Theorem modifyOrderQuantity_foreign_level (b : OrderBook) (id : OrderId)
    (o : Order) (q : Quantity) (lvl : PriceLevel) :
  m_orderMap b !! id = Some o → isActive o = true → m_filledQty o <= q →
  side_levels b (m_side o) !! m_price o = Some lvl → id ∉ orders lvl →
  let b' := (modifyOrderQuantity b id q).2 in
  let o' := (modifyQuantity o q).2 in
  (modifyOrderQuantity b id q).1 = true ∧
  side_levels b' (m_side o) !! m_price o =
    Some (mkPriceLevel (price lvl)
            (wrap32 (totalQuantity lvl + (getRemainingQty o' - getRemainingQty o)))
            (orders lvl)) ∧
  level_remaining (m_orderMap b') (orders lvl) =
    level_remaining (m_orderMap b) (orders lvl).
Proof.
  intros Ho Hact Hq Hl Hnin b' o'. subst b' o'.
  unfold modifyOrderQuantity. rewrite Ho, Hact.
  unfold modifyQuantity. destruct (Z.ltb_spec q (m_filledQty o)); [lia|]. simpl.
  rewrite orderMap_set_side_levels, side_levels_set_same, side_levels_set_orderMap.
  simpl. split_and!; [done| |].
  - unfold add_to_total. rewrite Hl, lookup_insert_eq. do 2 f_equal.
    apply wrap32_plus_r.
  - apply level_remaining_frame. intros y Hy. apply lookup_insert_ne.
    intros <-. done.
Qed.


Lemma modifyOrderQuantity_foreign_level_witness :
  let b' := (modifyOrderQuantity book_stray_order 2 10).2 in
  m_bids b' !! 100 = Some (mkPriceLevel 100 17 [3]) ∧
  level_remaining (m_orderMap b') [3] = 7.
Proof.
  destruct (modifyOrderQuantity_foreign_level book_stray_order 2
              (Order_new 2 BUY LIMIT 100 0) 10 (mkPriceLevel 100 7 [3]))
    as (_ & Hlvl & Hsum).
  { vm_compute. reflexivity. }
  { reflexivity. }
  { simpl. lia. }
  { vm_compute. reflexivity. }
  { cbn [orders]. intros [Hin|Hin]%elem_of_cons; [discriminate|by apply elem_of_nil in Hin]. }
  intros b'. subst b'. split; [exact Hlvl|].
  etrans; [exact Hsum|]. vm_compute. reflexivity.
Defined.

(** ** MatchingEngine: accounting *)


Section accounting.
Implicit Types (b : OrderBook) (side : Side) (s : MatchState).

Lemma trades_volume_app ts1 ts2 :
  trades_volume (ts1 ++ ts2) = trades_volume ts1 + trades_volume ts2.
Proof. induction ts1 as [|t ts1 IH]; simpl; [done|]. rewrite IH. lia. Qed.

Lemma wrap64_range z : is_u64 (wrap64 z).
Proof. unfold is_u64, wrap64. apply Z.mod_pos_bound. lia. Qed.

Lemma wrap64_plus_l a c : wrap64 (wrap64 a + c) = wrap64 (a + c).
Proof. unfold wrap64. apply Zplus_mod_idemp_l. Qed.

Lemma fillQuantityAtPrice_le b side (p : Price) qty f b' :
  wf_book b → is_u32 qty →
  fillQuantityAtPrice b side p qty = Some (f, b') → 0 <= f <= qty.
Proof.
  intros Hwf Hq Hrun.
  destruct (side_levels b side !! p) as [lvl|] eqn:Hl.
  2:{ rewrite fillQuantityAtPrice_no_level in Hrun by done.
      injection Hrun as <- _. unfold is_u32 in Hq. lia. }
  destruct (fillQuantityAtPrice_spec b side p qty lvl Hwf Hq Hl)
    as (consumed & kept & store' & Heq & _).
  rewrite Heq in Hrun. injection Hrun as <- _.
  pose proof (level_remaining_nonneg (m_orderMap b) (orders lvl)).
  unfold is_u32 in *. lia.
Qed.

Lemma wrap64_id z : is_u64 z → wrap64 z = z.
Proof. unfold is_u64, wrap64. intros. apply Z.mod_small. lia. Qed.

(** The statistics and the incoming order across a matching loop. *)
Lemma matchLoop_accounting side (levels : list (Price * Quantity)) :
  ∀ (s s' : MatchState),
  wf_book (book_of s) → order_ok (ms_order s) →
  is_u64 (m_tradeCount (ms_engine s)) → is_u32 (m_totalVolume (ms_engine s)) →
  Forall (λ lv, is_u32 lv.2) levels →
  matchLoop (matchStep side) levels s = Some s' →
  ∃ new,
    ms_trades s' = ms_trades s ++ new ∧
    order_ok (ms_order s') ∧
    m_filledQty (ms_order s') = m_filledQty (ms_order s) + trades_volume new ∧
    m_quantity (ms_order s') = m_quantity (ms_order s) ∧
    m_tradeCount (ms_engine s') =
      wrap64 (m_tradeCount (ms_engine s) + Z.of_nat (length new)) ∧
    m_totalVolume (ms_engine s') =
      wrap32 (m_totalVolume (ms_engine s) + trades_volume new) ∧
    Forall (λ t, 0 < Trade_quantity t ∧
                 trade_of side (m_id (ms_order s)) t) new.
Proof.
  induction levels as [|[p q] levels IH]; intros s s' Hwf Hok Hc Hv Hall Hrun.
  { simpl in Hrun. injection Hrun as <-. exists []. simpl.
    rewrite app_nil_r, !Z.add_0_r, wrap64_id, wrap32_id by done.
    split_and!; done. }
  apply Forall_cons in Hall as [Hq Hall]. simpl in Hq. cbn [matchLoop] in Hrun.
  destruct (matchStep_unfold side s p q) as [Hb|[_ Heq]].
  { rewrite Hb in Hrun. injection Hrun as <-. exists []. simpl.
    rewrite app_nil_r, !Z.add_0_r, wrap64_id, wrap32_id by done.
    split_and!; done. }
  rewrite Heq in Hrun.
  pose proof (remaining_range (ms_order s)) as Hrr.
  pose proof (remaining_exact _ Hok) as Hre.
  assert (Hm : is_u32 (Z.min (getRemainingQty (ms_order s)) q))
    by (unfold is_u32 in *; lia).
  destruct (fillQuantityAtPrice _ _ _ _) as [[f b']|] eqn:Hfill; [|done].
  pose proof (fillQuantityAtPrice_wf _ _ _ _ _ _ Hwf Hm Hfill) as Hwf'.
  pose proof (fillQuantityAtPrice_le _ _ _ _ _ _ Hwf Hm Hfill) as Hf.
  destruct (Z.eqb_spec f 0) as [->|Hnz].
  { by apply (IH _ s') in Hrun. }
  assert (Hfq : 0 <= f <= getRemainingQty (ms_order s)) by lia.
  assert (Hok1 : order_ok (fill (ms_order s) f).2).
  { apply fill_order_ok; [done|]. unfold is_u32 in *. lia. }
  apply (IH _ s') in Hrun;
    [|done|done|apply wrap64_range|apply wrap32_range|done].
  destruct Hrun as (new & Htr & Hok' & Hfilled & Hqty & Hcount & Hvol & Hshape).
  unfold record_fill in *. simpl in *.
  rewrite (fill_ok_spec _ f Hok Hfq) in Hfilled, Hqty, Hshape. simpl in *.
  destruct side; (eexists (_ :: new); split_and!;
    [ rewrite Htr, <- app_assoc; done
    | done
    | rewrite Hfilled; simpl; lia
    | done
    | rewrite Hcount, wrap64_plus_l; f_equal; simpl length; lia
    | rewrite Hvol, wrap32_plus_l; f_equal; simpl; lia
    | constructor; [|done]; simpl; split; [lia|done] ]).
Qed.
End accounting.

(** [processOrder] on a well-formed book: the fill of the incoming order
    grows by exactly the sum of the quantities of the trades returned and
    never passes its quantity; every trade has a positive quantity, the
    incoming order's id on its own side and 0 on the other; the trade count
    grows by the number of trades (modulo 2^64) and the total volume by
    their sum (modulo 2^32). *)
Theorem processOrder_accounting (e : MatchingEngine) (order : Order) :
  wf_book (m_orderBook e) → order_ok order →
  is_u64 (m_tradeCount e) → is_u32 (m_totalVolume e) →
  ∃ s,
    processOrder e order = Some s ∧
    m_filledQty (ms_order s) = m_filledQty order + trades_volume (ms_trades s) ∧
    m_quantity (ms_order s) = m_quantity order ∧
    m_filledQty (ms_order s) <= m_quantity order ∧
    Forall (λ t, 0 < Trade_quantity t ∧
                 trade_of (m_side order) (m_id order) t) (ms_trades s) ∧
    m_tradeCount (ms_engine s) =
      wrap64 (m_tradeCount e + Z.of_nat (length (ms_trades s))) ∧
    m_totalVolume (ms_engine s) =
      wrap32 (m_totalVolume e + trades_volume (ms_trades s)).
Proof.
  intros Hwf Hok Hc Hv.
  destruct (matchLoop_spec (m_side order)
              (snapshot_for (m_orderBook e) (m_side order))
              (mkMatchState e order []) Hwf
              (snapshot_for_range (m_orderBook e) (m_side order) Hwf))
    as (m & _ & Hrun & _).
  destruct (matchLoop_accounting (m_side order) _ (mkMatchState e order []) m
              Hwf Hok Hc Hv (snapshot_for_range _ _ Hwf) Hrun)
    as (new & Htr & Hok' & Hfilled & Hqty & Hcount & Hvol & Hshape).
  simpl in Htr, Hfilled, Hqty, Hcount, Hvol, Hshape. subst new.
  rewrite <- matchOrder_loop in Hrun.
  unfold processOrder. rewrite Hrun.
  destruct Hok' as [? ?].
  destruct (_ && _); eexists; (split; [done|]); simpl;
    split_and!; try done; lia.
Qed.

Lemma processOrder_accounting_witness :
  ∃ s, processOrder (mkEngine book_two_asks 0 0) (Order_new 9 BUY MARKET 0 12)
         = Some s ∧
       m_filledQty (ms_order s) = 12 ∧ trades_volume (ms_trades s) = 12 ∧
       m_tradeCount (ms_engine s) = 2 ∧ m_totalVolume (ms_engine s) = 12.
Proof.
  assert (Hwf : wf_book (m_orderBook (mkEngine book_two_asks 0 0)))
    by (apply (bool_decide_unpack _); vm_compute; exact I).
  destruct (processOrder_accounting (mkEngine book_two_asks 0 0)
              (Order_new 9 BUY MARKET 0 12) Hwf)
    as (s & Hrun & _); try (unfold order_ok, is_u64, is_u32; simpl; lia).
  exists s. split; [exact Hrun|].
  vm_compute in Hrun. injection Hrun as <-. vm_compute. done.
Defined.

Section no_liquidity.
Implicit Types (b : OrderBook) (side : Side) (s : MatchState).

Lemma opposing_in_order_empty b side :
  side_levels b (opposite side) = ∅ → opposing_in_order b side = [].
Proof.
  intros Hempty.
  assert (H : ∀ (l : list (Price * PriceLevel)) (m : gmap Price PriceLevel),
            l ≡ₚ map_to_list m → m = ∅ → l = []).
  { intros l m Hp ->. rewrite map_to_list_empty in Hp.
    by apply Permutation_nil_r in Hp. }
  destruct side; simpl in *.
  - by apply (H _ (m_asks b) (asks_in_order_perm _)).
  - by apply (H _ (m_bids b) (bids_in_order_perm _)).
Qed.
End no_liquidity.

(** An order that meets no acceptable price trades nothing.  When the
    opposing side is empty, or the order is a LIMIT order and every opposing
    level is beyond its limit, matching returns no trade and leaves the
    engine and the order as they were.  [processOrder] then calls [addOrder]
    when the order is a LIMIT order with a positive remaining quantity and
    drops what [addOrder] returns: with an id that is not in the id index
    the order is added, found by [getOrder] and last in the level of its
    side and price, every other level being as it was; with an id that is
    in the index nothing changes.  A MARKET order, whatever remains of it,
    and an order with nothing remaining change nothing. *)
Theorem no_acceptable_price_no_trade (e : MatchingEngine) (order : Order) :
  let b := m_orderBook e in
  let side := m_side order in
  side_levels b (opposite side) = ∅ ∨
  (m_type order = LIMIT ∧
   ∀ p : Price, is_Some (side_levels b (opposite side) !! p) →
                beyond_limit side (m_price order) p) →
  matchOrder e order = Some (mkMatchState e order []) ∧
  processOrder e order =
    Some (if (getRemainingQty order >? 0) && bool_decide (m_type order = LIMIT)
          then mkMatchState (with_book e (addOrder b order).2) order []
          else mkMatchState e order []) ∧
  (m_type order = LIMIT → 0 < getRemainingQty order →
   m_orderMap b !! m_id order = None →
   let b' := (addOrder b order).2 in
   processOrder e order = Some (mkMatchState (with_book e b') order []) ∧
   getOrder b' (m_id order) = Some order ∧
   (∃ lvl, side_levels b' side !! m_price order = Some lvl ∧
           last (orders lvl) = Some (m_id order)) ∧
   (∀ side' (p : Price), side' ≠ side ∨ p ≠ m_price order →
      side_levels b' side' !! p = side_levels b side' !! p)) ∧
  (m_type order = MARKET ∨ getRemainingQty order = 0 ∨
   is_Some (m_orderMap b !! m_id order) →
   processOrder e order = Some (mkMatchState e order [])).
Proof.
  intros b side Hcase.
  assert (Hmatch : matchOrder e order = Some (mkMatchState e order [])).
  { rewrite matchOrder_loop, snapshot_for_levels. fold b side.
    destruct (opposing_in_order b side) as [|[p lvl] rest] eqn:HL; [done|].
    destruct Hcase as [Hempty|[Ht Hbeyond]].
    { by rewrite (opposing_in_order_empty b side Hempty) in HL. }
    simpl. cbn [matchLoop].
    assert (Hb : matchStep side (mkMatchState e order [])
                   (level_snapshot (p, lvl)) = Some Break).
    { apply matchStep_break. right. split; [done|]. simpl. apply Hbeyond.
      exists lvl. apply opposing_in_order_levels. rewrite HL. by left. }
    by rewrite Hb. }
  assert (Hproc : processOrder e order =
    Some (if (getRemainingQty order >? 0) && bool_decide (m_type order = LIMIT)
          then mkMatchState (with_book e (addOrder b order).2) order []
          else mkMatchState e order [])).
  { unfold processOrder. rewrite Hmatch. simpl. by destruct (_ && _). }
  split; [done|]. split; [done|]. rewrite Hproc. split.
  - intros Ht Hpos Hfresh b'. subst b'.
    destruct (Z.gtb_spec (getRemainingQty order) 0); [|lia].
    rewrite bool_decide_eq_true_2 by done. simpl. split; [done|].
    unfold addOrder, getOrder. fold b. rewrite Hfresh. simpl.
    rewrite addToBook_orderMap. simpl. split; [apply lookup_insert_eq|].
    split.
    + subst side. rewrite addToBook_level. eexists. split; [done|].
      simpl. apply last_snoc.
    + intros side' p Hne.
      by rewrite addToBook_other_level, side_levels_set_orderMap.
  - pose proof (remaining_range order) as Hr. unfold is_u32 in Hr.
    intros [Hm|[Hz|[o Ho]]].
    + rewrite bool_decide_eq_false_2 by congruence. by rewrite andb_false_r.
    + destruct (Z.gtb_spec (getRemainingQty order) 0); [lia|]. done.
    + destruct (_ && _); [|done]. unfold addOrder. fold b. rewrite Ho. simpl.
      by destruct e.
Qed.

(** A limit buy at 101 when there is no ask rests; a limit buy at 995
    under the id 3 of a resting order, with both asks above 995, is
    dropped. *)
Lemma no_acceptable_price_no_trade_witness :
  processOrder (mkEngine book_three_bids 0 0) (Order_new 9 BUY LIMIT 101 4) =
  Some (mkMatchState
          (mkEngine (book_add book_three_bids (Order_new 9 BUY LIMIT 101 4)) 0 0)
          (Order_new 9 BUY LIMIT 101 4) []) ∧
  processOrder (mkEngine book_two_asks 0 0) (Order_new 3 BUY LIMIT 995 4) =
  Some (mkMatchState (mkEngine book_two_asks 0 0) (Order_new 3 BUY LIMIT 995 4) []).
Proof.
  split.
  - destruct (no_acceptable_price_no_trade (mkEngine book_three_bids 0 0)
                (Order_new 9 BUY LIMIT 101 4)) as (_ & H & _).
    + left. vm_compute. reflexivity.
    + exact H.
  - destruct (no_acceptable_price_no_trade (mkEngine book_two_asks 0 0)
                (Order_new 3 BUY LIMIT 995 4)) as (_ & _ & _ & H).
    + right. split; [reflexivity|].
      intros p [lvl Hl]. revert p lvl Hl.
      change (map_Forall (λ (p : Price) (_ : PriceLevel), 995 < p)
                (m_asks book_two_asks)).
      apply (bool_decide_unpack _). vm_compute. exact I.
    + apply H. right. right. vm_compute. eexists. reflexivity.
Defined.

(** ** MatchingEngine: what trades take from the book *)

Section book_side.
Implicit Types (b : OrderBook) (side : Side) (s : MatchState).

Lemma StronglySorted_NoDup {A} (R : relation A) (l : list A) :
  (∀ x, ¬ R x x) → StronglySorted R l → NoDup l.
Proof.
  intros Hirr. induction 1 as [|x l Hs IH Hall]; constructor; [|done].
  intros Hin. rewrite Forall_forall in Hall. by apply (Hirr x), Hall.
Qed.

Lemma getQuantityAtPrice_range b side (p : Price) :
  wf_book b → is_u32 (getQuantityAtPrice b side p).
Proof.
  intros Hwf. unfold getQuantityAtPrice.
  destruct (side_levels b side !! p) as [lvl|] eqn:Hl.
  - by destruct (wf_book_level b side p lvl Hwf Hl) as (_ & ? & _).
  - unfold is_u32. lia.
Qed.

(** Across a matching loop over a snapshot of levels of distinct prices
    that shows the cached totals of the book, the cached total of a level
    drops by the quantity of the trade at its price, which it covers, and
    stays as it was where there is no trade. *)
Lemma matchLoop_levels side (levels : list (Price * Quantity)) :
  ∀ (s s' : MatchState),
  wf_book (book_of s) → totals_ok (book_of s) →
  Forall (λ lv, lv.2 = getQuantityAtPrice (book_of s) (opposite side) lv.1) levels →
  NoDup levels.*1 →
  matchLoop (matchStep side) levels s = Some s' →
  ∃ new,
    ms_trades s' = ms_trades s ++ new ∧
    (Trade_price <$> new) `sublist_of` levels.*1 ∧
    (∀ t, t ∈ new →
       0 < Trade_quantity t <=
         getQuantityAtPrice (book_of s) (opposite side) (Trade_price t) ∧
       getQuantityAtPrice (book_of s') (opposite side) (Trade_price t) =
       getQuantityAtPrice (book_of s) (opposite side) (Trade_price t)
       - Trade_quantity t) ∧
    (∀ p : Price, p ∉ Trade_price <$> new →
       getQuantityAtPrice (book_of s') (opposite side) p =
       getQuantityAtPrice (book_of s) (opposite side) p).
Proof.
  induction levels as [|[p q] levels IH]; intros s s' Hwf Ht Hall Hnd Hrun.
  { simpl in Hrun. injection Hrun as <-. exists []. rewrite app_nil_r.
    split_and!; try done. intros t Hin. by apply elem_of_nil in Hin. }
  apply Forall_cons in Hall as [Hq Hall]. simpl in Hq.
  rewrite fmap_cons in Hnd. apply NoDup_cons in Hnd as [Hp Hnd]. simpl in Hp.
  cbn [matchLoop] in Hrun.
  destruct (matchStep_unfold side s p q) as [Hb|[_ Heq]].
  { rewrite Hb in Hrun. injection Hrun as <-. exists []. rewrite app_nil_r.
    split_and!; try done; [apply sublist_nil_l|].
    intros t Hin. by apply elem_of_nil in Hin. }
  rewrite Heq in Hrun.
  pose proof (getQuantityAtPrice_range (book_of s) (opposite side) p Hwf) as HQ.
  assert (Hm : is_u32 (Z.min (getRemainingQty (ms_order s)) q)).
  { pose proof (remaining_range (ms_order s)). unfold is_u32 in *. lia. }
  destruct (fillQuantityAtPrice _ _ _ _) as [[f b']|] eqn:Hfill; [|done].
  pose proof (fillQuantityAtPrice_wf _ _ _ _ _ _ Hwf Hm Hfill) as Hwf'.
  pose proof (fillQuantityAtPrice_le _ _ _ _ _ _ Hwf Hm Hfill) as Hle.
  destruct (fillQuantityAtPrice_totals _ _ _ _ _ _ Hwf Ht Hm Hfill) as [Ht' Hqp].
  rewrite wrap32_id in Hqp by (unfold is_u32 in *; lia).
  destruct (fillQuantityAtPrice_total (book_of s) (opposite side) p _ Hwf Hm)
    as (f0 & b0 & Hfill0 & _ & Hframe & _).
  rewrite Hfill in Hfill0. injection Hfill0 as <- <-.
  assert (Hother : ∀ p' : Price, p' ≠ p →
            getQuantityAtPrice b' (opposite side) p' =
            getQuantityAtPrice (book_of s) (opposite side) p').
  { intros p' Hne. unfold getQuantityAtPrice. rewrite Hframe; [done|by right]. }
  (* the rest of the loop, from the state after this level *)
  assert (Hrest : ∀ s1, book_of s1 = b' →
            matchLoop (matchStep side) levels s1 = Some s' →
            ∃ new1,
              ms_trades s' = ms_trades s1 ++ new1 ∧
              Trade_price <$> new1 `sublist_of` levels.*1 ∧
              (∀ t, t ∈ new1 →
                 0 < Trade_quantity t <=
                   getQuantityAtPrice (book_of s) (opposite side) (Trade_price t) ∧
                 getQuantityAtPrice (book_of s') (opposite side) (Trade_price t) =
                 getQuantityAtPrice (book_of s) (opposite side) (Trade_price t)
                 - Trade_quantity t) ∧
              (∀ p' : Price, p' ∉ Trade_price <$> new1 →
                 getQuantityAtPrice (book_of s') (opposite side) p' =
                 getQuantityAtPrice b' (opposite side) p')).
  { intros s1 Hb1 Hrun1.
    destruct (IH s1 s') as (new1 & Htr1 & Hsub1 & Htake1 & Hkeep1);
      [by rewrite Hb1 | by rewrite Hb1 | | done | done |].
    { rewrite Hb1. apply Forall_forall. intros [p' q'] Hin. simpl.
      rewrite Forall_forall in Hall. etrans; [exact (Hall _ Hin)|]. simpl.
      symmetry. apply Hother. intros ->. apply Hp.
      by apply (list_elem_of_fmap_2 fst _ _ Hin). }
    rewrite Hb1 in Htake1, Hkeep1.
    exists new1. split_and!; try done.
    intros t Hin. destruct (Htake1 t Hin) as [Hrng Heqt].
    assert (Hne : Trade_price t ≠ p).
    { intros Heqp. apply Hp. rewrite <- Heqp.
      apply (elem_of_sublist _ _ _ (list_elem_of_fmap_2 Trade_price _ _ Hin) Hsub1). }
    by rewrite (Hother _ Hne) in Hrng, Heqt. }
  destruct (Z.eqb_spec f 0) as [Hz|Hnz]; cbn [matchLoop] in Hrun.
  - subst f.
    apply Hrest in Hrun as (new1 & Htr1 & Hsub1 & Htake1 & Hkeep1); [|done].
    exists new1. split_and!; try done.
    + rewrite fmap_cons. by apply sublist_cons.
    + intros p' Hnin. rewrite (Hkeep1 p' Hnin).
      destruct (decide (p' = p)) as [->|Hne]; [|by apply Hother].
      rewrite Hqp. lia.
  - apply Hrest in Hrun as (new1 & Htr1 & Hsub1 & Htake1 & Hkeep1); [|done].
    simpl in Htr1.
    assert (Hpnew : p ∉ Trade_price <$> new1).
    { intros Hin. apply Hp. by apply (elem_of_sublist _ _ _ Hin Hsub1). }
    destruct side;
      (eexists (_ :: new1); split_and!;
       [ rewrite Htr1, <- app_assoc; done
       | rewrite !fmap_cons; simpl; by apply sublist_skip
       | intros t [->|Hin]%elem_of_cons; [|by apply Htake1];
         cbn [Trade_price Trade_quantity]; rewrite (Hkeep1 p Hpnew);
         split; [lia|exact Hqp]
       | intros p' [Hne Hnin]%not_elem_of_cons; cbn [Trade_price] in Hne;
         rewrite (Hkeep1 p' Hnin); by apply Hother ]).
Qed.
End book_side.

Section snapshot.
Implicit Types (b : OrderBook) (side : Side).

Lemma better_for_irrefl side (p : Price) : ¬ better_for side p p.
Proof. destruct side; simpl; lia. Qed.

Lemma snapshot_for_prices b side :
  (snapshot_for b side).*1 = take 100 (opposing_in_order b side).*1.
Proof.
  rewrite snapshot_for_levels, <- !fmap_take, <- list_fmap_compose.
  by apply list_fmap_ext; intros ? [].
Qed.

Lemma snapshot_for_NoDup b side : NoDup (snapshot_for b side).*1.
Proof.
  rewrite snapshot_for_prices.
  eapply sublist_NoDup; [|apply sublist_take].
  apply (StronglySorted_NoDup (better_for side));
    [apply better_for_irrefl|apply opposing_in_order_sorted].
Qed.

Lemma snapshot_for_totals b side :
  Forall (λ lv, lv.2 = getQuantityAtPrice b (opposite side) lv.1)
         (snapshot_for b side).
Proof.
  rewrite snapshot_for_levels. apply Forall_take, Forall_fmap, Forall_forall.
  intros [p lvl] Hin. simpl. unfold getQuantityAtPrice.
  apply opposing_in_order_levels in Hin. by rewrite Hin.
Qed.

Lemma addOrder_other_side b order side (p : Price) :
  side ≠ m_side order →
  side_levels (addOrder b order).2 side !! p = side_levels b side !! p.
Proof.
  intros Hne. unfold addOrder.
  destruct (m_orderMap b !! m_id order); [done|]. simpl.
  rewrite addToBook_other_level by by left.
  by rewrite side_levels_set_orderMap.
Qed.

Lemma opposite_ne side : opposite side ≠ side.
Proof. by destruct side. Qed.
End snapshot.

(** On a well-formed book whose cached totals are right, [processOrder]
    returns, with at most one trade per price.  Each trade takes its
    quantity, which is positive and at most what [getQuantityAtPrice]
    showed for the opposing level at the trade's price before the call, off
    that level: afterwards [getQuantityAtPrice] shows exactly that much
    less, with no wrap-around.  An opposing price with no trade shows the
    quantity it showed before. *)
Theorem trades_take_from_levels (e : MatchingEngine) (order : Order) :
  let b := m_orderBook e in
  let opp := opposite (m_side order) in
  wf_book b → totals_ok b →
  ∃ s, processOrder e order = Some s ∧
    NoDup (Trade_price <$> ms_trades s) ∧
    (∀ t, t ∈ ms_trades s →
       0 < Trade_quantity t <= getQuantityAtPrice b opp (Trade_price t) ∧
       getQuantityAtPrice (book_of s) opp (Trade_price t) =
       getQuantityAtPrice b opp (Trade_price t) - Trade_quantity t) ∧
    (∀ p : Price, p ∉ Trade_price <$> ms_trades s →
       getQuantityAtPrice (book_of s) opp p = getQuantityAtPrice b opp p).
Proof.
  intros b opp Hwf Ht. subst b opp.
  destruct (matchLoop_spec (m_side order) (snapshot_for (m_orderBook e) (m_side order))
              (mkMatchState e order []) Hwf (snapshot_for_range _ _ Hwf))
    as (m & new0 & Hrun & _ & Hid & _).
  destruct (matchLoop_levels (m_side order) _ (mkMatchState e order []) m
              Hwf Ht (snapshot_for_totals _ _) (snapshot_for_NoDup _ _) Hrun)
    as (new & Htr & Hsub & Htake & Hkeep).
  simpl in Htr. unfold book_of in Htake, Hkeep. simpl in Htake, Hkeep.
  assert (Hnd : NoDup (Trade_price <$> ms_trades m)).
  { rewrite Htr. eapply sublist_NoDup; [apply snapshot_for_NoDup|exact Hsub]. }
  unfold processOrder. rewrite matchOrder_loop, Hrun.
  destruct (_ && _).
  - eexists. split; [done|]. unfold book_of. simpl.
    assert (Hq : ∀ p : Price,
              getQuantityAtPrice (addOrder (m_orderBook (ms_engine m)) (ms_order m)).2
                (opposite (m_side order)) p =
              getQuantityAtPrice (m_orderBook (ms_engine m))
                (opposite (m_side order)) p).
    { intros p. unfold getQuantityAtPrice. rewrite addOrder_other_side; [done|].
      destruct Hid as (_ & -> & _). apply opposite_ne. }
    split_and!; [done| |].
    + intros t Hin. rewrite Hq. apply Htake. by rewrite Htr in Hin.
    + intros p Hnin. rewrite Hq. apply Hkeep. by rewrite Htr in Hnin.
  - exists m. split; [done|]. unfold book_of. split_and!; [done| |].
    + intros t Hin. apply Htake. by rewrite Htr in Hin.
    + intros p Hnin. apply Hkeep. by rewrite Htr in Hnin.
Qed.

Lemma trades_take_from_levels_witness :
  ∃ s, processOrder (mkEngine book_two_asks 0 0) (Order_new 9 BUY MARKET 0 12)
         = Some s ∧
    NoDup (Trade_price <$> ms_trades s) ∧
    (∀ t, t ∈ ms_trades s →
       0 < Trade_quantity t <= getQuantityAtPrice book_two_asks SELL (Trade_price t) ∧
       getQuantityAtPrice (book_of s) SELL (Trade_price t) =
       getQuantityAtPrice book_two_asks SELL (Trade_price t) - Trade_quantity t) ∧
    (∀ p : Price, p ∉ Trade_price <$> ms_trades s →
       getQuantityAtPrice (book_of s) SELL p = getQuantityAtPrice book_two_asks SELL p).
Proof.
  apply (trades_take_from_levels (mkEngine book_two_asks 0 0)
           (Order_new 9 BUY MARKET 0 12));
    apply (bool_decide_unpack _); vm_compute; exact I.
Defined.

(** ** MatchingEngine: what is left unfilled *)

Section exhaust.
Implicit Types (b : OrderBook) (side : Side) (s : MatchState).

Lemma wrap32_le z : 0 <= z → wrap32 z <= z.
Proof. intros Hz. unfold wrap32. apply Z.mod_le; lia. Qed.

(** With the cached totals right, a request that the cached total of the
    level covers is filled whole. *)
Lemma fillQuantityAtPrice_covered b side (p : Price) qty f b' :
  wf_book b → totals_ok b → is_u32 qty →
  qty <= getQuantityAtPrice b side p →
  fillQuantityAtPrice b side p qty = Some (f, b') → f = qty.
Proof.
  intros Hwf Ht Hq Hle Hrun. unfold getQuantityAtPrice in Hle.
  destruct (side_levels b side !! p) as [lvl|] eqn:Hl.
  2:{ rewrite fillQuantityAtPrice_no_level in Hrun by done.
      injection Hrun as <- _. unfold is_u32 in Hq. lia. }
  destruct (fillQuantityAtPrice_spec b side p qty lvl Hwf Hq Hl)
    as (consumed & kept & store' & Heq & _).
  rewrite Heq in Hrun. injection Hrun as <- _.
  pose proof (proj1 (totals_ok_side b) Ht side p lvl Hl) as Htot.
  unfold total_ok in Htot.
  pose proof (level_remaining_nonneg (m_orderMap b) (orders lvl)) as Hnn.
  pose proof (wrap32_le _ Hnn). lia.
Qed.

(** A level whose cached total a fill brings to 0 is erased. *)
Lemma fillQuantityAtPrice_erases b side (p : Price) qty f b' :
  wf_book b → is_u32 qty →
  fillQuantityAtPrice b side p qty = Some (f, b') →
  getQuantityAtPrice b' side p = 0 → side_levels b' side !! p = None.
Proof.
  intros Hwf Hq Hrun. unfold getQuantityAtPrice.
  destruct (side_levels b side !! p) as [lvl|] eqn:Hl.
  2:{ rewrite fillQuantityAtPrice_no_level in Hrun by done.
      injection Hrun as _ <-. by rewrite Hl. }
  destruct (fillQuantityAtPrice_spec b side p qty lvl Hwf Hq Hl)
    as (consumed & kept & store' & Heq & _).
  rewrite Heq in Hrun. injection Hrun as _ <-.
  rewrite side_levels_set_orderMap, side_levels_set_same, levels_after_fill_lookup.
  rewrite decide_True by done.
  destruct (Z.eqb_spec (wrap32 (totalQuantity lvl -
              Z.min qty (level_remaining (m_orderMap b) (orders lvl)))) 0)
    as [|Hnz]; [done|].
  simpl. destruct (isEmpty _); [done|]. simpl. done.
Qed.

Lemma matchLoop_done side (levels : list (Price * Quantity)) s :
  getRemainingQty (ms_order s) = 0 →
  matchLoop (matchStep side) levels s = Some s.
Proof.
  intros Hz. destruct levels as [|lv levels]; [done|]. cbn [matchLoop].
  rewrite (proj2 (matchStep_break side s lv)); [done|by left].
Qed.

Lemma better_for_beyond side (limit p p' : Price) :
  beyond_limit side limit p → better_for side p p' → beyond_limit side limit p'.
Proof. destruct side; simpl; lia. Qed.

(** A matching loop over a best-first snapshot that shows the cached
    totals of the book leaves the order with something remaining only when
    each level of the snapshot is gone or is beyond the order's limit. *)
Lemma matchLoop_exhausts side (levels : list (Price * Quantity)) :
  ∀ (s s' : MatchState),
  wf_book (book_of s) → totals_ok (book_of s) → order_ok (ms_order s) →
  Forall (λ lv, lv.2 = getQuantityAtPrice (book_of s) (opposite side) lv.1) levels →
  StronglySorted (better_for side) levels.*1 →
  matchLoop (matchStep side) levels s = Some s' →
  0 < getRemainingQty (ms_order s') →
  ∀ p : Price, p ∈ levels.*1 →
    side_levels (book_of s') (opposite side) !! p = None ∨
    (m_type (ms_order s) = LIMIT ∧ beyond_limit side (m_price (ms_order s)) p).
Proof.
  induction levels as [|[p q] levels IH];
    intros s s' Hwf Ht Hok Hall Hsorted Hrun Hpos p0 Hin.
  { by apply elem_of_nil in Hin. }
  apply Forall_cons in Hall as [Hq Hall]. simpl in Hq.
  rewrite fmap_cons in Hsorted. apply StronglySorted_inv in Hsorted as [Hsorted Hbest].
  simpl in Hbest.
  assert (Hp : p ∉ levels.*1).
  { intros Hpin. rewrite Forall_forall in Hbest.
    by apply (better_for_irrefl side p), Hbest. }
  destruct (matchStep side s (p, q)) as [[|s1]|] eqn:Hstep;
    cbn [matchLoop] in Hrun; rewrite Hstep in Hrun; [| |done].
  { (* break *)
    injection Hrun as <-.
    apply matchStep_break in Hstep as [Hz|[Hty Hbey]]; [lia|]. simpl in Hbey.
    right. split; [done|].
    rewrite fmap_cons in Hin. apply elem_of_cons in Hin as [->|Hin]; [done|].
    rewrite Forall_forall in Hbest.
    by apply (better_for_beyond side _ p), Hbest. }
  destruct (matchStep_unfold side s p q) as [Hb|[_ Heq]]; [congruence|].
  rewrite Hstep in Heq.
  assert (Hrem : 0 < getRemainingQty (ms_order s)).
  { pose proof (remaining_range (ms_order s)) as Hr. unfold is_u32 in Hr.
    destruct (decide (getRemainingQty (ms_order s) = 0)) as [Hz|]; [|lia].
    rewrite (proj2 (matchStep_break side s (p, q))) in Hstep; [done|by left]. }
  pose proof (getQuantityAtPrice_range (book_of s) (opposite side) p Hwf) as HQ.
  pose proof (remaining_range (ms_order s)) as Hrr.
  assert (Hm : is_u32 (Z.min (getRemainingQty (ms_order s)) q)).
  { unfold is_u32 in *. lia. }
  destruct (fillQuantityAtPrice _ _ _ _) as [[f b']|] eqn:Hfill; [|done].
  pose proof (fillQuantityAtPrice_wf _ _ _ _ _ _ Hwf Hm Hfill) as Hwf'.
  destruct (fillQuantityAtPrice_totals _ _ _ _ _ _ Hwf Ht Hm Hfill) as [Ht' Hqp].
  assert (Hf : f = Z.min (getRemainingQty (ms_order s)) q).
  { apply (fillQuantityAtPrice_covered (book_of s) (opposite side) p _ f b' Hwf Ht Hm);
      [lia|done]. }
  destruct (fillQuantityAtPrice_total (book_of s) (opposite side) p _ Hwf Hm)
    as (f0 & b0 & Hfill0 & _ & Hframe & _).
  rewrite Hfill in Hfill0. injection Hfill0 as <- <-.
  (* the state after this level *)
  assert (Hs1 : book_of s1 = b' ∧ order_ok (ms_order s1) ∧
                same_identity (ms_order s) (ms_order s1) ∧
                getRemainingQty (ms_order s1) = getRemainingQty (ms_order s) - f).
  { destruct (Z.eqb_spec f 0) as [Hz|Hnz]; injection Heq as ->.
    - unfold book_of. simpl. split_and!; try done. lia.
    - unfold book_of, record_fill. simpl. split_and!.
      + done.
      + apply fill_order_ok; [done|]. unfold is_u32 in *. lia.
      + destruct (fill_keeps_identity (ms_order s) f) as (? & ? & ? & ? & _).
        done.
      + apply fill_remaining; [done|]. unfold is_u32 in *. lia. }
  destruct Hs1 as (Hb1 & Hok1 & Hid1 & Hrem1).
  destruct (Z_le_gt_dec (getRemainingQty (ms_order s)) q) as [Hle|Hgt].
  { (* the level covers the order: nothing remains of it *)
    rewrite matchLoop_done in Hrun by lia. injection Hrun as <-. lia. }
  (* the order takes the whole level *)
  assert (Hgone : side_levels b' (opposite side) !! p = None).
  { apply (fillQuantityAtPrice_erases _ _ _ _ _ _ Hwf Hm Hfill).
    rewrite Hqp. replace (_ - f) with 0 by lia. done. }
  assert (Hall1 : Forall (λ lv, lv.2 =
                    getQuantityAtPrice (book_of s1) (opposite side) lv.1) levels).
  { rewrite Hb1. apply Forall_forall. intros [p' q'] Hin'.
    rewrite Forall_forall in Hall. etrans; [exact (Hall _ Hin')|]. simpl.
    unfold getQuantityAtPrice. rewrite Hframe; [done|]. right.
    intros ->. apply Hp. by apply (list_elem_of_fmap_2 fst _ _ Hin'). }
  rewrite fmap_cons in Hin. apply elem_of_cons in Hin as [->|Hin].
  - left. simpl.
    assert (Hrange : Forall (λ lv : Price * Quantity, is_u32 lv.2) levels).
    { apply Forall_forall. intros lv Hlv. rewrite Forall_forall in Hall1.
      rewrite (Hall1 _ Hlv). apply getQuantityAtPrice_range. by rewrite Hb1. }
    destruct (matchLoop_spec side levels s1) as (s2 & new & Hrun2 & _ & _ & _ & _ & _ & Hfr & _);
      [by rewrite Hb1|done|].
    rewrite Hrun in Hrun2. injection Hrun2 as <-.
    rewrite Hfr by (right; right; done). by rewrite Hb1.
  - destruct (IH s1 s') with (p := p0) as [Hnone|[Hty Hbey]]; try done.
    + by rewrite Hb1.
    + by rewrite Hb1.
    + by left.
    + right. destruct Hid1 as (_ & _ & Hi3 & Hi4). by rewrite <- Hi3, <- Hi4.
Qed.

Lemma opposing_in_order_length b side :
  length (opposing_in_order b side) = size (side_levels b (opposite side)).
Proof.
  destruct side; simpl.
  - by rewrite asks_in_order_perm, length_map_to_list.
  - by rewrite bids_in_order_perm, length_map_to_list.
Qed.

Lemma snapshot_for_sorted b side :
  StronglySorted (better_for side) (snapshot_for b side).*1.
Proof.
  rewrite snapshot_for_prices.
  apply (StronglySorted_sublist _ _ (opposing_in_order b side).*1);
    [apply sublist_take|apply opposing_in_order_sorted].
Qed.
End exhaust.

(** On a well-formed book whose cached totals are right, [processOrder]
    leaves the incoming order with something remaining only when no
    acceptable liquidity is left among the levels it looked at: every
    level then left on the opposing side is beyond the limit of the order
    (so the order is a LIMIT order), or lies outside the first 100 levels
    of the snapshot, which takes a book of more than 100 opposing
    levels. *)
Theorem processOrder_exhausts_liquidity (e : MatchingEngine) (order : Order) :
  let b := m_orderBook e in
  let side := m_side order in
  wf_book b → totals_ok b → order_ok order →
  ∃ s, processOrder e order = Some s ∧
    (0 < getRemainingQty (ms_order s) →
     ∀ p : Price, is_Some (side_levels (book_of s) (opposite side) !! p) →
       (m_type order = LIMIT ∧ beyond_limit side (m_price order) p) ∨
       ((100 < size (side_levels b (opposite side)))%nat ∧
        p ∉ (snapshot_for b side).*1)).
Proof.
  intros b side Hwf Ht Hok. subst b side.
  destruct (matchLoop_spec (m_side order) (snapshot_for (m_orderBook e) (m_side order))
              (mkMatchState e order []) Hwf (snapshot_for_range _ _ Hwf))
    as (m & new0 & Hrun & _ & Hid & _ & _ & _ & Hfr & _).
  pose proof (matchLoop_exhausts (m_side order) _ (mkMatchState e order []) m
                Hwf Ht Hok (snapshot_for_totals _ _) (snapshot_for_sorted _ _) Hrun)
    as Hex.
  unfold book_of in Hex, Hfr. simpl in Hex, Hfr.
  assert (Hmain : 0 < getRemainingQty (ms_order m) →
            ∀ p : Price,
              is_Some (side_levels (m_orderBook (ms_engine m))
                         (opposite (m_side order)) !! p) →
              (m_type order = LIMIT ∧ beyond_limit (m_side order) (m_price order) p) ∨
              ((100 < size (side_levels (m_orderBook e) (opposite (m_side order))))%nat ∧
               p ∉ (snapshot_for (m_orderBook e) (m_side order)).*1)).
  { intros Hpos p Hsome.
    destruct (decide (p ∈ (snapshot_for (m_orderBook e) (m_side order)).*1))
      as [Hin|Hnin].
    - destruct (Hex Hpos p Hin) as [Hnone|?]; [|by left].
      rewrite Hnone in Hsome. by destruct Hsome.
    - right. split; [|done].
      rewrite Hfr in Hsome by (right; right; done).
      destruct Hsome as [lvl Hl].
      apply opposing_in_order_levels in Hl.
      apply (list_elem_of_fmap_2 fst) in Hl. simpl in Hl.
      rewrite <- opposing_in_order_length.
      destruct (le_gt_dec (length (opposing_in_order (m_orderBook e) (m_side order)))
                  100) as [Hle|Hgt]; [|lia].
      exfalso. apply Hnin. rewrite snapshot_for_prices.
      rewrite take_ge by (rewrite length_fmap; lia). done. }
  unfold processOrder. rewrite matchOrder_loop, Hrun.
  destruct (_ && _).
  - eexists. split; [done|]. unfold book_of. simpl.
    intros Hpos p Hsome. apply (Hmain Hpos p).
    rewrite addOrder_other_side in Hsome; [done|].
    destruct Hid as (_ & -> & _). apply opposite_ne.
  - exists m. split; [done|]. exact Hmain.
Qed.

Lemma processOrder_exhausts_liquidity_witness :
  ∃ s, processOrder (mkEngine book_two_asks 0 0) (Order_new 9 BUY LIMIT 1002 12)
         = Some s ∧
    (0 < getRemainingQty (ms_order s) →
     ∀ p : Price, is_Some (side_levels (book_of s) SELL !! p) →
       (LIMIT = LIMIT ∧ beyond_limit BUY 1002 p) ∨
       ((100 < size (side_levels book_two_asks SELL))%nat ∧
        p ∉ (snapshot_for book_two_asks BUY).*1)).
Proof.
  apply (processOrder_exhausts_liquidity (mkEngine book_two_asks 0 0)
           (Order_new 9 BUY LIMIT 1002 12)).
  - apply (bool_decide_unpack _); vm_compute; exact I.
  - apply (bool_decide_unpack _); vm_compute; exact I.
  - unfold order_ok. simpl. lia.
Defined.

(** ** OrderBook: what a fill leaves alone *)

(** [fillQuantityAtPrice] on a well-formed book returns, with at most the
    quantity asked for, and touches only the level it is called on: every
    other level of either side is as before, an order that does not sit in
    that level keeps its record, the level gains no order, no id enters the
    index, and the book is well formed again (the level is erased rather
    than left empty). *)
Theorem fillQuantityAtPrice_frame (b : OrderBook) (side : Side) (p : Price)
    (qty : Quantity) :
  wf_book b → is_u32 qty →
  ∃ f b', fillQuantityAtPrice b side p qty = Some (f, b') ∧
    0 <= f <= qty ∧ wf_book b' ∧
    (∀ side' (p' : Price), side' ≠ side ∨ p' ≠ p →
       side_levels b' side' !! p' = side_levels b side' !! p') ∧
    (∀ id, ¬ in_level b side p id → getOrder b' id = getOrder b id) ∧
    (∀ id, in_level b' side p id → in_level b side p id) ∧
    (∀ id, is_Some (getOrder b' id) → is_Some (getOrder b id)).
Proof.
  intros Hwf Hq.
  destruct (fillQuantityAtPrice_total b side p qty Hwf Hq)
    as (f & b' & Hrun & Hwf' & Hframe & Hnone).
  exists f, b'. split; [done|].
  split; [by apply (fillQuantityAtPrice_le b side p qty f b')|].
  split; [done|]. split; [done|].
  unfold in_level, getOrder.
  destruct (side_levels b side !! p) as [lvl|] eqn:Hl.
  2:{ rewrite fillQuantityAtPrice_no_level in Hrun by done.
      injection Hrun as _ <-. rewrite Hl. done. }
  destruct (fillQuantityAtPrice_spec b side p qty lvl Hwf Hq Hl)
    as (consumed & kept & store' & Heq & Hsplit & Hgone & Hout & _).
  rewrite Heq in Hrun. injection Hrun as _ <-.
  rewrite side_levels_set_orderMap, side_levels_set_same, levels_after_fill_lookup.
  rewrite decide_True by done. simpl. split_and!.
  - intros id Hnin. by apply Hout.
  - destruct (_ || _); [done|]. simpl. intros id Hin.
    rewrite Hsplit. apply elem_of_app. by right.
  - intros id [o Ho].
    destruct (m_orderMap b !! id) eqn:Hb; [done|].
    rewrite Hout in Ho; [congruence|].
    by apply (wf_book_fresh_absent b id side p lvl).
Qed.

Lemma fillQuantityAtPrice_frame_witness :
  ∃ f b', fillQuantityAtPrice book_two_asks SELL 1000 3 = Some (f, b') ∧
    0 <= f <= 3 ∧ wf_book b' ∧
    (∀ side' (p' : Price), side' ≠ SELL ∨ p' ≠ 1000 →
       side_levels b' side' !! p' = side_levels book_two_asks side' !! p') ∧
    (∀ id, ¬ in_level book_two_asks SELL 1000 id →
           getOrder b' id = getOrder book_two_asks id) ∧
    (∀ id, in_level b' SELL 1000 id → in_level book_two_asks SELL 1000 id) ∧
    (∀ id, is_Some (getOrder b' id) → is_Some (getOrder book_two_asks id)).
Proof.
  apply (fillQuantityAtPrice_frame book_two_asks SELL 1000 3).
  - apply (bool_decide_unpack _); vm_compute; exact I.
  - unfold is_u32. lia.
Defined.

(** ** OrderBook: books the operations build *)

(** Every book built from the empty book by the public operations of
    [OrderBook] and by [processOrder], on arguments within the ranges of
    their C++ types, is consistent: no level is empty, no level lists an
    order twice, every order a level lists has a record in the id index
    with the side and the price of the level, every record of the index is
    stored under its own id with 0 <= filled <= quantity < 2^32, and no
    order sits in two levels. *)
Theorem reachable_books_consistent (b : OrderBook) :
  reachable b →
  (∀ side (p : Price) lvl, side_levels b side !! p = Some lvl →
     orders lvl ≠ [] ∧ NoDup (orders lvl) ∧ is_u32 (totalQuantity lvl) ∧
     ∀ id, id ∈ orders lvl →
       ∃ o, getOrder b id = Some o ∧ m_side o = side ∧ m_price o = p) ∧
  (∀ id o, getOrder b id = Some o →
     m_id o = id ∧ 0 <= m_filledQty o <= m_quantity o ∧ m_quantity o < 2 ^ 32) ∧
  (∀ id side (p : Price) side' (p' : Price),
     in_level b side p id → in_level b side' p' id → side' = side ∧ p' = p).
Proof.
  intros Hr. destruct (reachable_inv b Hr) as [Hwf Hs]. split_and!.
  - intros side p lvl Hl.
    destruct (wf_book_level b side p lvl Hwf Hl) as (Hne & Hu & Hnd & Hall).
    split_and!; try done.
    intros id Hin. rewrite Forall_forall in Hall.
    destruct (member_at_lookup _ _ _ _ (Hall id Hin)) as (o & Ho & _ & _ & ? & ?).
    by exists o.
  - intros id o Ho. destruct (Hs id o Ho) as (? & [? ?] & ?). done.
  - intros id side p side' p' H1 H2.
    unfold in_level in H1, H2.
    destruct (side_levels b side !! p) as [l1|] eqn:Hl1; [|done].
    destruct (side_levels b side' !! p') as [l2|] eqn:Hl2; [|done].
    destruct (wf_book_level b side p l1 Hwf Hl1) as (_ & _ & _ & Hall1).
    destruct (wf_book_level b side' p' l2 Hwf Hl2) as (_ & _ & _ & Hall2).
    rewrite Forall_forall in Hall1, Hall2.
    destruct (member_at_lookup _ _ _ _ (Hall1 id H1)) as (o1 & Ho1 & _ & _ & <- & <-).
    destruct (member_at_lookup _ _ _ _ (Hall2 id H2)) as (o2 & Ho2 & _ & _ & <- & <-).
    rewrite Ho1 in Ho2. by injection Ho2 as ->.
Qed.

Lemma reachable_books_consistent_witness :
  (∀ side (p : Price) lvl, side_levels book_two_asks side !! p = Some lvl →
     orders lvl ≠ [] ∧ NoDup (orders lvl) ∧ is_u32 (totalQuantity lvl) ∧
     ∀ id, id ∈ orders lvl →
       ∃ o, getOrder book_two_asks id = Some o ∧ m_side o = side ∧ m_price o = p) ∧
  (∀ id o, getOrder book_two_asks id = Some o →
     m_id o = id ∧ 0 <= m_filledQty o <= m_quantity o ∧ m_quantity o < 2 ^ 32) ∧
  (∀ id side (p : Price) side' (p' : Price),
     in_level book_two_asks side p id → in_level book_two_asks side' p' id →
     side' = side ∧ p' = p).
Proof.
  apply (reachable_books_consistent book_two_asks).
  unfold book_two_asks, book_add.
  repeat (apply reach_addOrder; [|unfold order_ok; simpl; lia]).
  apply reach_empty.
Defined.

(** ** OrderQueue: order of delivery *)

Section queue_fifo.
Implicit Types (q : OrderQueue) (l : list Order).

Lemma push_all q l :
  foldl push q l = mkOrderQueue (m_queue q ++ l) (m_shutdown q).
Proof.
  revert q. induction l as [|o l IH]; intros q; simpl.
  - rewrite app_nil_r. by destruct q.
  - rewrite IH. simpl. by rewrite <- app_assoc.
Qed.

Lemma drain_spec (n : nat) : ∀ q,
  drain n q = (take n (m_queue q), mkOrderQueue (drop n (m_queue q)) (m_shutdown q)).
Proof.
  induction n as [|n IH]; intros [queue sd]; [done|].
  destruct queue as [|o rest]; [by destruct sd|].
  simpl. unfold pop, wake_condition, OrderQueue_empty, take_front. simpl.
  rewrite andb_false_r. rewrite IH. done.
Qed.
End queue_fifo.

(** The queue is first in, first out across any run of [push] calls, shut
    down or not: after pushing the orders [l], [n] successive calls of
    [pop] hand out the first [n] of the orders queued before followed by
    [l], oldest first, and leave the rest queued; [size] grows by the
    number of orders pushed and the shutdown flag is as it was, so orders
    pushed after [shutdown] are queued and handed out as well.  After
    [clear], only the orders pushed later are handed out. *)
Theorem push_pop_fifo (q : OrderQueue) (l : list Order) (n : nat) :
  let q' := foldl push q l in
  OrderQueue_size q' = (OrderQueue_size q + length l)%nat ∧
  isShutdown q' = isShutdown q ∧
  drain n q' = (take n (m_queue q ++ l),
                mkOrderQueue (drop n (m_queue q ++ l)) (m_shutdown q)) ∧
  drain n (foldl push (OrderQueue_clear q) l) =
    (take n l, mkOrderQueue (drop n l) (m_shutdown q)).
Proof.
  intros q'. subst q'. rewrite !push_all, !drain_spec. simpl.
  unfold OrderQueue_size. simpl. by rewrite length_app.
Qed.

(** [pop] blocks exactly when the queue is empty and not shut down.
    [tryPop] never waits: it hands out the oldest order, removing it, and
    returns nothing, leaving the queue as it is, when there is none.  On a
    queue that is not empty [pop] and [popWithTimeout] return at once what
    [tryPop] returns, whatever the shutdown flag and the timeout are, and
    the size drops by one. *)
Theorem consumers_agree (q : OrderQueue) (timeoutMs : Z) :
  (pop q = Blocked ↔ OrderQueue_empty q = true ∧ isShutdown q = false) ∧
  tryPop q = (head (m_queue q),
              mkOrderQueue (tail (m_queue q)) (m_shutdown q)) ∧
  (OrderQueue_empty q = true → (tryPop q).2 = q) ∧
  (OrderQueue_empty q = false →
     pop q = Returned (tryPop q) ∧
     popWithTimeout q timeoutMs = tryPop q ∧
     S (OrderQueue_size (tryPop q).2) = OrderQueue_size q).
Proof.
  destruct q as [[|o rest] [|]]; split_and!; try done;
    try (intros [? ?]; done); try (split; [done|intros [? ?]; done]).
Qed.


(** ** OrderBook: time priority under modification *)

Section time_priority.
Implicit Types (b : OrderBook) (side : Side) (id : OrderId) (o : Order).

Lemma others_in_remove_first id l : others_in id (remove_first id l) = others_in id l.
Proof.
  unfold others_in. induction l as [|x l IH]; [done|]. simpl.
  destruct (decide (x = id)) as [->|Hne].
  - by rewrite filter_cons_False by (intros H; by apply H).
  - by rewrite !filter_cons_True, IH by done.
Qed.

Lemma others_in_snoc id l : others_in id (l ++ [id]) = others_in id l.
Proof.
  unfold others_in. rewrite filter_app, filter_cons_False by (intros H; by apply H).
  by rewrite filter_nil, app_nil_r.
Qed.

Lemma isEmpty_orders (lvl : PriceLevel) : isEmpty lvl = true ↔ orders lvl = [].
Proof. unfold isEmpty. by destruct (orders lvl). Qed.

Lemma level_fifo_removeFromBook b id o side (p : Price) :
  level_fifo (removeFromBook b id o) side p =
    if decide (side = m_side o ∧ p = m_price o)
    then remove_first id (level_fifo b side p)
    else level_fifo b side p.
Proof.
  unfold level_fifo.
  destruct (decide (side = m_side o ∧ p = m_price o)) as [[-> ->]|Hne].
  - destruct (side_levels b (m_side o) !! m_price o) as [lvl|] eqn:Hl.
    + rewrite (removeFromBook_level b id o lvl Hl). simpl.
      destruct (isEmpty _) eqn:He.
      * apply isEmpty_orders in He.
        by rewrite PriceLevel_removeOrder_orders in He.
      * apply PriceLevel_removeOrder_orders.
    + unfold removeFromBook. by rewrite Hl, Hl.
  - rewrite removeFromBook_other_level; [done|].
    destruct (decide (side = m_side o)); [right|left]; naive_solver.
Qed.

Lemma level_fifo_addToBook b id o side (p : Price) :
  level_fifo (addToBook b id o) side p =
    if decide (side = m_side o ∧ p = m_price o)
    then level_fifo b side p ++ [id]
    else level_fifo b side p.
Proof.
  unfold level_fifo.
  destruct (decide (side = m_side o ∧ p = m_price o)) as [[-> ->]|Hne].
  - rewrite addToBook_level.
    by destruct (side_levels b (m_side o) !! m_price o).
  - rewrite addToBook_other_level; [done|].
    destruct (decide (side = m_side o)); [right|left]; naive_solver.
Qed.

Lemma level_fifo_set_orderMap b store side (p : Price) :
  level_fifo (set_orderMap b store) side p = level_fifo b side p.
Proof. unfold level_fifo. by rewrite side_levels_set_orderMap. Qed.
End time_priority.

(** [modifyOrderPrice] gives up the order's place in the queue.  On the id
    of an active order the order is taken out of the level of its side and
    price (one occurrence, when it is there) and appended to the level of
    its side and of the price it has after [Order::modifyPrice]: the last
    order there, behind every order already at that price, also when the
    new price is the old one or the change is refused.  All the other
    orders keep their levels, their relative order and their records. *)
Theorem modifyOrderPrice_loses_priority (b : OrderBook) (id : OrderId) (o : Order)
    (newPrice : Price) :
  m_orderMap b !! id = Some o → isActive o = true →
  let b' := (modifyOrderPrice b id newPrice).2 in
  let ok := (modifyOrderPrice b id newPrice).1 in
  let p' := if ok then newPrice else m_price o in
  (ok = true ↔ m_type o = LIMIT ∧ m_filledQty o <= 0) ∧
  level_fifo b' (m_side o) p' =
    (if decide (p' = m_price o)
     then remove_first id (level_fifo b (m_side o) p')
     else level_fifo b (m_side o) p') ++ [id] ∧
  (∀ side (p : Price), side ≠ m_side o ∨ p ≠ p' →
     level_fifo b' side p =
       if decide (side = m_side o ∧ p = m_price o)
       then remove_first id (level_fifo b side p)
       else level_fifo b side p) ∧
  (∀ side (p : Price),
     others_in id (level_fifo b' side p) = others_in id (level_fifo b side p)) ∧
  (∀ id', id' ≠ id → getOrder b' id' = getOrder b id').
Proof.
  intros Ho Hact b' ok p'. subst b' ok p'.
  rewrite (modifyOrderPrice_active b id o newPrice Ho Hact). simpl.
  pose proof (modifyPrice_spec o newPrice) as Hspec.
  destruct (modifyPrice o newPrice) as [ok o'] eqn:Hmp. simpl.
  destruct Hspec as (_ & Hside & Hprice & _ & Hok).
  assert (Hfifo : ∀ side (p : Price),
    level_fifo (addToBook (set_orderMap (removeFromBook b id o)
                  (<[id:=o']> (m_orderMap (removeFromBook b id o)))) id o') side p =
    if decide (side = m_side o ∧ p = (if ok then newPrice else m_price o))
    then (if decide (side = m_side o ∧ p = m_price o)
          then remove_first id (level_fifo b side p)
          else level_fifo b side p) ++ [id]
    else (if decide (side = m_side o ∧ p = m_price o)
          then remove_first id (level_fifo b side p)
          else level_fifo b side p)).
  { intros side p.
    rewrite level_fifo_addToBook, level_fifo_set_orderMap,
      level_fifo_removeFromBook, Hside, Hprice. done. }
  split_and!.
  - done.
  - rewrite Hfifo. rewrite decide_True by done.
    destruct (decide ((if ok then newPrice else m_price o) = m_price o)) as [He|Hne].
    + by rewrite decide_True by done.
    + rewrite decide_False; [done|]. by intros [_ ?].
  - intros side p Hne. rewrite Hfifo. rewrite decide_False; [done|].
    intros [-> ->]. by destruct Hne.
  - intros side p. rewrite Hfifo.
    destruct (decide (side = m_side o ∧ p = (if ok then newPrice else m_price o)));
      destruct (decide (side = m_side o ∧ p = m_price o));
      by rewrite ?others_in_snoc, ?others_in_remove_first.
  - intros id' Hne. unfold getOrder.
    rewrite addToBook_orderMap. simpl.
    rewrite lookup_insert_ne by done. by rewrite removeFromBook_orderMap.
Qed.

Lemma modifyOrderPrice_loses_priority_witness :
  level_fifo (modifyOrderPrice book_three_bids 1 100).2 BUY 100 = [2; 3; 1] ∧
  level_fifo (modifyOrderPrice book_partial_front 1 105).2 BUY 100 = [2; 3; 1].
Proof.
  split.
  - destruct (modifyOrderPrice_loses_priority book_three_bids 1
                (Order_new 1 BUY LIMIT 100 50) 100) as (_ & H & _);
      [vm_compute; reflexivity | reflexivity |].
    etrans; [|etrans; [exact H|]]; vm_compute; reflexivity.
  - destruct (modifyOrderPrice_loses_priority book_partial_front 1
                (mkOrder 1 BUY LIMIT 100 50 20 PARTIAL) 105) as (_ & H & _);
      [vm_compute; reflexivity | reflexivity |].
    etrans; [|etrans; [exact H|]]; vm_compute; reflexivity.
Defined.

(** [modifyOrderQuantity] keeps the order's place in the queue.  It
    returns true exactly for the id of an active order whose fill the new
    quantity covers, and otherwise leaves the book as it is.  In every case
    the FIFO of every level and the record of every other order are as
    before; on success the order has the new quantity and the fill it had,
    is FILLED when the two are equal, and only the cached total of the
    level at its side and price moves, by the change of what remains of the
    order. *)
Theorem modifyOrderQuantity_keeps_priority (b : OrderBook) (id : OrderId)
    (q : Quantity) :
  let b' := (modifyOrderQuantity b id q).2 in
  let ok := (modifyOrderQuantity b id q).1 in
  (ok = true ↔
   ∃ o, m_orderMap b !! id = Some o ∧ isActive o = true ∧ m_filledQty o <= q) ∧
  (ok = false → b' = b) ∧
  (∀ side (p : Price), level_fifo b' side p = level_fifo b side p) ∧
  (∀ side (p : Price), is_Some (side_levels b' side !! p) ↔
                       is_Some (side_levels b side !! p)) ∧
  (∀ id', id' ≠ id → getOrder b' id' = getOrder b id') ∧
  (∀ o, m_orderMap b !! id = Some o → ok = true →
     let o' := (modifyQuantity o q).2 in
     getOrder b' id = Some o' ∧
     m_quantity o' = q ∧ m_filledQty o' = m_filledQty o ∧
     (m_filledQty o = q → m_status o' = FILLED) ∧
     (m_filledQty o ≠ q → m_status o' = m_status o) ∧
     (∀ side (p : Price), side ≠ m_side o ∨ p ≠ m_price o →
        side_levels b' side !! p = side_levels b side !! p) ∧
     (is_Some (side_levels b (m_side o) !! m_price o) →
      getQuantityAtPrice b' (m_side o) (m_price o) =
        wrap32 (getQuantityAtPrice b (m_side o) (m_price o)
                + (getRemainingQty o' - getRemainingQty o)))).
Proof.
  intros b' ok. subst b' ok. unfold modifyOrderQuantity.
  destruct (m_orderMap b !! id) as [o|] eqn:Ho.
  2:{ simpl. split_and!; try done. split; [done|]. by intros (o & ? & _). }
  destruct (isActive o) eqn:Hact; simpl.
  2:{ split_and!; try done. split; [done|].
      intros (o0 & [= <-] & Ha & _). congruence. }
  unfold modifyQuantity.
  destruct (Z.ltb_spec q (m_filledQty o)) as [Hlt|Hge]; simpl.
  { split_and!; try done. split; [done|]. intros (o0 & [= <-] & _ & Hle). lia. }
  set (o' := mkOrder _ _ _ _ _ _ _).
  set (b1 := set_orderMap b _).
  assert (Hlv : ∀ side (p : Price),
    side_levels (set_side_levels b1 (m_side o)
       (add_to_total (side_levels b1 (m_side o)) (m_price o)
          (wrap32 (getRemainingQty o' - getRemainingQty o)))) side !! p =
    if decide (side = m_side o ∧ p = m_price o)
    then (λ lvl, mkPriceLevel (price lvl)
            (wrap32 (totalQuantity lvl +
                     wrap32 (getRemainingQty o' - getRemainingQty o)))
            (orders lvl)) <$> side_levels b side !! p
    else side_levels b side !! p).
  { intros side p. subst b1.
    destruct (decide (side = m_side o ∧ p = m_price o)) as [[-> ->]|Hne].
    - rewrite side_levels_set_same, side_levels_set_orderMap. unfold add_to_total.
      destruct (side_levels b (m_side o) !! m_price o) as [lvl|] eqn:Hl.
      + by rewrite lookup_insert_eq.
      + by rewrite Hl.
    - destruct (decide (side = m_side o)) as [->|Hs].
      + rewrite side_levels_set_same, side_levels_set_orderMap. unfold add_to_total.
        destruct (side_levels b (m_side o) !! m_price o) as [lvl|] eqn:Hl; [|done].
        rewrite lookup_insert_ne; [done|]. intros <-. by apply Hne.
      + by rewrite side_levels_set_other, side_levels_set_orderMap. }
  split_and!.
  - split; [|done]. intros _. by exists o.
  - done.
  - intros side p. unfold level_fifo. rewrite Hlv.
    destruct (decide _); [|done]. by destruct (side_levels b side !! p).
  - intros side p. rewrite Hlv.
    destruct (decide _); [|done]. by rewrite fmap_is_Some.
  - intros id' Hne. unfold getOrder. rewrite orderMap_set_side_levels. subst b1.
    simpl. by rewrite lookup_insert_ne.
  - intros o0 [= <-] _. cbn zeta. unfold modifyQuantity.
    destruct (Z.ltb_spec q (m_filledQty o)) as [?|_]; [lia|]. cbn [snd].
    fold o'. split_and!.
    + unfold getOrder. rewrite orderMap_set_side_levels. subst b1. simpl.
      apply lookup_insert_eq.
    + done.
    + done.
    + intros Heq. subst o'. simpl.
      destruct (Z.eqb_spec (m_filledQty o) q); [done|done].
    + intros Hne. subst o'. simpl.
      destruct (Z.eqb_spec (m_filledQty o) q); [done|done].
    + intros side p Hne. rewrite Hlv. rewrite decide_False; [done|].
      intros [-> ->]. by destruct Hne.
    + intros [lvl Hl]. unfold getQuantityAtPrice. rewrite Hlv.
      rewrite decide_True by done. rewrite Hl. simpl. apply wrap32_plus_r.
Qed.
